(** * Payment reconciliation of the learning-management backend

    A shallow embedding of the purchase controller
    (controllers/coursePurchase.controller.js), the purchase router
    (routes/purchaseCourse.route.js), the authentication middleware of
    its routes (middleware/isAuthenticated.js), the administrator's
    command line (scripts/adminTools.js) and the one-shot repair script
    (fixStuckPayment.js), followed by the properties of the payment
    reconciliation subsystem that hold, or fail, on that code.

    The JavaScript is asynchronous and talks to two outside parties, the
    MongoDB store and the Stripe API.  Both are modelled explicitly:
    the store is part of the [World] that every operation threads, and
    Stripe, the clock and the availability of the database are oracles
    of the environment [Env], indexed by a logical time [tick] that
    advances at every outside call.  Exceptions are a second kind of
    result of the monad [M], so that every [try]/[catch] of the source
    has its counterpart here. *)

From Stdlib Require Import ZArith QArith Ascii String List Bool Lia Sorted.
From stdpp Require Import base option list gmap strings.
Import ListNotations.

Open Scope string_scope.
Open Scope Z_scope.

(** ** Data model *)

(** The [status] enumeration of a purchase (the schema file itself is not
    among the sources; the three values are those the administrator's
    [--status] filter lists). *)
Inductive Status := pending | succeeded | failed.

#[global] Instance Status_eq_dec : EqDecision Status.
Proof. solve_decision. Defined.

(** A stored [CoursePurchase] document.  Object ids are strings (their
    hexadecimal form); [createdAt] is a date in milliseconds; the
    payment-session id is absent until a checkout session exists. *)
Record CoursePurchase := mkPurchase {
  _id : string;
  courseId : string;
  userId : string;
  amount : Q;
  status : Status;
  paymentId : option string;
  createdAt : Z
}.

(** What [purchase.courseId] holds in a loaded document: the bare
    reference, the referenced course after [populate], or [null] when
    [populate] found no such course. *)
Inductive CourseRef := Unpopulated | PopulatedCourse | PopulatedNull.

(** A Mongoose document in memory: the fields and the state of the
    [courseId] path. *)
Record PurchaseDoc := mkDoc {
  fields : CoursePurchase;
  courseRef : CourseRef
}.

(** Of a user and a course only the enrollment arrays matter here. *)
Record User := mkUser { enrolledCourses : list string }.
Record Course := mkCourse { enrolledStudents : list string }.

(** The update commands sent through [findByIdAndUpdate], in the order
    they were issued. *)
Inductive Command :=
| UserAddToSet (uid cid : string)
| CourseAddToSet (cid uid : string).

(** The store, the logical time and the trace of update commands. *)
Record World := mkWorld {
  purchases : list CoursePurchase;
  users : gmap string User;
  courses : gmap string Course;
  tick : nat;
  commands : list Command
}.

(** ** The payment provider *)

Record Metadata := mkMetadata {
  md_courseId : option string;
  md_userId : option string
}.

Record CheckoutSession := mkSession {
  session_id : string;
  payment_status : string;
  amount_total : Z;
  metadata : option Metadata
}.

Record Event := mkEvent {
  event_type : string;
  data_object : CheckoutSession
}.

(** The settlement of a promise, or the outcome of a call that may throw. *)
Inductive Outcome (A : Type) :=
| Resolved (a : A)
| Rejected (message : string).
Arguments Resolved {A} a.
Arguments Rejected {A} message.

(** The environment: the clock, the provider, the availability of the
    database at each logical time, the signature check, and the process
    environment variables the code reads. *)
Record Env := mkEnv {
  Date_now : nat -> Z;
  sessions_retrieve : nat -> option string -> Outcome CheckoutSession;
  db_up : nat -> bool;
  constructEvent : string -> option string -> string -> Outcome Event;
  WEBHOOK_ENDPOINT_SECRET : option string;
  STRIPE_SECRET_KEY : option string;
  NODE_ENV : option string
}.

(** ** The monad of asynchronous operations *)

Inductive Result (A : Type) :=
| Ok (a : A) (w : World)
| Throw (e : string) (w : World).
Arguments Ok {A} a w.
Arguments Throw {A} e w.

Definition M (A : Type) : Type := World -> Result A.

Definition ret {A} (a : A) : M A := fun w => Ok a w.

Definition throw {A} (e : string) : M A := fun w => Throw e w.

Definition bind {A B} (m : M A) (k : A -> M B) : M B :=
  fun w => match m w with
           | Ok a w' => k a w'
           | Throw e w' => Throw e w'
           end.

(** [try { m } catch (e) { h e }] *)
Definition try_catch {A} (m : M A) (h : string -> M A) : M A :=
  fun w => match m w with
           | Ok a w' => Ok a w'
           | Throw e w' => h e w'
           end.

Notation "'let*' x ':=' m 'in' k" := (bind m (fun x => k))
  (at level 10, x name, m at level 100, k at level 200).

(** The world a computation ends in, whichever way it ends. *)
Definition final {A} (r : Result A) : World :=
  match r with Ok _ w => w | Throw _ w => w end.

(** [for (const x of l) { await body(x) }] *)
Fixpoint forEach {A} (l : list A) (body : A -> M unit) : M unit :=
  match l with
  | [] => ret tt
  | x :: rest => bind (body x) (fun _ => forEach rest body)
  end.

(** ** JavaScript values *)

(** Truthiness of a possibly absent string: [undefined] and [""] are falsy. *)
Definition truthy (s : option string) : bool :=
  match s with
  | Some s => negb (String.eqb s "")
  | None => false
  end.

(** [hay.includes(needle)] *)
Fixpoint includes (needle hay : string) : bool :=
  String.prefix needle hay ||
  match hay with
  | EmptyString => false
  | String _ rest => includes needle rest
  end.

(** The message of the [TypeError] raised by a property access on
    [undefined] or [null]. *)
Definition TypeError : string := "TypeError: Cannot read properties of undefined".

(** [$addToSet]: append unless already present. *)
Definition addToSet (x : string) (l : list string) : list string :=
  if bool_decide (x ∈ l) then l else l ++ [x].

(** ** Documents *)

Definition set_status (s : Status) (p : CoursePurchase) : CoursePurchase :=
  mkPurchase (_id p) (courseId p) (userId p) (amount p) s (paymentId p) (createdAt p).

Definition set_paymentId (i : string) (p : CoursePurchase) : CoursePurchase :=
  mkPurchase (_id p) (courseId p) (userId p) (amount p) (status p) (Some i) (createdAt p).

Definition set_amount (a : Q) (p : CoursePurchase) : CoursePurchase :=
  mkPurchase (_id p) (courseId p) (userId p) a (status p) (paymentId p) (createdAt p).

Definition on_fields (f : CoursePurchase -> CoursePurchase) (d : PurchaseDoc) : PurchaseDoc :=
  mkDoc (f (fields d)) (courseRef d).

(** [purchase.courseId._id]: Mongoose gives an ObjectId an [_id] getter
    that returns the id itself, so the expression yields the course id on
    a bare reference as well as on a populated one, and throws on [null]. *)
Definition courseId_id (d : PurchaseDoc) : option string :=
  match courseRef d with
  | PopulatedNull => None
  | _ => Some (courseId (fields d))
  end.

Definition is_pending (p : CoursePurchase) : bool :=
  bool_decide (status p = pending).

Definition status_name (s : Status) : string :=
  match s with
  | pending => "pending"
  | succeeded => "succeeded"
  | failed => "failed"
  end.

(** ** The store, the clock and the provider *)

Section Operations.

Context (env : Env).

Definition advance (w : World) : World :=
  mkWorld (purchases w) (users w) (courses w) (S (tick w)) (commands w).

(** One round trip to MongoDB: it fails when the database is down at
    that time, and time passes either way. *)
Definition db_roundtrip : M unit :=
  fun w => if db_up env (tick w)
           then Ok tt (advance w)
           else Throw "MongoNetworkError" (advance w).

(** [Date.now()] *)
Definition now : M Z := fun w => Ok (Date_now env (tick w)) w.

(** [await stripe.checkout.sessions.retrieve(id)] *)
Definition stripe_retrieve (i : option string) : M CheckoutSession :=
  fun w => match sessions_retrieve env (tick w) i with
           | Resolved s => Ok s (advance w)
           | Rejected e => Throw e (advance w)
           end.

Definition loaded (p : CoursePurchase) : PurchaseDoc := mkDoc p Unpopulated.

Definition populated_in (cs : gmap string Course) (p : CoursePurchase) : PurchaseDoc :=
  mkDoc p (if bool_decide (is_Some (cs !! courseId p)) then PopulatedCourse else PopulatedNull).

(** [CoursePurchase.find(q)] *)
Definition find (q : CoursePurchase -> bool) : M (list PurchaseDoc) :=
  let* _ := db_roundtrip in
  fun w => Ok (map loaded (filter (fun p => q p = true) (purchases w))) w.

(** [CoursePurchase.find(q).populate("courseId")] *)
Definition find_populate (q : CoursePurchase -> bool) : M (list PurchaseDoc) :=
  let* _ := db_roundtrip in
  fun w => Ok (map (populated_in (courses w))
                   (filter (fun p => q p = true) (purchases w))) w.

(** [CoursePurchase.findOne(q)]: the first match in the order of the
    collection, or [null]. *)
Definition findOne (q : CoursePurchase -> bool) : M (option PurchaseDoc) :=
  let* _ := db_roundtrip in
  fun w => Ok (loaded <$> head (filter (fun p => q p = true) (purchases w))) w.

(** [CoursePurchase.findById(i)] *)
Definition findById (i : string) : M (option PurchaseDoc) :=
  findOne (fun p => String.eqb (_id p) i).

(** [purchase.populate("courseId")] *)
Definition populate (d : PurchaseDoc) : M PurchaseDoc :=
  let* _ := db_roundtrip in
  fun w => Ok (populated_in (courses w) (fields d)) w.

Definition overwrite (p : CoursePurchase) (ps : list CoursePurchase) : list CoursePurchase :=
  map (fun q => if String.eqb (_id q) (_id p) then p else q) ps.

Definition stored (i : string) (ps : list CoursePurchase) : option CoursePurchase :=
  head (filter (fun p => String.eqb (_id p) i = true) ps).

(** [await purchase.save()] on a document loaded from the store: the
    stored record with the same [_id] takes the document's fields.
    (Mongoose sends the modified paths only; within one pass no other
    writer touches the record, so the stored result is the same.)  A
    document whose record is gone is refused. *)
Definition save (d : PurchaseDoc) : M PurchaseDoc :=
  let* _ := db_roundtrip in
  fun w => match stored (_id (fields d)) (purchases w) with
           | Some _ =>
               Ok d (mkWorld (overwrite (fields d) (purchases w))
                             (users w) (courses w) (tick w) (commands w))
           | None => Throw "DocumentNotFoundError" w
           end.

Definition enroll_course (cid : string) (u : User) : User :=
  mkUser (addToSet cid (enrolledCourses u)).

Definition enroll_student (uid : string) (c : Course) : Course :=
  mkCourse (addToSet uid (enrolledStudents c)).

(** [User.findByIdAndUpdate(uid, { $addToSet: { enrolledCourses: cid } })];
    a user that does not exist is no error, the update matches nothing. *)
Definition User_addToSet (uid cid : string) : M unit :=
  let* _ := db_roundtrip in
  fun w => Ok tt (mkWorld (purchases w)
                          (alter (enroll_course cid) uid (users w))
                          (courses w) (tick w)
                          (commands w ++ [UserAddToSet uid cid])).

(** [Course.findByIdAndUpdate(cid, { $addToSet: { enrolledStudents: uid } })] *)
Definition Course_addToSet (cid uid : string) : M unit :=
  let* _ := db_roundtrip in
  fun w => Ok tt (mkWorld (purchases w) (users w)
                          (alter (enroll_student uid) cid (courses w))
                          (tick w)
                          (commands w ++ [CourseAddToSet cid uid])).

(** [await Promise.all([m1, m2])]: both operations run; the result is
    rejected with the first rejection. *)
Definition Promise_all2 (m1 m2 : M unit) : M unit :=
  fun w => match m1 w with
           | Ok _ w1 => m2 w1
           | Throw e w1 => Throw e (final (m2 w1))
           end.

(** ** controllers/coursePurchase.controller.js *)

(** The value [verifyPaymentWithStripe] returns: [verified], and
    [session] or [error] when present. *)
Record Verification := mkVerification {
  verified : bool;
  session : option CheckoutSession;
  error : option string
}.

Definition verifyPaymentWithStripe (i : option string) : M Verification :=
  try_catch
    (match i with
     | None => throw TypeError
     | Some pid =>
         if String.prefix "cs_" pid then
           let* s := stripe_retrieve (Some pid) in
           ret (mkVerification (String.eqb (payment_status s) "paid") (Some s) None)
         else ret (mkVerification false None None)
     end)
    (fun e => ret (mkVerification false None (Some e))).

Definition updatePurchaseToSucceeded (purchase : PurchaseDoc) : M PurchaseDoc :=
  try_catch
    (let* purchase :=
       match courseRef purchase with
       | Unpopulated => populate purchase
       | _ => ret purchase
       end in
     let purchase := on_fields (set_status succeeded) purchase in
     let* _ :=
       try_catch
         (match courseId_id purchase with
          | None => throw TypeError
          | Some cid =>
              Promise_all2
                (User_addToSet (userId (fields purchase)) cid)
                (Course_addToSet cid (userId (fields purchase)))
          end)
         (fun _ => ret tt) in
     save purchase)
    (fun e => throw e).

(** The body of the loop of [checkForStuckPayments]. *)
Definition checkStuckPayment (purchase : PurchaseDoc) : M unit :=
  try_catch
    (let* stripeCheck := verifyPaymentWithStripe (paymentId (fields purchase)) in
     if verified stripeCheck then
       let* _ := updatePurchaseToSucceeded purchase in ret tt
     else
       let* t := now in
       if createdAt (fields purchase) <? t - 30 * 60 * 1000 then
         try_catch
           (let* s := stripe_retrieve (paymentId (fields purchase)) in
            if String.eqb (payment_status s) "paid" then
              let* _ := updatePurchaseToSucceeded purchase in ret tt
            else ret tt)
           (fun _ => ret tt)
       else ret tt)
    (fun _ => ret tt).

Definition checkForStuckPayments : M nat :=
  try_catch
    (let* t := now in
     let twoMinutesAgo := t - 2 * 60 * 1000 in
     let* pendingPayments :=
       find_populate (fun p => is_pending p && (createdAt p <? twoMinutesAgo)) in
     let* _ := forEach pendingPayments checkStuckPayment in
     ret (length pendingPayments))
    (fun _ => ret 0%nat).

(** The delayed check [createCheckoutSession] schedules three minutes
    after the session was created, for the purchase with id [i]. *)
Definition followUpCheck (i : string) : M unit :=
  try_catch
    (let* purchase := findById i in
     match purchase with
     | Some purchase =>
         if is_pending (fields purchase) then
           let* stripeCheck := verifyPaymentWithStripe (paymentId (fields purchase)) in
           if verified stripeCheck then
             let* _ := updatePurchaseToSucceeded purchase in ret tt
           else ret tt
         else ret tt
     | None => ret tt
     end)
    (fun _ => ret tt).

(** What a handler sends back. *)
Inductive Body :=
| Send (text : string)
| Message (message : string)
| Received
| CourseDetail (purchased : bool)
| PurchaseMessage (message : string) (purchase : CoursePurchase).

Record Response := mkResponse {
  statusCode : Z;
  body : Body
}.

Definition specificSessionId : string :=
  "cs_test_a1yhrwDMB306hCrHfRnFp5C6OYQwe4tRTHMWQUNtEar1Lz4Ac4sSPXKLNr".

Definition specificPurchaseId : string := "682463c0b70ad39d9ac8c16b".

(** [{ paymentId: { $regex: pattern } }].  Session ids are made of
    letters, digits and underscores, so the pattern is read literally:
    the stored id contains it. *)
Definition paymentId_matches (pattern : string) (p : CoursePurchase) : bool :=
  match paymentId p with
  | Some i => includes pattern i
  | None => false
  end.

Definition paymentId_is (i : string) (p : CoursePurchase) : bool :=
  match paymentId p with
  | Some j => String.eqb j i
  | None => false
  end.

(** [.sort({ createdAt: -1 })], most recent first. *)
Fixpoint insert_recent (d : PurchaseDoc) (l : list PurchaseDoc) : list PurchaseDoc :=
  match l with
  | [] => [d]
  | x :: rest =>
      if createdAt (fields x) <=? createdAt (fields d)
      then d :: x :: rest
      else x :: insert_recent d rest
  end.

Definition sort_recent (l : list PurchaseDoc) : list PurchaseDoc :=
  foldr insert_recent [] l.

(** [CoursePurchase.find({ status: "pending" }).sort({ createdAt: -1 }).limit(5)] *)
Definition find_recent_pending : M (list PurchaseDoc) :=
  let* found := find is_pending in
  ret (take 5 (sort_recent found)).

(** The lookup of the purchase a [checkout.session.completed] event is
    about (the part of [stripeWebhook] between "Find purchase using
    session ID" and the 404 reply); [None] is the case that replies 404. *)
Definition webhook_purchase (session : CheckoutSession) : M (option PurchaseDoc) :=
  let* purchase := findOne (paymentId_is (session_id session)) in
  match purchase with
  | Some purchase => ret (Some purchase)
  | None =>
      let* purchase :=
        findOne (paymentId_matches (substring 0 20 (session_id session))) in
      let* purchase :=
        match purchase with
        | Some purchase => ret (Some purchase)
        | None =>
            match metadata session with
            | Some md =>
                match md_courseId md, md_userId md with
                | Some c, Some u =>
                    if truthy (Some c) && truthy (Some u) then
                      let* purchase :=
                        findOne (fun p => String.eqb (courseId p) c
                                          && String.eqb (userId p) u
                                          && is_pending p) in
                      match purchase with
                      | Some purchase =>
                          ret (Some (on_fields (set_paymentId (session_id session)) purchase))
                      | None =>
                          let* recentPurchases := find_recent_pending in
                          match recentPurchases with
                          | purchase :: _ =>
                              ret (Some (on_fields (set_paymentId (session_id session)) purchase))
                          | [] => ret None
                          end
                      end
                    else ret None
                | _, _ => ret None
                end
            | None => ret None
            end
        end in
      match purchase with
      | Some purchase => ret (Some purchase)
      | None =>
          if String.eqb (session_id session) specificSessionId
             || includes (session_id session) specificSessionId
          then
            try_catch
              (let* specificPurchase := findById specificPurchaseId in
               match specificPurchase with
               | Some specificPurchase =>
                   if is_pending (fields specificPurchase)
                   then ret (Some specificPurchase)
                   else ret None
               | None => ret None
               end)
              (fun _ => ret None)
          else ret None
      end
  end.

(** [purchase.amount = session.amount_total / 100], as an exact rational. *)
Definition amount_of_total (total : Z) : Q := Qred (inject_Z total / 100).

Definition stripeWebhook (sig : option string) (raw : string) : M Response :=
  match WEBHOOK_ENDPOINT_SECRET env with
  | Some secret =>
      if truthy (Some secret) then
        match constructEvent env raw sig secret with
        | Rejected e => ret (mkResponse 400 (Send ("Webhook Error: " +:+ e)))
        | Resolved event =>
            if String.eqb (event_type event) "checkout.session.completed" then
              try_catch
                (let session := data_object event in
                 let* purchase := webhook_purchase session in
                 match purchase with
                 | None => ret (mkResponse 404 (Message "Purchase not found"))
                 | Some purchase =>
                     let purchase :=
                       on_fields (set_amount (amount_of_total (amount_total session)))
                                 purchase in
                     let* _ := updatePurchaseToSucceeded purchase in
                     ret (mkResponse 200 Received)
                 end)
                (fun _ => ret (mkResponse 500
                   (Message "Internal Server Error during webhook processing")))
            else ret (mkResponse 200 Received)
        end
      else ret (mkResponse 500 (Send "Webhook Secret missing"))
  | None => ret (mkResponse 500 (Send "Webhook Secret missing"))
  end.

(** [Course.findById(i)] *)
Definition Course_findById (i : string) : M (option Course) :=
  let* _ := db_roundtrip in
  fun w => Ok (courses w !! i) w.

(** [getCourseDetailWithPurchaseStatus]; [None] when the handler ends
    without sending a response (its [catch] only logs). *)
Definition getCourseDetailWithPurchaseStatus (cid uid : string) : M (option Response) :=
  try_catch
    (let* course := Course_findById cid in
     let* purchased :=
       findOne (fun p => String.eqb (userId p) uid && String.eqb (courseId p) cid) in
     match course with
     | None => ret (Some (mkResponse 404 (Message "course not found!")))
     | Some _ =>
         ret (Some (mkResponse 200
                (CourseDetail (match purchased with Some _ => true | None => false end))))
     end)
    (fun _ => ret None).

(** ** routes/purchaseCourse.route.js *)

(** The handler of [GET /fix-payment/:purchaseId]. *)
Definition fix_payment_route (purchaseId : string) : M Response :=
  try_catch
    (if bool_decide (NODE_ENV env = Some "production") then
       ret (mkResponse 403 (Message "Not available in production"))
     else
       let* purchase := findById purchaseId in
       match purchase with
       | None => ret (mkResponse 404 (Message "Purchase not found"))
       | Some purchase =>
           if is_pending (fields purchase) then
             let purchase := on_fields (set_status succeeded) purchase in
             let* _ := save purchase in
             ret (mkResponse 200
                    (PurchaseMessage "Purchase updated successfully" (fields purchase)))
           else
             ret (mkResponse 400
                    (PurchaseMessage
                       ("Purchase is already in "
                        +:+ status_name (status (fields purchase)) +:+ " status")
                       (fields purchase)))
       end)
    (fun _ => ret (mkResponse 500 (Message "Server error"))).

(** ** scripts/adminTools.js *)

(** [payment.paymentId && payment.paymentId.startsWith('cs_')] *)
Definition is_checkout_session_id (i : option string) : bool :=
  match i with
  | Some pid => truthy (Some pid) && String.prefix "cs_" pid
  | None => false
  end.

Definition fixPayment (payment : PurchaseDoc) (force : bool) : M bool :=
  if negb (is_pending (fields payment)) then ret false
  else
    let* stripeVerified :=
      if truthy (STRIPE_SECRET_KEY env)
         && is_checkout_session_id (paymentId (fields payment))
      then
        try_catch
          (let* s := stripe_retrieve (paymentId (fields payment)) in
           ret (String.eqb (payment_status s) "paid"))
          (fun _ => ret false)
      else ret false in
    if force || stripeVerified then
      let payment := on_fields (set_status succeeded) payment in
      let* _ := save payment in
      try_catch
        (match courseId_id payment with
         | None => throw TypeError
         | Some cid =>
             let* _ := User_addToSet (userId (fields payment)) cid in
             let* _ := Course_addToSet cid (userId (fields payment)) in
             ret true
         end)
        (fun _ => ret false)
    else ret false.

(** ** fixStuckPayment.js *)

Inductive Tally := Fixed | StillPending | Errored.

(** The body of the loop of [fixAllStuckPayments], returning the counter
    it increments. *)
Definition fixStuckPayment (purchase : PurchaseDoc) : M Tally :=
  try_catch
    (let* t := now in
     let isOld := t - createdAt (fields purchase) >? 60 * 60 * 1000 in
     let* stripeVerified :=
       if is_checkout_session_id (paymentId (fields purchase)) then
         try_catch
           (let* s := stripe_retrieve (paymentId (fields purchase)) in
            ret (String.eqb (payment_status s) "paid"))
           (fun _ => ret false)
       else ret false in
     if stripeVerified || isOld then
       let purchase := on_fields (set_status succeeded) purchase in
       let* _ := save purchase in
       let* _ :=
         try_catch
           (match courseId_id purchase with
            | None => throw TypeError
            | Some cid => User_addToSet (userId (fields purchase)) cid
            end)
           (fun _ => ret tt) in
       let* _ :=
         try_catch
           (match courseId_id purchase with
            | None => throw TypeError
            | Some cid => Course_addToSet cid (userId (fields purchase))
            end)
           (fun _ => ret tt) in
       ret Fixed
     else ret StillPending)
    (fun _ => ret Errored).

(** The counters [fixedCount], [stillPendingCount] and [errorCount]. *)
Record Summary := mkSummary {
  fixedCount : nat;
  stillPendingCount : nat;
  errorCount : nat
}.

Definition count (t : Tally) (s : Summary) : Summary :=
  match t with
  | Fixed => mkSummary (S (fixedCount s)) (stillPendingCount s) (errorCount s)
  | StillPending => mkSummary (fixedCount s) (S (stillPendingCount s)) (errorCount s)
  | Errored => mkSummary (fixedCount s) (stillPendingCount s) (S (errorCount s))
  end.

Fixpoint fixEach (l : list PurchaseDoc) (s : Summary) : M Summary :=
  match l with
  | [] => ret s
  | purchase :: rest =>
      let* t := fixStuckPayment purchase in
      fixEach rest (count t s)
  end.

(** [fixAllStuckPayments]; [None] when the script exits before its
    summary (nothing pending, or an error outside the loop). *)
Definition fixAllStuckPayments : M (option Summary) :=
  try_catch
    (let* _ := db_roundtrip in
     let* pendingPayments := find_populate is_pending in
     match pendingPayments with
     | [] => ret None
     | _ =>
         let* s := fixEach pendingPayments (mkSummary 0 0 0) in
         ret (Some s)
     end)
    (fun _ => ret None).

End Operations.


(** * The rest of the purchase controller and of the administrator's tool *)

Section MoreOperations.

Context (env : Env).

(** ** getPendingPurchases *)

(** The object [purchase] after [updatePurchaseToSucceeded(purchase)] was
    called in the world [w]: the function assigns [status] as soon as
    the [courseId] path is populated, before any update is sent, and the
    caller still holds the object when the call has thrown. *)
Definition purchase_after_update (purchase : PurchaseDoc) (w : World) : PurchaseDoc :=
  match courseRef purchase with
  | Unpopulated =>
      if db_up env (tick w)
      then on_fields (set_status succeeded) (populated_in (courses w) (fields purchase))
      else purchase
  | _ => on_fields (set_status succeeded) purchase
  end.

(** The callback [getPendingPurchases] maps over the pending purchases:
    [None] is its [null], for a purchase that was stored as succeeded.
    Its [catch] returns the purchase object as the failed call left it. *)
Definition pendingCheck (purchase : PurchaseDoc) : M (option PurchaseDoc) :=
  try_catch
    (let* stripeCheck := verifyPaymentWithStripe env (paymentId (fields purchase)) in
     if verified stripeCheck then
       fun w => match updatePurchaseToSucceeded env purchase w with
                | Ok _ w' => Ok None w'
                | Throw _ w' => Ok (Some (purchase_after_update purchase w)) w'
                end
     else ret (Some purchase))
    (fun _ => ret (Some purchase)).

(** [await Promise.all(l.map(f))], the callbacks taken one after the
    other (each works on a purchase of its own). *)
Fixpoint mapM {A B} (f : A -> M B) (l : list A) : M (list B) :=
  match l with
  | [] => ret []
  | x :: rest =>
      let* y := f x in
      let* ys := mapM f rest in
      ret (y :: ys)
  end.

Inductive PendingResponse :=
| PendingPurchases (pendingPurchases : list PurchaseDoc)
| PendingFailed (message : string) (error : string).

(** The query of [getPendingPurchases]: the user's pending purchases of
    the last 24 hours before [t]. *)
Definition recent_pending_of (uid : string) (t : Z) (p : CoursePurchase) : bool :=
  String.eqb (userId p) uid && is_pending p
  && (t - 24 * 60 * 60 * 1000 <? createdAt p).

Definition getPendingPurchases (uid : string) : M (Z * PendingResponse) :=
  try_catch
    (let* t := now env in
     let* pendingPurchases := find_populate env (recent_pending_of uid t) in
     let* pendingChecks := mapM pendingCheck pendingPurchases in
     let validPendingPurchases := omap (fun p => p) pendingChecks in
     ret (200, PendingPurchases validPendingPurchases))
    (fun e => ret (500, PendingFailed "Failed to fetch pending purchases" e)).

(** ** scripts/adminTools.js: the [fix-payments] command *)

(** How the command ends: [process.exit(n)], the end of the action for
    one payment, or the summary line of [--all]. *)
Inductive FixPaymentsEnd :=
| Exit (code : Z)
| OneProcessed
| AllProcessed (fixed total errors : nat)
| Failed.

(** The loop over the pending payments, with its two counters. *)
Fixpoint fixPayments_loop (force : bool) (l : list PurchaseDoc) (fixed errors : nat)
    : M (nat * nat) :=
  match l with
  | [] => ret (fixed, errors)
  | payment :: rest =>
      let* counters :=
        try_catch
          (let* success := fixPayment env payment force in
           ret (if success then (S fixed, errors) else (fixed, errors)))
          (fun _ => ret (fixed, S errors)) in
      fixPayments_loop force rest (fst counters) (snd counters)
  end.

(** The branch [--all]: every pending payment, created before [hoursAgo]
    unless [--force] is given. *)
Definition fix_all_pending (force : bool) (hoursAgo : Z) : M FixPaymentsEnd :=
  let* pendingPayments :=
    find_populate env
      (fun p => is_pending p && (force || (createdAt p <? hoursAgo))) in
  match pendingPayments with
  | [] => ret (Exit 0)
  | _ =>
      let* counters := fixPayments_loop force pendingPayments 0 0 in
      ret (AllProcessed (fst counters) (length pendingPayments) (snd counters))
  end.

(** The action of [fix-payments] with the options [--id], [--all] and
    [--force]; [hoursAgo] is the date the action computes from [--hours]
    (the current date moved back by that many hours with [setHours]). *)
Definition fix_payments (id : option string) (all force : bool) (hoursAgo : Z)
    : M FixPaymentsEnd :=
  if negb (truthy id) && negb all then ret (Exit 1)
  else
    let* connected := try_catch (let* _ := db_roundtrip env in ret true)
                                (fun _ => ret false) in
    if negb connected then ret (Exit 1)
    else
      try_catch
        (match id with
         | Some i =>
             if truthy id then
               let* payment := findById env i in
               match payment with
               | None => ret (Exit 1)
               | Some payment =>
                   let* _ := fixPayment env payment force in ret OneProcessed
               end
             else fix_all_pending force hoursAgo
         | None => fix_all_pending force hoursAgo
         end)
        (fun _ => ret Failed).

End MoreOperations.

(** * Checkout *)

(** What [stripe.checkout.sessions.create] returns, as far as the
    handler reads it. *)
Record NewSession := mkNewSession {
  new_id : string;
  url : string
}.

(** What [createCheckoutSession] reads beyond [Env]: the price of a
    course (a field of the course document no code here writes), the
    provider's answer to [sessions.create] at a logical time for a
    course and a user, and the [_id] and the creation date a purchase
    document made at a logical time is given. *)
Record Checkout := mkCheckout {
  coursePrice : string -> Q;
  sessions_create : nat -> string -> string -> Outcome NewSession;
  ObjectId : nat -> string;
  timestamp : nat -> Z
}.

Inductive CheckoutBody :=
| CheckoutUrl (session_url : string)
| CheckoutMessage (message : string).

Section CheckoutOperations.

Context (env : Env) (co : Checkout).

(** [await stripe.checkout.sessions.create({...})] *)
Definition stripe_create (cid uid : string) : M NewSession :=
  fun w => match sessions_create co (tick w) cid uid with
           | Resolved s => Ok s (advance w)
           | Rejected e => Throw e (advance w)
           end.

(** [await newPurchase.save()] on a document made with [new]: the record
    is added to the collection; an [_id] already in use is refused. *)
Definition insert (p : CoursePurchase) : M PurchaseDoc :=
  let* _ := db_roundtrip env in
  fun w => match stored (_id p) (purchases w) with
           | Some _ => Throw "E11000 duplicate key error" w
           | None =>
               Ok (loaded p) (mkWorld (purchases w ++ [p])%list
                                      (users w) (courses w) (tick w) (commands w))
           end.

(** [createCheckoutSession] for the authenticated user [uid] and the
    [courseId] of the request body.  Beside the response, the result
    names the purchase for which the delayed follow-up check has been
    scheduled with [setTimeout], if any. *)
Definition createCheckoutSession (uid cid : string)
    : M (Z * CheckoutBody * option string) :=
  try_catch
    (let* course := Course_findById env cid in
     match course with
     | None => ret (404, CheckoutMessage "Course not found!", None)
     | Some _ =>
         fun w =>
           (let newPurchase :=
              mkPurchase (ObjectId co (tick w)) cid uid (coursePrice co cid)
                         pending None (timestamp co (tick w)) in
            let* session := stripe_create cid uid in
            let newPurchase := set_paymentId (new_id session) newPurchase in
            let* _ := insert newPurchase in
            ret (200, CheckoutUrl (url session), Some (_id newPurchase))) w
     end)
    (fun _ => ret (500, CheckoutMessage "Payment initialization failed", None)).

End CheckoutOperations.

(** * middleware/isAuthenticated.js *)

(** Of a request the middleware reads [req.cookies?.token] and
    [req.headers.authorization]. *)
Record Request := mkRequest {
  cookie_token : option string;
  authorization : option string
}.

(** What [jwt.verify] returns on success: the decoded payload, of which
    only [userId] is read. *)
Record Payload := mkPayload { payload_userId : option string }.

(** The middleware either calls [next()] with [req.id] set, or answers. *)
Inductive AuthResult :=
| Next (req_id : option string)
| Denied (code : Z) (message : string).

(** [s.split(' ')] *)
Fixpoint split_spaces (s : string) : list string :=
  match s with
  | EmptyString => [EmptyString]
  | String c rest =>
      if Ascii.eqb c " "%char then EmptyString :: split_spaces rest
      else match split_spaces rest with
           | x :: l => String c x :: l
           | [] => [String c EmptyString]
           end
  end.

(** The token the middleware goes on with: the cookie's, and when there
    is none the second field of a [Bearer ] authorization header. *)
Definition token_of (req : Request) : option string :=
  let token := cookie_token req in
  if negb (truthy token) then
    match authorization req with
    | Some authHeader =>
        if truthy (Some authHeader) && String.prefix "Bearer " authHeader
        then split_spaces authHeader !! 1%nat
        else token
    | None => token
    end
  else token.

(** [isAuthenticated]; [jwt_verify token] stands for
    [jwt.verify(token, process.env.SECRET_KEY)], which returns the
    payload or throws. *)
Definition isAuthenticated (jwt_verify : string -> Outcome (option Payload))
    (req : Request) : AuthResult :=
  let token := token_of req in
  match token with
  | Some t =>
      if negb (truthy token) then Denied 401 "You are not authenticated"
      else
        match jwt_verify t with
        | Resolved (Some decode) => Next (payload_userId decode)
        | Resolved None => Denied 401 "Invalid token"
        | Rejected _ => Denied 401 "Authentication failed"
        end
  | None => Denied 401 "You are not authenticated"
  end.

(** * Sales of an instructor *)

(** A purchase found by [getInstructorSalesData] after
    [populate("courseId userId")]: each of the two paths holds the
    referenced document, or [null] when there is none. *)
Record SaleDoc := mkSale {
  sale : CoursePurchase;
  sale_course : bool;
  sale_user : bool
}.

Record Purchaser := mkPurchaser {
  purchaser_userId : string;
  purchaseDate : Z
}.

(** An entry of [salesByProduct].  The revenue, a floating-point sum,
    and the titles, names and addresses copied from the course and the
    user are left out. *)
Record ProductSales := mkProductSales {
  product_courseId : string;
  salesCount : nat;
  purchasers : list Purchaser
}.

Inductive SalesBody :=
| SalesData (sales : list ProductSales) (totalSales : nat)
| SalesFailed (message error : string).

(** [salesByProduct] is an object used as a map; [Object.values] lists
    its entries in the order in which their keys were added.  The keys
    are object ids in hexadecimal form, never the name of a property
    that every object inherits. *)
Definition has_key (cid : string) (l : list ProductSales) : bool :=
  existsb (fun g => String.eqb (product_courseId g) cid) l.

Definition update_key (cid : string) (f : ProductSales -> ProductSales)
    (l : list ProductSales) : list ProductSales :=
  map (fun g => if String.eqb (product_courseId g) cid then f g else g) l.

(** The body of [salesData.forEach]. *)
Definition group_sale (salesByProduct : list ProductSales) (s : SaleDoc)
    : list ProductSales :=
  let courseId := if sale_course s then Some (courseId (sale s)) else None in
  match courseId with
  | Some cid =>
      if truthy courseId then
        let salesByProduct :=
          if negb (has_key cid salesByProduct)
          then (salesByProduct ++ [mkProductSales cid 0 []])%list
          else salesByProduct in
        let salesByProduct :=
          update_key cid
            (fun g => mkProductSales (product_courseId g) (salesCount g + 1)
                                     (purchasers g))
            salesByProduct in
        if sale_user s then
          update_key cid
            (fun g => mkProductSales (product_courseId g) (salesCount g)
                        (purchasers g
                         ++ [mkPurchaser (userId (sale s)) (createdAt (sale s))])%list)
            salesByProduct
        else salesByProduct
      else salesByProduct
  | None => salesByProduct
  end.

(** What [populate("courseId userId")] makes of a purchase found. *)
Definition populated_sale (w : World) (p : CoursePurchase) : SaleDoc :=
  mkSale p (bool_decide (is_Some (courses w !! courseId p)))
           (bool_decide (is_Some (users w !! userId p))).

Section Sales.

(** [creator] gives the [creator] field of a course document, which no
    code here writes. *)
Context (env : Env) (creator : string -> string).

(** [Course.find({ creator: instructorId })], as the ids of the courses
    found. *)
Definition Course_find_creator (instructorId : string) : M (list string) :=
  let* _ := db_roundtrip env in
  fun w => Ok (filter (fun cid => creator cid = instructorId)
                      (map fst (map_to_list (courses w)))) w.

(** [CoursePurchase.find({ courseId: { $in: courseIds }, status: "succeeded" })
      .populate("courseId userId")] *)
Definition find_sales (courseIds : list string) : M (list SaleDoc) :=
  let* _ := db_roundtrip env in
  fun w => Ok (map (populated_sale w)
                   (filter (fun p => bool_decide (courseId p ∈ courseIds)
                                     && bool_decide (status p = succeeded) = true)
                           (purchases w))) w.

Definition getInstructorSalesData (instructorId : string) : M (Z * SalesBody) :=
  try_catch
    (let* instructorCourses := Course_find_creator instructorId in
     match instructorCourses with
     | [] => ret (200, SalesData [] 0)
     | _ =>
         let courseIds := instructorCourses in
         let* salesData := find_sales courseIds in
         let totalSales := length salesData in
         let salesByProduct := fold_left group_sale salesData [] in
         ret (200, SalesData salesByProduct totalSales)
     end)
    (fun e => ret (500, SalesFailed "Failed to fetch sales data" e)).

End Sales.

(** * Ids that are not object ids

    Mongoose casts the value given for an [ObjectId] path to an object
    id before it sends a query, and rejects the query with a
    [CastError], without any request to the database, when the value
    cannot be cast.  The queries above are the queries on ids that can
    be cast, as the ids of stored documents and the id in the signed
    token are.  Where a property depends on what becomes of an id that
    arrives with the request (the [courseId] of a URL or of a request
    body, the metadata of a provider event), the handler is given here
    with the cast.  [castable] tells which strings Mongoose casts to an
    object id; strings of 24 hexadecimal digits are among them in every
    version. *)

Definition CastError : string := "CastError: Cast to ObjectId failed".

Definition is_hex_digit (c : ascii) : bool :=
  existsb (Ascii.eqb c) (list_ascii_of_string "0123456789abcdefABCDEF").

(** A string of 24 hexadecimal digits. *)
Definition isObjectId (s : string) : bool :=
  Nat.eqb (String.length s) 24 && forallb is_hex_digit (list_ascii_of_string s).

Module Cast.

Section Cast.

Context (env : Env) (castable : string -> bool).

(** [Course.findById(i)] *)
Definition Course_findById (i : string) : M (option Course) :=
  if castable i then Course_findById env i else throw CastError.

(** [CoursePurchase.findOne({ courseId: c, userId: u, status: "pending" })] *)
Definition findOne_pending_of (c u : string) : M (option PurchaseDoc) :=
  if castable c && castable u then
    findOne env (fun p => String.eqb (courseId p) c
                          && String.eqb (userId p) u
                          && is_pending p)
  else throw CastError.

(** [getCourseDetailWithPurchaseStatus] for the [courseId] of the URL
    and the user id of the signed token; [None] when the handler ends
    without sending a response (its [catch] only logs). *)
Definition getCourseDetailWithPurchaseStatus (cid uid : string) : M (option Response) :=
  try_catch
    (let* course := Course_findById cid in
     let* purchased :=
       findOne env (fun p => String.eqb (userId p) uid && String.eqb (courseId p) cid) in
     match course with
     | None => ret (Some (mkResponse 404 (Message "course not found!")))
     | Some _ =>
         ret (Some (mkResponse 200
                (CourseDetail (match purchased with Some _ => true | None => false end))))
     end)
    (fun _ => ret None).

(** [createCheckoutSession] for the user id of the signed token and the
    [courseId] of the request body.  Beside the response, the result
    names the purchase for which the delayed follow-up check has been
    scheduled with [setTimeout], if any. *)
Definition createCheckoutSession (co : Checkout) (uid cid : string)
    : M (Z * CheckoutBody * option string) :=
  try_catch
    (let* course := Course_findById cid in
     match course with
     | None => ret (404, CheckoutMessage "Course not found!", None)
     | Some _ =>
         fun w =>
           (let newPurchase :=
              mkPurchase (ObjectId co (tick w)) cid uid (coursePrice co cid)
                         pending None (timestamp co (tick w)) in
            let* session := stripe_create co cid uid in
            let newPurchase := set_paymentId (new_id session) newPurchase in
            let* _ := insert env newPurchase in
            ret (200, CheckoutUrl (url session), Some (_id newPurchase))) w
     end)
    (fun _ => ret (500, CheckoutMessage "Payment initialization failed", None)).

(** The lookup of the purchase a [checkout.session.completed] event is
    about (the part of [stripeWebhook] between "Find purchase using
    session ID" and the 404 reply); [None] is the case that replies 404. *)
Definition webhook_purchase (session : CheckoutSession) : M (option PurchaseDoc) :=
  let* purchase := findOne env (paymentId_is (session_id session)) in
  match purchase with
  | Some purchase => ret (Some purchase)
  | None =>
      let* purchase :=
        findOne env (paymentId_matches (substring 0 20 (session_id session))) in
      let* purchase :=
        match purchase with
        | Some purchase => ret (Some purchase)
        | None =>
            match metadata session with
            | Some md =>
                match md_courseId md, md_userId md with
                | Some c, Some u =>
                    if truthy (Some c) && truthy (Some u) then
                      let* purchase := findOne_pending_of c u in
                      match purchase with
                      | Some purchase =>
                          ret (Some (on_fields (set_paymentId (session_id session)) purchase))
                      | None =>
                          let* recentPurchases := find_recent_pending env in
                          match recentPurchases with
                          | purchase :: _ =>
                              ret (Some (on_fields (set_paymentId (session_id session)) purchase))
                          | [] => ret None
                          end
                      end
                    else ret None
                | _, _ => ret None
                end
            | None => ret None
            end
        end in
      match purchase with
      | Some purchase => ret (Some purchase)
      | None =>
          if String.eqb (session_id session) specificSessionId
             || includes (session_id session) specificSessionId
          then
            try_catch
              (let* specificPurchase := findById env specificPurchaseId in
               match specificPurchase with
               | Some specificPurchase =>
                   if is_pending (fields specificPurchase)
                   then ret (Some specificPurchase)
                   else ret None
               | None => ret None
               end)
              (fun _ => ret None)
          else ret None
      end
  end.

Definition stripeWebhook (sig : option string) (raw : string) : M Response :=
  match WEBHOOK_ENDPOINT_SECRET env with
  | Some secret =>
      if truthy (Some secret) then
        match constructEvent env raw sig secret with
        | Rejected e => ret (mkResponse 400 (Send ("Webhook Error: " +:+ e)))
        | Resolved event =>
            if String.eqb (event_type event) "checkout.session.completed" then
              try_catch
                (let session := data_object event in
                 let* purchase := webhook_purchase session in
                 match purchase with
                 | None => ret (mkResponse 404 (Message "Purchase not found"))
                 | Some purchase =>
                     let purchase :=
                       on_fields (set_amount (amount_of_total (amount_total session)))
                                 purchase in
                     let* _ := updatePurchaseToSucceeded env purchase in
                     ret (mkResponse 200 Received)
                 end)
                (fun _ => ret (mkResponse 500
                   (Message "Internal Server Error during webhook processing")))
            else ret (mkResponse 200 Received)
        end
      else ret (mkResponse 500 (Send "Webhook Secret missing"))
  | None => ret (mkResponse 500 (Send "Webhook Secret missing"))
  end.

End Cast.

End Cast.
(** * Reasoning about operations *)

(** A triple for computations that may throw: from a world satisfying
    [P], a normal end satisfies [Q] and an exceptional end satisfies [E]. *)
Definition hoare {A} (P : World -> Prop) (m : M A)
    (Q : A -> World -> Prop) (E : string -> World -> Prop) : Prop :=
  forall w, P w ->
    match m w with
    | Ok a w' => Q a w'
    | Throw e w' => E e w'
    end.

(** [m] keeps the invariant [J] however it ends. *)
Definition keeps {A} (J : World -> Prop) (m : M A) : Prop :=
  hoare J m (fun _ => J) (fun _ => J).

(** A property of the world that looks at the stored purchases only. *)
Definition on_purchases (I : list CoursePurchase -> Prop) : World -> Prop :=
  fun w => I (purchases w).

(** Object ids identify the stored purchases. *)
Definition unique_ids (ps : list CoursePurchase) : Prop := NoDup (map _id ps).

(** The provider never reports the session [i] as paid: every query
    fails or returns another payment status. *)
Definition never_paid (env : Env) (i : option string) : Prop :=
  forall t s, sessions_retrieve env t i = Resolved s ->
              String.eqb (payment_status s) "paid" = false.

(** Every query about the session [i] fails. *)
Definition always_fails (env : Env) (i : option string) : Prop :=
  forall t, exists e, sessions_retrieve env t i = Rejected e.

(** The database answers every request. *)
Definition db_always_up (env : Env) : Prop := forall t, db_up env t = true.

(** The world after both enrollment updates have been applied. *)
Definition enrolled (uid cid : string) (w : World) : World :=
  mkWorld (purchases w)
          (alter (enroll_course cid) uid (users w))
          (alter (enroll_student uid) cid (courses w))
          (S (S (tick w)))
          (commands w ++ [UserAddToSet uid cid; CourseAddToSet cid uid]).

(** How often a reference occurs in an enrollment array. *)
Definition occurrences (x : string) (l : list string) : nat :=
  length (filter (fun y => y = x) l).

(** The purchase [p] is reflected in both enrollment arrays. *)
Definition enrolled_both_ways (w : World) (p : CoursePurchase) : Prop :=
  (exists u, users w !! userId p = Some u /\ courseId p ∈ enrolledCourses u) /\
  (exists c, courses w !! courseId p = Some c /\ userId p ∈ enrolledStudents c).

(** Every purchase stored as [succeeded] is reflected in both arrays. *)
Definition succeeded_are_enrolled (w : World) : Prop :=
  forall p, p ∈ purchases w -> status p = succeeded -> enrolled_both_ways w p.

(** The store holds the purchases [ps]. *)
Definition holds (ps : list CoursePurchase) : World -> Prop :=
  fun w => purchases w = ps.

(** The document, if there is one, has the id of one of the purchases [ps]. *)
Definition from_store (ps : list CoursePurchase) (r : option PurchaseDoc) : Prop :=
  forall d, r = Some d -> exists p, p ∈ ps /\ _id (fields d) = _id p.

(** ** Invariants of the whole world *)

(** The world after [save] has written the fields [p]. *)
Definition saved (p : CoursePurchase) (w : World) : World :=
  mkWorld (overwrite p (purchases w)) (users w) (courses w) (tick w) (commands w).

(** The world after the update of a user's [enrolledCourses]. *)
Definition user_enrolled (uid cid : string) (w : World) : World :=
  mkWorld (purchases w) (alter (enroll_course cid) uid (users w)) (courses w)
          (tick w) (commands w ++ [UserAddToSet uid cid]).

(** The world after the update of a course's [enrolledStudents]. *)
Definition course_enrolled (cid uid : string) (w : World) : World :=
  mkWorld (purchases w) (users w) (alter (enroll_student uid) cid (courses w))
          (tick w) (commands w ++ [CourseAddToSet cid uid]).

(** A property of the world that survives the passing of time, any
    [save] of a purchase that is stored, and both enrollment updates:
    the four ways in which the operations change the world. *)
Record closed (J : World -> Prop) : Prop := mkClosed {
  closed_advance : forall w, J w -> J (advance w);
  closed_save : forall p w,
    is_Some (stored (_id p) (purchases w)) -> J w -> J (saved p w);
  closed_user : forall uid cid w, J w -> J (user_enrolled uid cid w);
  closed_course : forall cid uid w, J w -> J (course_enrolled cid uid w)
}.

(** The stored purchases have the ids [ids], in this order. *)
Definition has_ids (ids : list string) : World -> Prop :=
  fun w => map _id (purchases w) = ids.

(** Nothing has been taken out of the enrollment arrays of [w0], and no
    user or course has appeared or disappeared. *)
Definition enrollment_kept (w0 w : World) : Prop :=
  (forall uid, match users w0 !! uid, users w !! uid with
               | Some u0, Some u => enrolledCourses u0 ⊆ enrolledCourses u
               | None, None => True
               | _, _ => False
               end) /\
  (forall cid, match courses w0 !! cid, courses w !! cid with
               | Some c0, Some c => enrolledStudents c0 ⊆ enrolledStudents c
               | None, None => True
               | _, _ => False
               end).

(** No enrollment array lists a reference twice. *)
Definition arrays_are_sets (w : World) : Prop :=
  (forall uid u, users w !! uid = Some u -> NoDup (enrolledCourses u)) /\
  (forall cid c, courses w !! cid = Some c -> NoDup (enrolledStudents c)).

(** The payments a summary of [fixAllStuckPayments] accounts for. *)
Definition tallied (s : Summary) : nat :=
  (fixedCount s + stillPendingCount s + errorCount s)%nat.

(** No reading of the clock finds the purchase older than one hour. *)
Definition never_old (env : Env) (p : CoursePurchase) : Prop :=
  forall t, Date_now env t - createdAt p <= 3600000.


(** [x] comes before [y] in a list sorted by [createdAt], most recent
    first. *)
Definition not_older (x y : PurchaseDoc) : Prop :=
  createdAt (fields y) <= createdAt (fields x).

(** What [pendingCheck] leaves behind for the document [d]: without a
    result the purchase is stored as [succeeded]; with a result, which
    is a document of the same purchase, the stored record is as it was. *)
Definition checked (ps' : list CoursePurchase) (d : PurchaseDoc)
    (x : option PurchaseDoc) : Prop :=
  match x with
  | None => stored (_id (fields d)) ps' = Some (set_status succeeded (fields d))
  | Some d' => _id (fields d') = _id (fields d) /\
               stored (_id (fields d)) ps' = Some (fields d)
  end.

(** ** Tokens *)

Fixpoint spaceless (s : string) : bool :=
  match s with
  | EmptyString => true
  | String c rest => negb (Ascii.eqb c " "%char) && spaceless rest
  end.

(** The request presents the token [t]: as its cookie, or, without a
    cookie, as the text between the first space of a header that starts
    with [Bearer ] and the next space or the end. *)
Definition presented (req : Request) (t : string) : Prop :=
  t <> EmptyString /\
  (cookie_token req = Some t \/
   (truthy (cookie_token req) = false /\
    spaceless t = true /\
    exists rest,
      authorization req = Some ("Bearer " ++ t ++ rest) /\
      (rest = EmptyString \/ exists r, rest = String " "%char r))).

(** ** Sales *)

(** A sale of the instructor [iid]: a purchase stored as [succeeded] of
    an existing course they created. *)
Definition sale_of (creator : string -> string) (iid : string) (w : World)
    (p : CoursePurchase) : Prop :=
  status p = succeeded /\ is_Some (courses w !! courseId p) /\
  creator (courseId p) = iid.

#[global] Instance sale_of_dec creator iid w p : Decision (sale_of creator iid w p).
Proof. unfold sale_of. apply _. Defined.

Definition buyer (p : CoursePurchase) : Purchaser :=
  mkPurchaser (userId p) (createdAt p).

(** The sales the grouping loop counts: those whose [courseId] path
    holds a course with a non-empty id. *)
Definition counted (s : SaleDoc) : Prop :=
  sale_course s = true /\ courseId (sale s) <> EmptyString.

#[global] Instance counted_dec s : Decision (counted s).
Proof. unfold counted. apply _. Defined.

Definition sales_for (c : string) (xs : list SaleDoc) : list SaleDoc :=
  filter (fun s => counted s /\ courseId (sale s) = c) xs.

(** The entry [g] sums up the sales of its course among [xs]. *)
Definition group_ok (xs : list SaleDoc) (g : ProductSales) : Prop :=
  product_courseId g <> EmptyString /\
  salesCount g = length (sales_for (product_courseId g) xs) /\
  purchasers g
    = map (fun s => buyer (sale s))
          (filter (fun s => sale_user s = true) (sales_for (product_courseId g) xs)).

(** [l] is [salesByProduct] after the sales [xs]. *)
Record grouped (xs : list SaleDoc) (l : list ProductSales) : Prop := mkGrouped {
  grouped_keys : NoDup (map product_courseId l);
  grouped_ok : forall g, g ∈ l -> group_ok xs g /\ (0 < salesCount g)%nat;
  grouped_all : forall s, s ∈ xs -> counted s ->
                          courseId (sale s) ∈ map product_courseId l;
  grouped_sum : list_sum (map salesCount l) = length (filter counted xs)
}.

(** ** Object ids in the metadata of an event *)

(** The course and the user that the metadata of the session name, if
    it names both, can be cast to object ids. *)
Definition metadata_castable (castable : string -> bool) (session : CheckoutSession)
    : Prop :=
  match metadata session with
  | Some md =>
      match md_courseId md, md_userId md with
      | Some c, Some u => castable c = true /\ castable u = true
      | _, _ => True
      end
  | None => True
  end.

(** * Concrete scenarios *)

(** One user, one course and one purchase, a clock that shows a moment
    well past every age threshold, a reachable database and configured
    secrets.  The provider's answer and the event the signature check
    yields vary from scenario to scenario. *)
Module Scenario.

Definition user1 : string := "u1".
Definition course1 : string := "c1".
Definition purchase1 : string := "p1".
Definition session1 : string := "cs_test_b1Zk9Qw3Lm8Xy2Rt7Vn4".

(** A session id that shares its first twenty characters with [session1]. *)
Definition session1' : string := "cs_test_b1Zk9Qw3Lm8Xy2Rt7Vn4_full".

Definition the_purchase (s : Status) : CoursePurchase :=
  mkPurchase purchase1 course1 user1 500 s (Some session1) 0.

Definition world_with (ps : list CoursePurchase) : World :=
  mkWorld ps {[ user1 := mkUser [] ]} {[ course1 := mkCourse [] ]} 0 [].

(** The store holding the one purchase in status [s]. *)
Definition world (s : Status) : World := world_with [the_purchase s].

Definition env_with (provider : Outcome CheckoutSession) (event : Outcome Event) : Env :=
  mkEnv (fun _ => 10000000) (fun _ _ => provider) (fun _ => true)
        (fun _ _ _ => event)
        (Some "whsec_test") (Some "sk_test") (Some "development").

Definition timeout : Outcome CheckoutSession := Rejected "Request timed out".

Definition session_of (i status : string) (total : Z) : CheckoutSession :=
  mkSession i status total (Some (mkMetadata (Some course1) (Some user1))).

Definition unpaid : Outcome CheckoutSession :=
  Resolved (session_of session1 "unpaid" 50000).

Definition paid : Outcome CheckoutSession :=
  Resolved (session_of session1 "paid" 50000).

Definition no_event : Outcome Event := Rejected "No signatures found".

(** A verified [checkout.session.completed] event for session [i] with
    the provider's total [total], in the minor currency unit. *)
Definition completed (i : string) (total : Z) : Outcome Event :=
  Resolved (mkEvent "checkout.session.completed" (session_of i "paid" total)).

(** The database is unreachable at the logical times 2 and 3, and at no
    other time. *)
Definition env_outage (event : Outcome Event) : Env :=
  mkEnv (fun _ => 10000000) (fun _ _ => unpaid)
        (fun t => negb (Nat.eqb t 2) && negb (Nat.eqb t 3))
        (fun _ _ _ => event)
        (Some "whsec_test") (Some "sk_test") (Some "development").

End Scenario.

(** * Further scenarios *)

Module Scenario2.

(** The environment of [Scenario.env_with], with the clock showing [t]. *)
Definition env_at (t : Z) (provider : Outcome CheckoutSession)
    (event : Outcome Event) : Env :=
  mkEnv (fun _ => t) (fun _ _ => provider) (fun _ => true)
        (fun _ _ _ => event)
        (Some "whsec_test") (Some "sk_test") (Some "development").

(** A provider that creates the session [cs_test_c7Hq2Lp9] for every
    request, document ids and creation dates that do not vary, and a
    course price of 500. *)
Definition new_session : NewSession :=
  mkNewSession "cs_test_c7Hq2Lp9" "https://checkout.stripe.com/c/pay/cs_test_c7Hq2Lp9".

Definition checkout : Checkout :=
  mkCheckout (fun _ => 500%Q) (fun _ _ _ => Resolved new_session)
             (fun _ => "p2") (fun _ => 9000000).

End Scenario2.

(** * Scenarios with ids in hexadecimal form *)

Module Scenario3.

Definition course1 : string := "64b7f0c2a5d3e91f4c8b2a10".
Definition user1 : string := "64b7f0c2a5d3e91f4c8b2a11".
Definition purchase1 : string := "64b7f0c2a5d3e91f4c8b2a12".

(** The purchase of [course1] by [user1], in status [s]. *)
Definition the_purchase (s : Status) : CoursePurchase :=
  mkPurchase purchase1 course1 user1 500 s (Some Scenario.session1) 0.

Definition world_with (ps : list CoursePurchase) : World :=
  mkWorld ps {[ user1 := mkUser [] ]} {[ course1 := mkCourse [] ]} 0 [].

(** A verified [checkout.session.completed] event for session [i] whose
    metadata names [course1] and [user1]. *)
Definition completed (i : string) (total : Z) : Outcome Event :=
  Resolved (mkEvent "checkout.session.completed"
              (mkSession i "paid" total
                         (Some (mkMetadata (Some course1) (Some user1))))).

(** The environment of [Scenario.env_with] with a database that answers
    no request. *)
Definition env_down (event : Outcome Event) : Env :=
  mkEnv (fun _ => 10000000) (fun _ _ => Scenario.unpaid) (fun _ => false)
        (fun _ _ _ => event)
        (Some "whsec_test") (Some "sk_test") (Some "development").

End Scenario3.

(** * Rules for triples *)

Section Rules.

Context {A B : Type}.

Lemma hoare_ret (P : World -> Prop) (a : A) (Q : A -> World -> Prop) E :
  (forall w, P w -> Q a w) -> hoare P (ret a) Q E.
Proof. intros H w Hw. simpl. auto. Qed.

Lemma hoare_throw (P : World -> Prop) e (Q : A -> World -> Prop) (E : string -> World -> Prop) :
  (forall w, P w -> E e w) -> hoare P (throw e) Q E.
Proof. intros H w Hw. simpl. auto. Qed.

Lemma hoare_bind P (m : M A) (k : A -> M B) Q R E :
  hoare P m Q E -> (forall a, hoare (Q a) (k a) R E) -> hoare P (bind m k) R E.
Proof.
  intros Hm Hk w Hw. unfold bind. specialize (Hm w Hw).
  destruct (m w) as [a w'|e w']; [apply (Hk a w' Hm) | exact Hm].
Qed.

Lemma hoare_try_catch P (m : M A) h Q E' E :
  hoare P m Q E' -> (forall e, hoare (E' e) (h e) Q E) -> hoare P (try_catch m h) Q E.
Proof.
  intros Hm Hh w Hw. unfold try_catch. specialize (Hm w Hw).
  destruct (m w) as [a w'|e w']; [exact Hm | apply (Hh e w' Hm)].
Qed.

Lemma hoare_conseq (P P' : World -> Prop) (m : M A) (Q Q' : A -> World -> Prop)
    (E E' : string -> World -> Prop) :
  hoare P' m Q' E' ->
  (forall w, P w -> P' w) ->
  (forall a w, Q' a w -> Q a w) ->
  (forall e w, E' e w -> E e w) ->
  hoare P m Q E.
Proof.
  intros Hm HP HQ HE w Hw. specialize (Hm w (HP w Hw)).
  destruct (m w); auto.
Qed.

(** A fact that does not depend on the world can be taken out of the
    precondition. *)
Lemma hoare_pure (P : World -> Prop) (phi : Prop) (m : M A) Q E :
  (phi -> hoare P m Q E) -> hoare (fun w => P w /\ phi) m Q E.
Proof. intros H w [Hw Hphi]. apply (H Hphi w Hw). Qed.

Lemma keeps_bind J (m : M A) (k : A -> M B) :
  keeps J m -> (forall a, keeps J (k a)) -> keeps J (bind m k).
Proof. intros Hm Hk. eapply hoare_bind; [exact Hm | exact Hk]. Qed.

Lemma keeps_try_catch J (m : M A) h :
  keeps J m -> (forall e, keeps J (h e)) -> keeps J (try_catch m h).
Proof. intros Hm Hh. eapply hoare_try_catch; [exact Hm | exact Hh]. Qed.

Lemma keeps_ret J (a : A) : keeps J (ret a).
Proof. apply hoare_ret. auto. Qed.

Lemma keeps_throw J e : keeps J (@throw A e).
Proof. apply hoare_throw. auto. Qed.

Lemma keeps_final J (m : M A) w : keeps J m -> J w -> J (final (m w)).
Proof. intros Hm Hw. specialize (Hm w Hw). destruct (m w); exact Hm. Qed.

End Rules.

Lemma keeps_forEach {A} J (l : list A) (body : A -> M unit) :
  (forall x, x ∈ l -> keeps J (body x)) -> keeps J (forEach l body).
Proof.
  induction l as [|x l IH]; intros H; simpl.
  - apply keeps_ret.
  - apply keeps_bind.
    + apply H. left.
    + intros _. apply IH. intros y Hy. apply H. right. exact Hy.
Qed.

(** ** What each operation does to the stored purchases *)

Section Frames.

Context (env : Env) (I : list CoursePurchase -> Prop).

Lemma keeps_db_roundtrip : keeps (on_purchases I) (db_roundtrip env).
Proof.
  intros w Hw. unfold db_roundtrip.
  destruct (db_up env (tick w)); exact Hw.
Qed.

Lemma keeps_now : keeps (on_purchases I) (now env).
Proof. intros w Hw. exact Hw. Qed.

Lemma keeps_stripe_retrieve i : keeps (on_purchases I) (stripe_retrieve env i).
Proof.
  intros w Hw. unfold stripe_retrieve.
  destruct (sessions_retrieve env (tick w) i); exact Hw.
Qed.

(** A read: one round trip, then a value computed from the world. *)
Lemma keeps_read {A} (f : World -> A) :
  keeps (on_purchases I) (bind (db_roundtrip env) (fun _ w => Ok (f w) w)).
Proof.
  apply keeps_bind; [apply keeps_db_roundtrip|].
  intros _ w Hw. exact Hw.
Qed.

Lemma keeps_find q : keeps (on_purchases I) (find env q).
Proof. apply (keeps_read (fun w => map loaded (filter (fun p => q p = true) (purchases w)))). Qed.

Lemma keeps_find_populate q : keeps (on_purchases I) (find_populate env q).
Proof.
  apply (keeps_read (fun w => map (populated_in (courses w))
                                  (filter (fun p => q p = true) (purchases w)))).
Qed.

Lemma keeps_findOne q : keeps (on_purchases I) (findOne env q).
Proof.
  apply (keeps_read (fun w => loaded <$> head (filter (fun p => q p = true) (purchases w)))).
Qed.

Lemma keeps_findById i : keeps (on_purchases I) (findById env i).
Proof. apply keeps_findOne. Qed.

Lemma keeps_populate d : keeps (on_purchases I) (populate env d).
Proof. apply (keeps_read (fun w => populated_in (courses w) (fields d))). Qed.

Lemma keeps_User_addToSet uid cid : keeps (on_purchases I) (User_addToSet env uid cid).
Proof.
  apply keeps_bind; [apply keeps_db_roundtrip|].
  intros _ w Hw. exact Hw.
Qed.

Lemma keeps_Course_addToSet cid uid : keeps (on_purchases I) (Course_addToSet env cid uid).
Proof.
  apply keeps_bind; [apply keeps_db_roundtrip|].
  intros _ w Hw. exact Hw.
Qed.

Lemma keeps_Promise_all2 J (m1 m2 : M unit) :
  keeps J m1 -> keeps J m2 -> keeps J (Promise_all2 m1 m2).
Proof.
  intros H1 H2 w Hw. unfold Promise_all2. specialize (H1 w Hw).
  destruct (m1 w) as [[] w1|e w1].
  - apply (H2 w1 H1).
  - simpl. apply keeps_final; assumption.
Qed.

(** Saving keeps a property of the purchases that overwriting with the
    document's fields keeps. *)
Lemma keeps_save d :
  (forall ps, I ps -> I (overwrite (fields d) ps)) ->
  keeps (on_purchases I) (save env d).
Proof.
  intros HI. apply keeps_bind; [apply keeps_db_roundtrip|].
  intros _ w Hw.
  destruct (stored (_id (fields d)) (purchases w)); [apply HI|]; exact Hw.
Qed.

Lemma keeps_verifyPaymentWithStripe i :
  keeps (on_purchases I) (verifyPaymentWithStripe env i).
Proof.
  unfold verifyPaymentWithStripe. apply keeps_try_catch.
  - destruct i as [pid|]; [|apply keeps_throw].
    destruct (String.prefix "cs_" pid); [|apply keeps_ret].
    apply keeps_bind; [apply keeps_stripe_retrieve|]. intros s. apply keeps_ret.
  - intros e. apply keeps_ret.
Qed.

Lemma populate_fields d :
  hoare (on_purchases I) (populate env d)
        (fun d' w => on_purchases I w /\ fields d' = fields d)
        (fun _ => on_purchases I).
Proof.
  intros w Hw. unfold populate, bind, db_roundtrip.
  destruct (db_up env (tick w)); simpl; auto.
Qed.

Lemma keeps_updatePurchaseToSucceeded d :
  (forall ps, I ps -> I (overwrite (set_status succeeded (fields d)) ps)) ->
  keeps (on_purchases I) (updatePurchaseToSucceeded env d).
Proof.
  intros HI. unfold updatePurchaseToSucceeded.
  apply keeps_try_catch; [|intros e; apply keeps_throw].
  eapply hoare_bind with
    (Q := fun d' w => on_purchases I w /\ fields d' = fields d).
  - destruct (courseRef d); [apply populate_fields | |];
      apply hoare_ret; auto.
  - intros d'. apply hoare_pure. intros Hd. apply keeps_bind.
    + apply keeps_try_catch; [|intros e; apply keeps_ret].
      destruct (courseId_id _); [|apply keeps_throw].
      apply keeps_Promise_all2;
        [apply keeps_User_addToSet | apply keeps_Course_addToSet].
    + intros _. apply keeps_save. simpl. rewrite Hd. exact HI.
Qed.

End Frames.

(** ** The stored record of one purchase *)

Lemma stored_overwrite_ne i q ps :
  _id q <> i -> stored i (overwrite q ps) = stored i ps.
Proof.
  intros Hne. unfold stored, overwrite. f_equal.
  induction ps as [|x ps IH]; [reflexivity|].
  cbn [map]. destruct (String.eqb (_id x) (_id q)) eqn:Hx.
  - apply String.eqb_eq in Hx.
    rewrite !filter_cons. rewrite IH.
    destruct (decide (String.eqb (_id q) i = true)) as [Hq|Hq];
      [apply String.eqb_eq in Hq; contradiction|].
    destruct (decide (String.eqb (_id x) i = true)) as [Hxi|Hxi];
      [apply String.eqb_eq in Hxi; congruence|].
    reflexivity.
  - rewrite !filter_cons. rewrite IH. reflexivity.
Qed.

Lemma stored_elem i p ps : stored i ps = Some p -> p ∈ ps /\ _id p = i.
Proof.
  unfold stored. intros H.
  assert (Hin : p ∈ filter (fun q => String.eqb (_id q) i = true) ps).
  { destruct (filter _ ps) as [|x l]; [discriminate|].
    simpl in H. injection H as ->. left. }
  apply list_elem_of_filter in Hin as [Hid Hin].
  apply String.eqb_eq in Hid. auto.
Qed.

Lemma unique_ids_eq ps p q :
  unique_ids ps -> p ∈ ps -> q ∈ ps -> _id p = _id q -> p = q.
Proof.
  unfold unique_ids. induction ps as [|x ps IH]; intros Hnd Hp Hq Hid.
  - inversion Hp.
  - cbn [map] in Hnd. apply NoDup_cons in Hnd as [Hx Hnd].
    apply elem_of_cons in Hp as [->|Hp]; apply elem_of_cons in Hq as [->|Hq].
    + reflexivity.
    + exfalso. apply Hx. rewrite Hid. apply list_elem_of_fmap_2. exact Hq.
    + exfalso. apply Hx. rewrite <- Hid. apply list_elem_of_fmap_2. exact Hp.
    + apply IH; assumption.
Qed.

(** ** The periodic sweep leaves an unconfirmed purchase alone *)

Section Sweep.

Context (env : Env) (I : list CoursePurchase -> Prop).

Lemma verify_unpaid i :
  never_paid env i ->
  hoare (on_purchases I) (verifyPaymentWithStripe env i)
        (fun r w => on_purchases I w /\ verified r = false)
        (fun _ => on_purchases I).
Proof.
  intros Hnp w Hw. unfold verifyPaymentWithStripe, try_catch.
  destruct i as [pid|]; simpl; [|auto].
  destruct (String.prefix "cs_" pid); simpl; [|auto].
  unfold bind, stripe_retrieve.
  destruct (sessions_retrieve env (tick w) (Some pid)) as [s|e] eqn:Hs; simpl.
  - split; [exact Hw | exact (Hnp _ _ Hs)].
  - auto.
Qed.

Lemma retrieve_unpaid i :
  never_paid env i ->
  hoare (on_purchases I) (stripe_retrieve env i)
        (fun s w => on_purchases I w /\ String.eqb (payment_status s) "paid" = false)
        (fun _ => on_purchases I).
Proof.
  intros Hnp w Hw. unfold stripe_retrieve.
  destruct (sessions_retrieve env (tick w) i) as [s|e] eqn:Hs; simpl.
  - split; [exact Hw | exact (Hnp _ _ Hs)].
  - exact Hw.
Qed.

(** One turn of the loop keeps [I] when either updating this document
    keeps it, or the provider never reports this document's session paid. *)
Lemma keeps_checkStuckPayment d :
  (forall ps, I ps -> I (overwrite (set_status succeeded (fields d)) ps)) \/
  never_paid env (paymentId (fields d)) ->
  keeps (on_purchases I) (checkStuckPayment env d).
Proof.
  intros [HI|Hnp]; unfold checkStuckPayment;
    (apply keeps_try_catch; [|intros e; apply keeps_ret]).
  - apply keeps_bind; [apply keeps_verifyPaymentWithStripe|]. intros r.
    destruct (verified r).
    + apply keeps_bind; [apply keeps_updatePurchaseToSucceeded, HI|].
      intros _. apply keeps_ret.
    + apply keeps_bind; [apply keeps_now|]. intros t.
      destruct (_ <? _); [|apply keeps_ret].
      apply keeps_try_catch; [|intros e; apply keeps_ret].
      apply keeps_bind; [apply keeps_stripe_retrieve|]. intros s.
      destruct (String.eqb _ _); [|apply keeps_ret].
      apply keeps_bind; [apply keeps_updatePurchaseToSucceeded, HI|].
      intros _. apply keeps_ret.
  - eapply hoare_bind; [apply (verify_unpaid _ Hnp)|]. intros r.
    apply hoare_pure. intros ->.
    apply keeps_bind; [apply keeps_now|]. intros t.
    destruct (_ <? _); [|apply keeps_ret].
    apply keeps_try_catch; [|intros e; apply keeps_ret].
    eapply hoare_bind; [apply (retrieve_unpaid _ Hnp)|]. intros s.
    apply hoare_pure. intros ->. apply keeps_ret.
Qed.

End Sweep.

(** A pass of [checkForStuckPayments] leaves the record of a purchase as
    it is, unless the purchase is pending and the provider reports its
    session paid: whatever the clock shows, whatever happens to the
    other purchases and whether or not the database answers. *)
Lemma sweep_keeps_record env w p :
  unique_ids (purchases w) ->
  stored (_id p) (purchases w) = Some p ->
  (status p = pending -> never_paid env (paymentId p)) ->
  stored (_id p) (purchases (final (checkForStuckPayments env w))) = Some p.
Proof.
  intros Hu Hp Hnp.
  set (I := fun ps => stored (_id p) ps = Some p).
  set (I' := fun ps => I ps /\ unique_ids ps).
  assert (H : hoare (on_purchases I') (checkForStuckPayments env)
                    (fun _ => on_purchases I) (fun _ => on_purchases I)).
  { unfold checkForStuckPayments.
    eapply hoare_try_catch with (E' := fun _ => on_purchases I);
      [|intros e; apply keeps_ret].
    eapply hoare_bind with (Q := fun _ => on_purchases I');
      [intros w0 Hw0; exact Hw0|]. intros t. cbv beta.
    eapply hoare_bind with
      (Q := fun docs w => on_purchases I w /\
              forall d, d ∈ docs -> _id (fields d) = _id p ->
                        fields d = p /\ status p = pending).
    - intros w0 [Hs0 Hu0]. unfold find_populate, bind, db_roundtrip.
      destruct (db_up env (tick w0)); simpl; [|exact Hs0].
      split; [exact Hs0|]. intros d Hd Hid.
      apply list_elem_of_fmap in Hd as (q & -> & Hq).
      apply list_elem_of_filter in Hq as [Hpend Hq]. simpl in *.
      apply stored_elem in Hs0 as [Hin _].
      assert (q = p) as -> by (eapply unique_ids_eq; eassumption).
      split; [reflexivity|].
      apply andb_true_iff in Hpend as [Hpend _].
      apply bool_decide_eq_true in Hpend. exact Hpend.
    - intros docs. apply hoare_pure. intros Hdocs.
      apply keeps_bind; [|intros _; apply keeps_ret].
      apply keeps_forEach. intros d Hd. apply keeps_checkStuckPayment.
      destruct (decide (_id (fields d) = _id p)) as [Heq|Hne].
      + right. destruct (Hdocs d Hd Heq) as [-> Hst]. apply Hnp, Hst.
      + left. intros ps Hps. unfold I in *.
        rewrite stored_overwrite_ne; [exact Hps | exact Hne]. }
  specialize (H w (conj Hp Hu)).
  destruct (checkForStuckPayments env w); exact H.
Qed.

Lemma sweep_keeps_unconfirmed env w p :
  unique_ids (purchases w) ->
  stored (_id p) (purchases w) = Some p ->
  never_paid env (paymentId p) ->
  stored (_id p) (purchases (final (checkForStuckPayments env w))) = Some p.
Proof. intros Hu Hp Hnp. apply sweep_keeps_record; auto. Qed.

(** ** Operations when the database answers *)

Section Up.

Context (env : Env) (Hup : db_always_up env).

Lemma db_roundtrip_up w : db_roundtrip env w = Ok tt (advance w).
Proof. unfold db_roundtrip. rewrite Hup. reflexivity. Qed.

Lemma findOne_up q w :
  findOne env q w
    = Ok (loaded <$> head (filter (fun p => q p = true) (purchases w))) (advance w).
Proof. unfold findOne, bind. rewrite db_roundtrip_up. reflexivity. Qed.

Lemma find_up q w :
  find env q w
    = Ok (map loaded (filter (fun p => q p = true) (purchases w))) (advance w).
Proof. unfold find, bind. rewrite db_roundtrip_up. reflexivity. Qed.

Lemma populate_up d w :
  populate env d w = Ok (populated_in (courses w) (fields d)) (advance w).
Proof. unfold populate, bind. rewrite db_roundtrip_up. reflexivity. Qed.

Lemma Course_findById_up i w :
  Course_findById env i w = Ok (courses w !! i) (advance w).
Proof. unfold Course_findById, bind. rewrite db_roundtrip_up. reflexivity. Qed.

Lemma User_addToSet_up uid cid w :
  User_addToSet env uid cid w
    = Ok tt (mkWorld (purchases w) (alter (enroll_course cid) uid (users w))
                     (courses w) (S (tick w))
                     (commands w ++ [UserAddToSet uid cid])).
Proof. unfold User_addToSet, bind. rewrite db_roundtrip_up. reflexivity. Qed.

Lemma Course_addToSet_up cid uid w :
  Course_addToSet env cid uid w
    = Ok tt (mkWorld (purchases w) (users w)
                     (alter (enroll_student uid) cid (courses w)) (S (tick w))
                     (commands w ++ [CourseAddToSet cid uid])).
Proof. unfold Course_addToSet, bind. rewrite db_roundtrip_up. reflexivity. Qed.

Lemma save_up d w :
  save env d w
    = match stored (_id (fields d)) (purchases w) with
      | Some _ => Ok d (mkWorld (overwrite (fields d) (purchases w))
                                (users w) (courses w) (S (tick w)) (commands w))
      | None => Throw "DocumentNotFoundError" (advance w)
      end.
Proof. unfold save, bind. rewrite db_roundtrip_up. reflexivity. Qed.

Lemma enrollment_up uid cid w :
  Promise_all2 (User_addToSet env uid cid) (Course_addToSet env cid uid) w
    = Ok tt (enrolled uid cid w).
Proof.
  unfold Promise_all2. rewrite User_addToSet_up, Course_addToSet_up.
  unfold enrolled. simpl. rewrite <- app_assoc. reflexivity.
Qed.

(** [updatePurchaseToSucceeded] on a document whose [courseId] path is
    already populated. *)
Lemma updatePurchaseToSucceeded_up d w :
  courseRef d <> Unpopulated ->
  updatePurchaseToSucceeded env d w
    = let d' := on_fields (set_status succeeded) d in
      let w1 := match courseId_id d with
                | Some cid => enrolled (userId (fields d)) cid w
                | None => w
                end in
      save env d' w1.
Proof.
  intros Hpop. unfold updatePurchaseToSucceeded, try_catch at 1, bind at 1.
  destruct (courseRef d) eqn:Href; [contradiction| |];
    unfold ret, bind, try_catch, courseId_id; simpl; rewrite Href.
  - rewrite enrollment_up. destruct (save env _ _); reflexivity.
  - unfold throw. destruct (save env _ _); reflexivity.
Qed.

(** ... and on a document that holds the bare reference. *)
Lemma updatePurchaseToSucceeded_up_bare d w :
  courseRef d = Unpopulated ->
  updatePurchaseToSucceeded env d w
    = updatePurchaseToSucceeded env (populated_in (courses w) (fields d)) (advance w).
Proof.
  intros Href. unfold updatePurchaseToSucceeded, try_catch at 1 3, bind at 1 4.
  rewrite Href, populate_up.
  unfold populated_in at 5.
  destruct (bool_decide _); reflexivity.
Qed.

End Up.

(** * The claims *)

Lemma always_fails_never_paid env i : always_fails env i -> never_paid env i.
Proof.
  intros Hf t s Hs. destruct (Hf t) as [e He]. congruence.
Qed.

(** C1.  When every provider query for a purchase's payment-session id
    fails, [verifyPaymentWithStripe] returns a result that is not
    verified and carries no session, and, whenever the function did
    query the provider (the id starts with [cs_]), carries the
    provider's error message; a query that succeeds and reports the
    session unpaid returns a result that carries the session and no
    error, so a caller can tell the two apart.  A pass of
    [checkForStuckPayments] leaves the stored record of such a purchase
    exactly as it was, status [pending] included: nothing marks it as
    checked. *)
Theorem provider_failure_is_reported_apart env w p :
  unique_ids (purchases w) ->
  stored (_id p) (purchases w) = Some p ->
  status p = pending ->
  always_fails env (paymentId p) ->
  (exists r w1,
     verifyPaymentWithStripe env (paymentId p) w = Ok r w1 /\
     verified r = false /\ session r = None /\
     (forall pid, paymentId p = Some pid -> String.prefix "cs_" pid = true ->
        exists e, sessions_retrieve env (tick w) (paymentId p) = Rejected e /\
                  error r = Some e)) /\
  (forall env' w' pid s,
     paymentId p = Some pid -> String.prefix "cs_" pid = true ->
     sessions_retrieve env' (tick w') (paymentId p) = Resolved s ->
     String.eqb (payment_status s) "paid" = false ->
     verifyPaymentWithStripe env' (paymentId p) w'
       = Ok (mkVerification false (Some s) None) (advance w')) /\
  (let w' := final (checkForStuckPayments env w) in
   stored (_id p) (purchases w') = Some p /\
   status <$> stored (_id p) (purchases w') = Some pending).
Proof.
  intros Hu Hp Hst Hf. repeat split.
  - unfold verifyPaymentWithStripe, try_catch, bind, stripe_retrieve.
    destruct (paymentId p) as [pid|] eqn:Hpid.
    + destruct (String.prefix "cs_" pid) eqn:Hcs.
      * destruct (Hf (tick w)) as [e He]. rewrite He.
        do 2 eexists. repeat split. intros pid' Hpid' _. eauto.
      * do 2 eexists. repeat split. intros pid' Hpid' Hcs'.
        injection Hpid' as <-. congruence.
    + do 2 eexists. repeat split. intros pid' Hpid'. discriminate.
  - intros env' w' pid s Hpid Hcs Hs Hunpaid. rewrite Hpid in *.
    unfold verifyPaymentWithStripe, try_catch, bind, stripe_retrieve.
    rewrite Hcs, Hs. simpl. rewrite Hunpaid. reflexivity.
  - apply sweep_keeps_unconfirmed; [exact Hu | exact Hp |].
    apply always_fails_never_paid, Hf.
  - rewrite sweep_keeps_unconfirmed; [simpl; congruence | exact Hu | exact Hp |].
    apply always_fails_never_paid, Hf.
Qed.

(** The scenario of C1: the one pending purchase, created long ago, and
    a provider whose every answer is a timeout. *)
Lemma provider_failure_is_reported_apart_witness :
  let env := Scenario.env_with Scenario.timeout Scenario.no_event in
  let w' := final (checkForStuckPayments env (Scenario.world pending)) in
  stored Scenario.purchase1 (purchases w') = Some (Scenario.the_purchase pending) /\
  status <$> stored Scenario.purchase1 (purchases w') = Some pending.
Proof.
  refine (proj2 (proj2 (provider_failure_is_reported_apart
                          (Scenario.env_with Scenario.timeout Scenario.no_event)
                          (Scenario.world pending) (Scenario.the_purchase pending)
                          _ _ _ _))).
  - apply NoDup_singleton.
  - reflexivity.
  - reflexivity.
  - intros t. eexists. reflexivity.
Defined.

(** C3, as the claim states it, fails on [fixAllStuckPayments]: the one
    pending purchase is over an hour old, the provider answers that the
    session is unpaid, and the script still stores it as [succeeded]. *)
Lemma fixAllStuckPayments_succeeds_on_age :
  let env := Scenario.env_with Scenario.unpaid Scenario.no_event in
  status (Scenario.the_purchase pending) = pending /\
  never_paid env (Some Scenario.session1) /\
  stored Scenario.purchase1
         (purchases (final (fixAllStuckPayments env (Scenario.world pending))))
    = Some (Scenario.the_purchase succeeded).
Proof.
  repeat split.
  intros t s Hs. simpl in Hs. injection Hs as <-. reflexivity.
Qed.

(** C3, amended.  The recurring sweep [checkForStuckPayments] never
    moves a purchase on age alone: whatever the clock shows, a pending
    purchase whose session the provider never reports paid (it reports
    another status, or the query fails) is still [pending] after a pass,
    its record unchanged. *)
Theorem sweep_never_succeeds_on_age env w p :
  unique_ids (purchases w) ->
  stored (_id p) (purchases w) = Some p ->
  status p = pending ->
  never_paid env (paymentId p) ->
  let w' := final (checkForStuckPayments env w) in
  stored (_id p) (purchases w') = Some p /\
  status <$> stored (_id p) (purchases w') = Some pending.
Proof.
  intros Hu Hp Hst Hnp w'. subst w'.
  rewrite (sweep_keeps_unconfirmed env w p Hu Hp Hnp). simpl. split; congruence.
Qed.

(** The scenario of C3 on the recurring sweep: the purchase is older
    than both thresholds and the provider reports it unpaid. *)
Lemma sweep_never_succeeds_on_age_witness :
  let env := Scenario.env_with Scenario.unpaid Scenario.no_event in
  status <$> stored Scenario.purchase1
               (purchases (final (checkForStuckPayments env (Scenario.world pending))))
    = Some pending.
Proof.
  refine (proj2 (sweep_never_succeeds_on_age
                   (Scenario.env_with Scenario.unpaid Scenario.no_event)
                   (Scenario.world pending) (Scenario.the_purchase pending)
                   _ _ _ _)).
  - apply NoDup_singleton.
  - reflexivity.
  - reflexivity.
  - intros t s Hs. simpl in Hs. injection Hs as <-. reflexivity.
Defined.

(** C4, at the failing input.  A purchase stored as [failed] whose
    payment-session id is the one of an incoming
    [checkout.session.completed] event is stored as [succeeded] once
    [stripeWebhook] has run: the handler looks the purchase up by session
    id without reading its status, and [updatePurchaseToSucceeded]
    assigns the status without reading it either.  The administrator's
    [fixPayment] and the router's handler, given the same purchase, do
    read it and leave the purchase alone. *)
Theorem webhook_moves_failed_to_succeeded :
  let env := Scenario.env_with Scenario.unpaid
               (Scenario.completed Scenario.session1 50000) in
  let w := Scenario.world failed in
  status <$> stored Scenario.purchase1 (purchases w) = Some failed /\
  status <$> stored Scenario.purchase1
               (purchases (final (stripeWebhook env None "" w))) = Some succeeded /\
  fixPayment env (loaded (Scenario.the_purchase failed)) true w = Ok false w /\
  statusCode <$> (match fix_payment_route env Scenario.purchase1 w with
                  | Ok r _ => Some r
                  | Throw _ _ => None
                  end) = Some 400 /\
  purchases (final (fix_payment_route env Scenario.purchase1 w)) = purchases w.
Proof. vm_compute. repeat split; reflexivity. Qed.

(** C5, at the failing input.  The stored purchase carries a session id
    that differs from the event's beyond the twentieth character, so the
    exact lookup finds nothing and the lookup by the first twenty
    characters finds the purchase.  The purchase is stored as
    [succeeded] with the provider's amount, and its payment-session id
    is still the old one.  When the purchase is found by the metadata
    instead, the stored id becomes the event's. *)
Theorem webhook_partial_match_keeps_stored_id :
  let env := Scenario.env_with Scenario.unpaid
               (Scenario.completed Scenario.session1' 50000) in
  let by_prefix := Scenario.the_purchase pending in
  let by_metadata :=
    mkPurchase Scenario.purchase1 Scenario.course1 Scenario.user1 500 pending
               (Some "cs_test_another_session") 0 in
  Scenario.session1 <> Scenario.session1' /\
  stored Scenario.purchase1
         (purchases (final (stripeWebhook env None "" (Scenario.world_with [by_prefix]))))
    = Some (mkPurchase Scenario.purchase1 Scenario.course1 Scenario.user1 500
                       succeeded (Some Scenario.session1) 0) /\
  stored Scenario.purchase1
         (purchases (final (stripeWebhook env None "" (Scenario.world_with [by_metadata]))))
    = Some (mkPurchase Scenario.purchase1 Scenario.course1 Scenario.user1 500
                       succeeded (Some Scenario.session1') 0).
Proof. vm_compute. repeat split; try reflexivity. discriminate. Qed.

(** C6, as the claim states it, fails.  The signature of the request
    verifies and the event is [checkout.session.completed], with a
    course and a user in its metadata whose ids are object ids.  When no
    purchase can be found for it, the handler answers 404; when the
    database does not answer the first lookup, the handler's [catch]
    answers 500 and the pending purchase of the session stays as it
    is. *)
Lemma webhook_answers_404_and_500_to_authentic_events :
  let event := Scenario3.completed Scenario.session1 48000 in
  let env := Scenario.env_with Scenario.unpaid event in
  let down := Scenario3.env_down event in
  isObjectId Scenario3.course1 = true /\
  isObjectId Scenario3.user1 = true /\
  constructEvent env "" None "whsec_test" = event /\
  Cast.stripeWebhook env isObjectId None "" (Scenario3.world_with [])
    = Ok (mkResponse 404 (Message "Purchase not found"))
         (mkWorld [] {[ Scenario3.user1 := mkUser [] ]}
                  {[ Scenario3.course1 := mkCourse [] ]} 4 []) /\
  constructEvent down "" None "whsec_test" = event /\
  Cast.stripeWebhook down isObjectId None ""
                     (Scenario3.world_with [Scenario3.the_purchase pending])
    = Ok (mkResponse 500
            (Message "Internal Server Error during webhook processing"))
         (mkWorld [Scenario3.the_purchase pending]
                  {[ Scenario3.user1 := mkUser [] ]}
                  {[ Scenario3.course1 := mkCourse [] ]} 1 []).
Proof. repeat split; reflexivity. Qed.

(** C9, at the failing input.  The identified-purchase endpoint answers
    200 for a pending purchase and stores it as [succeeded] without
    sending any enrollment update, whereas [fixPayment] with the force
    flag, on the same purchase and with a provider that reports it
    unpaid, stores it as [succeeded] and sends both updates. *)
Theorem fix_payment_route_sends_no_enrollment_update :
  let env := Scenario.env_with Scenario.unpaid Scenario.no_event in
  let w := Scenario.world pending in
  fix_payment_route env Scenario.purchase1 w
    = Ok (mkResponse 200 (PurchaseMessage "Purchase updated successfully"
                                          (Scenario.the_purchase succeeded)))
         (mkWorld [Scenario.the_purchase succeeded] (users w) (courses w) 2 []) /\
  fixPayment env (loaded (Scenario.the_purchase pending)) true w
    = Ok true
         (mkWorld [Scenario.the_purchase succeeded]
                  {[ Scenario.user1 := mkUser [Scenario.course1] ]}
                  {[ Scenario.course1 := mkCourse [Scenario.user1] ]} 4
                  [UserAddToSet Scenario.user1 Scenario.course1;
                   CourseAddToSet Scenario.course1 Scenario.user1]).
Proof. split; reflexivity. Qed.

Lemma head_filter_is_Some {A} (q : A -> bool) (p : A) (l : list A) :
  p ∈ l -> q p = true -> is_Some (head (filter (fun x => q x = true) l)).
Proof.
  intros Hin Hq.
  assert (H : p ∈ filter (fun x => q x = true) l)
    by (apply list_elem_of_filter; auto).
  destruct (filter _ l); [inversion H | simpl; eauto].
Qed.

(** C10.  [getCourseDetailWithPurchaseStatus] answers [purchased: true]
    as soon as the store holds any purchase of the course by the user,
    whatever the status of that purchase. *)
Theorem purchased_flag_ignores_status env w cid uid p c :
  db_always_up env ->
  courses w !! cid = Some c ->
  p ∈ purchases w ->
  userId p = uid ->
  courseId p = cid ->
  getCourseDetailWithPurchaseStatus env cid uid w
    = Ok (Some (mkResponse 200 (CourseDetail true))) (advance (advance w)).
Proof.
  intros Hup Hc Hp Hu Hcid.
  unfold getCourseDetailWithPurchaseStatus, try_catch, bind.
  rewrite (Course_findById_up env Hup), (findOne_up env Hup). simpl. rewrite Hc.
  destruct (head_filter_is_Some
              (fun p => String.eqb (userId p) uid && String.eqb (courseId p) cid)
              p (purchases w) Hp) as [x Hx].
  { rewrite Hu, Hcid, !String.eqb_refl. reflexivity. }
  rewrite Hx. reflexivity.
Qed.

(** The scenario of C10: the only purchase of the course by the user is
    still pending. *)
Lemma purchased_flag_ignores_status_witness :
  let env := Scenario.env_with Scenario.unpaid Scenario.no_event in
  status (Scenario.the_purchase pending) = pending /\
  getCourseDetailWithPurchaseStatus env Scenario.course1 Scenario.user1
      (Scenario.world pending)
    = Ok (Some (mkResponse 200 (CourseDetail true)))
         (advance (advance (Scenario.world pending))).
Proof.
  split; [reflexivity|].
  apply (purchased_flag_ignores_status
           (Scenario.env_with Scenario.unpaid Scenario.no_event)
           (Scenario.world pending) Scenario.course1 Scenario.user1
           (Scenario.the_purchase pending) (mkCourse [])).
  - intros t. reflexivity.
  - reflexivity.
  - left.
  - reflexivity.
  - reflexivity.
Defined.

(** ** The completion event of a purchase found by its session id *)

Lemma stored_is_Some p ps : p ∈ ps -> is_Some (stored (_id p) ps).
Proof.
  intros Hp. unfold stored.
  apply (head_filter_is_Some (fun q => String.eqb (_id q) (_id p)) p ps Hp).
  apply String.eqb_refl.
Qed.

Lemma stored_overwrite_eq q ps :
  is_Some (stored (_id q) ps) -> stored (_id q) (overwrite q ps) = Some q.
Proof.
  unfold stored, overwrite. induction ps as [|x ps IH]; intros [y Hy].
  - discriminate.
  - cbn [map]. rewrite filter_cons in Hy. rewrite filter_cons.
    destruct (String.eqb (_id x) (_id q)) eqn:Hx.
    + rewrite String.eqb_refl.
      destruct (decide (true = true)); [reflexivity | congruence].
    + rewrite Hx. destruct (decide (false = true)); [discriminate|].
      apply IH. eauto.
Qed.

Lemma findOne_unique (q : CoursePurchase -> bool) p ps :
  p ∈ ps -> q p = true ->
  (forall x, x ∈ ps -> q x = true -> x = p) ->
  head (filter (fun x => q x = true) ps) = Some p.
Proof.
  intros Hp Hq Hun.
  destruct (head_filter_is_Some q p ps Hp Hq) as [x Hx].
  rewrite Hx. f_equal. apply Hun.
  - assert (Hin : x ∈ filter (fun x => q x = true) ps).
    { destruct (filter _ ps); [discriminate|]. simpl in Hx.
      injection Hx as ->. left. }
    apply list_elem_of_filter in Hin. tauto.
  - assert (Hin : x ∈ filter (fun x => q x = true) ps).
    { destruct (filter _ ps); [discriminate|]. simpl in Hx.
      injection Hx as ->. left. }
    apply list_elem_of_filter in Hin. tauto.
Qed.

Lemma paymentId_is_spec i p : paymentId_is i p = true <-> paymentId p = Some i.
Proof.
  unfold paymentId_is. destruct (paymentId p) as [j|]; [|split; discriminate].
  rewrite String.eqb_eq. split; congruence.
Qed.

Lemma filter_absent (x : string) l : x ∉ l -> filter (fun y => y = x) l = [].
Proof.
  induction l as [|y l IH]; intros Hx; [reflexivity|].
  apply not_elem_of_cons in Hx as [Hne Hx].
  rewrite filter_cons_False by congruence. apply IH, Hx.
Qed.

Lemma occurrences_addToSet x l :
  NoDup l -> occurrences x (addToSet x l) = 1%nat.
Proof.
  unfold occurrences, addToSet. intros Hnd.
  destruct (bool_decide (x ∈ l)) eqn:Hx.
  - apply bool_decide_eq_true in Hx.
    induction Hnd as [|y l Hy Hnd IH]; [inversion Hx|].
    rewrite filter_cons. destruct (decide (y = x)) as [->|Hne].
    + rewrite filter_absent by exact Hy. reflexivity.
    + apply IH. apply elem_of_cons in Hx as [->|Hx]; [contradiction | exact Hx].
  - apply bool_decide_eq_false in Hx.
    rewrite filter_app, length_app, filter_absent by exact Hx.
    rewrite filter_cons_True by reflexivity. reflexivity.
Qed.

(** C8.  A purchase recorded with amount 500 whose completion event
    carries the provider's total 48000, in the minor currency unit, is
    afterwards stored with amount 480 and status [succeeded]; the course
    occurs exactly once in the user's [enrolledCourses] and the user
    exactly once in the course's [enrolledStudents]. *)
Theorem completion_corrects_amount_and_enrolls_once
    env sig raw secret sess w p u c :
  db_always_up env ->
  WEBHOOK_ENDPOINT_SECRET env = Some secret ->
  secret <> "" ->
  constructEvent env raw sig secret
    = Resolved (mkEvent "checkout.session.completed" sess) ->
  amount_total sess = 48000 ->
  p ∈ purchases w ->
  paymentId p = Some (session_id sess) ->
  (forall q, q ∈ purchases w -> paymentId q = Some (session_id sess) -> q = p) ->
  amount p = 500%Q ->
  status p = pending ->
  users w !! userId p = Some u ->
  NoDup (enrolledCourses u) ->
  courses w !! courseId p = Some c ->
  NoDup (enrolledStudents c) ->
  exists w',
    stripeWebhook env sig raw w = Ok (mkResponse 200 Received) w' /\
    (exists p', stored (_id p) (purchases w') = Some p' /\
                amount p' = 480%Q /\ status p' = succeeded) /\
    (exists u', users w' !! userId p = Some u' /\
                occurrences (courseId p) (enrolledCourses u') = 1%nat) /\
    (exists c', courses w' !! courseId p = Some c' /\
                occurrences (userId p) (enrolledStudents c') = 1%nat).
Proof.
  intros Hup Hsec Hne Hev Htot Hp Hpid Hun Ham Hst Hu Hndu Hc Hndc.
  unfold stripeWebhook. rewrite Hsec.
  assert (Htr : truthy (Some secret) = true).
  { simpl. destruct (String.eqb secret "") eqn:E; [|reflexivity].
    apply String.eqb_eq in E. contradiction. }
  rewrite Htr, Hev. cbn [event_type data_object]. rewrite String.eqb_refl.
  unfold try_catch, bind at 1.
  unfold webhook_purchase, bind at 1. rewrite (findOne_up env Hup).
  rewrite (findOne_unique (paymentId_is (session_id sess)) p (purchases w) Hp).
  2: { apply paymentId_is_spec, Hpid. }
  2: { intros x Hx Hq. apply Hun; [exact Hx | apply paymentId_is_spec, Hq]. }
  cbn [fmap option_fmap option_map ret]. unfold bind at 1.
  rewrite (updatePurchaseToSucceeded_up_bare env Hup) by reflexivity.
  rewrite (updatePurchaseToSucceeded_up env Hup).
  2: { unfold populated_in. simpl. rewrite Hc. simpl. discriminate. }
  cbv zeta. rewrite (save_up env Hup).
  unfold populated_in, courseId_id, on_fields, loaded, enrolled. cbn.
  rewrite Hc. cbn.
  destruct (stored_is_Some p _ Hp) as [x Hx]. rewrite Hx. cbn.
  eexists. split; [reflexivity|]. cbn. repeat split.
  - eexists. split; [|split].
    + apply (stored_overwrite_eq
               (mkPurchase (_id p) (courseId p) (userId p)
                           (amount_of_total (amount_total sess)) succeeded
                           (paymentId p) (createdAt p))).
      cbn. eauto.
    + cbn. rewrite Htot. reflexivity.
    + reflexivity.
  - eexists. split.
    + rewrite lookup_alter_eq, Hu. reflexivity.
    + cbn. apply occurrences_addToSet, Hndu.
  - eexists. split.
    + rewrite lookup_alter_eq, Hc. reflexivity.
    + cbn. apply occurrences_addToSet, Hndc.
Qed.

(** The scenario of C8. *)
Lemma completion_corrects_amount_and_enrolls_once_witness :
  let env := Scenario.env_with Scenario.unpaid
               (Scenario.completed Scenario.session1 48000) in
  exists w',
    stripeWebhook env None "" (Scenario.world pending)
      = Ok (mkResponse 200 Received) w' /\
    (exists p', stored Scenario.purchase1 (purchases w') = Some p' /\
                amount p' = 480%Q /\ status p' = succeeded) /\
    (exists u', users w' !! Scenario.user1 = Some u' /\
                occurrences Scenario.course1 (enrolledCourses u') = 1%nat) /\
    (exists c', courses w' !! Scenario.course1 = Some c' /\
                occurrences Scenario.user1 (enrolledStudents c') = 1%nat).
Proof.
  apply (completion_corrects_amount_and_enrolls_once
           (Scenario.env_with Scenario.unpaid
              (Scenario.completed Scenario.session1 48000))
           None "" "whsec_test"
           (Scenario.session_of Scenario.session1 "paid" 48000)
           (Scenario.world pending) (Scenario.the_purchase pending)
           (mkUser []) (mkCourse [])).
  - intros t. reflexivity.
  - reflexivity.
  - discriminate.
  - reflexivity.
  - reflexivity.
  - left.
  - reflexivity.
  - intros q Hq _. apply list_elem_of_singleton in Hq. exact Hq.
  - reflexivity.
  - reflexivity.
  - reflexivity.
  - apply NoDup_nil_2.
  - reflexivity.
  - apply NoDup_nil_2.
Defined.

(** ** Reconciling twice *)

Lemma addToSet_idem x l : addToSet x (addToSet x l) = addToSet x l.
Proof.
  unfold addToSet. destruct (bool_decide (x ∈ l)) eqn:Hx.
  - rewrite Hx. reflexivity.
  - rewrite bool_decide_eq_true_2; [reflexivity|].
    apply elem_of_app. right. left.
Qed.

Lemma alter_idem {V} (f : V -> V) (i : string) (m : gmap string V) :
  (forall v, f (f v) = f v) -> alter f i (alter f i m) = alter f i m.
Proof.
  intros Hf. apply map_eq. intros j.
  destruct (decide (i = j)) as [->|Hne].
  - rewrite !lookup_alter_eq. destruct (m !! j); simpl; [rewrite Hf|]; reflexivity.
  - rewrite !lookup_alter_ne by exact Hne. reflexivity.
Qed.

Lemma overwrite_idem q ps : overwrite q (overwrite q ps) = overwrite q ps.
Proof.
  unfold overwrite. rewrite map_map. apply map_ext. intros x.
  destruct (String.eqb (_id x) (_id q)) eqn:Hx.
  - rewrite String.eqb_refl. reflexivity.
  - rewrite Hx. reflexivity.
Qed.

Lemma update_twice_populated env d w d1 w1 :
  db_always_up env ->
  courseRef d <> Unpopulated ->
  updatePurchaseToSucceeded env d w = Ok d1 w1 ->
  exists w2,
    updatePurchaseToSucceeded env d1 w1 = Ok d1 w2 /\
    purchases w2 = purchases w1 /\ users w2 = users w1 /\ courses w2 = courses w1.
Proof.
  intros Hup Hpop H.
  rewrite (updatePurchaseToSucceeded_up env Hup d w Hpop) in H. cbv zeta in H.
  rewrite (save_up env Hup) in H.
  destruct (stored _ _) as [x|] eqn:Hx; [|discriminate].
  injection H as <- <-.
  rewrite (updatePurchaseToSucceeded_up env Hup) by exact Hpop.
  cbv zeta. rewrite (save_up env Hup).
  assert (Hd : on_fields (set_status succeeded) (on_fields (set_status succeeded) d)
               = on_fields (set_status succeeded) d) by reflexivity.
  rewrite Hd.
  assert (Hcid : courseId_id (on_fields (set_status succeeded) d) = courseId_id d)
    by reflexivity.
  rewrite Hcid.
  destruct (courseId_id d) as [cid|];
    cbn [purchases users courses tick commands fields courseRef
         on_fields enrolled] in *;
    (rewrite stored_overwrite_eq; [|rewrite Hx; eauto]);
    eexists; (split; [reflexivity|]); cbn [purchases users courses];
    rewrite overwrite_idem; repeat split.
  - apply alter_idem. intros [l]. unfold enroll_course. cbn.
    rewrite addToSet_idem. reflexivity.
  - apply alter_idem. intros [l]. unfold enroll_student. cbn.
    rewrite addToSet_idem. reflexivity.
Qed.

(** C2, as the claim states it, fails on [updatePurchaseToSucceeded]:
    called again on the purchase it has just stored as [succeeded], it
    does not return early.  It sends both enrollment updates once more
    and returns the saved purchase, which is what the first call
    returned. *)
Lemma second_update_is_not_short_circuited :
  let env := Scenario.env_with Scenario.paid Scenario.no_event in
  let d1 := mkDoc (Scenario.the_purchase succeeded) PopulatedCourse in
  exists w1 w2,
    updatePurchaseToSucceeded env (loaded (Scenario.the_purchase pending))
                              (Scenario.world pending) = Ok d1 w1 /\
    updatePurchaseToSucceeded env d1 w1 = Ok d1 w2 /\
    commands w1 = [UserAddToSet Scenario.user1 Scenario.course1;
                   CourseAddToSet Scenario.course1 Scenario.user1] /\
    commands w2 = (commands w1 ++
                   [UserAddToSet Scenario.user1 Scenario.course1;
                    CourseAddToSet Scenario.course1 Scenario.user1])%list.
Proof.
  eexists. eexists. split; [reflexivity|]. split; [reflexivity|].
  split; reflexivity.
Qed.

(** C2, amended.  Reconciliation is idempotent on the stored state:
    when [updatePurchaseToSucceeded] has stored a purchase as
    [succeeded], a second call on that purchase returns the same
    document and leaves the purchases, the users and the courses as the
    first call left them.  A call that returns early exists on the
    administrator's path only: [fixPayment] on a purchase whose status is
    not [pending] returns [false] and touches nothing. *)
Theorem reconciling_twice_stores_the_same env w d d1 w1 :
  db_always_up env ->
  updatePurchaseToSucceeded env d w = Ok d1 w1 ->
  (exists w2,
     updatePurchaseToSucceeded env d1 w1 = Ok d1 w2 /\
     purchases w2 = purchases w1 /\ users w2 = users w1 /\ courses w2 = courses w1) /\
  (forall d' force w', status (fields d') <> pending ->
                       fixPayment env d' force w' = Ok false w').
Proof.
  intros Hup H. split.
  - destruct (courseRef d) eqn:Href.
    + rewrite (updatePurchaseToSucceeded_up_bare env Hup d w Href) in H.
      apply (update_twice_populated env _ _ d1 w1 Hup) in H; [exact H|].
      unfold populated_in. cbn. destruct (bool_decide _); discriminate.
    + apply (update_twice_populated env d w d1 w1 Hup); [congruence | exact H].
    + apply (update_twice_populated env d w d1 w1 Hup); [congruence | exact H].
  - intros d' force w' Hst. unfold fixPayment, is_pending.
    rewrite bool_decide_eq_false_2 by exact Hst. reflexivity.
Qed.

(** The scenario of C2: the first call stores the pending purchase as
    [succeeded], the second call changes nothing in the store. *)
Lemma reconciling_twice_stores_the_same_witness :
  let env := Scenario.env_with Scenario.paid Scenario.no_event in
  let d1 := mkDoc (Scenario.the_purchase succeeded) PopulatedCourse in
  let w1 := final (updatePurchaseToSucceeded env
                     (loaded (Scenario.the_purchase pending)) (Scenario.world pending)) in
  exists w2,
    updatePurchaseToSucceeded env d1 w1 = Ok d1 w2 /\
    purchases w2 = purchases w1 /\ users w2 = users w1 /\ courses w2 = courses w1.
Proof.
  refine (proj1 (reconciling_twice_stores_the_same
                   (Scenario.env_with Scenario.paid Scenario.no_event)
                   (Scenario.world pending)
                   (loaded (Scenario.the_purchase pending)) _ _ _ _)).
  - intros t. reflexivity.
  - reflexivity.
Defined.

(** ** The status codes of the webhook *)

Lemma head_filter_elem {A} (P : A -> Prop) `{!forall x, Decision (P x)} (l : list A) x :
  head (filter P l) = Some x -> x ∈ l.
Proof.
  intros Hhead.
  assert (Hin : x ∈ filter P l).
  { destruct (filter P l); [discriminate|]. simpl in Hhead.
    injection Hhead as ->. left. }
  apply list_elem_of_filter in Hin. tauto.
Qed.

Lemma insert_recent_elem x d l : x ∈ insert_recent d l -> x = d \/ x ∈ l.
Proof.
  induction l as [|y l IH]; simpl; intros H.
  - apply list_elem_of_singleton in H. auto.
  - destruct (_ <=? _).
    + apply elem_of_cons in H. exact H.
    + apply elem_of_cons in H as [->|H]; [right; left|].
      destruct (IH H) as [->|Hl]; [left; reflexivity | right; right; exact Hl].
Qed.

Lemma sort_recent_elem x l : x ∈ sort_recent l -> x ∈ l.
Proof.
  unfold sort_recent. induction l as [|d l IH]; simpl; intros H; [exact H|].
  apply insert_recent_elem in H as [->|H]; [left | right; auto].
Qed.

Section WebhookUp.

Context (env : Env) (Hup : db_always_up env) (ps : list CoursePurchase).


Lemma findOne_from_store q :
  hoare (holds ps) (findOne env q)
        (fun r w => holds ps w /\ from_store ps r) (fun _ _ => False).
Proof.
  intros w Hw. rewrite (findOne_up env Hup). split; [exact Hw|].
  intros d Hd. destruct (head _) as [p|] eqn:Hp; [|discriminate].
  simpl in Hd. injection Hd as <-. exists p. split; [|reflexivity].
  apply head_filter_elem in Hp. rewrite <- Hw. exact Hp.
Qed.

Lemma find_recent_pending_from_store :
  hoare (holds ps) (find_recent_pending env)
        (fun r w => holds ps w /\ from_store ps (head r)) (fun _ _ => False).
Proof.
  intros w Hw. unfold find_recent_pending, bind. rewrite (find_up env Hup).
  simpl. split; [exact Hw|]. intros d Hd.
  assert (Hin : d ∈ map loaded (filter (fun p => is_pending p = true) (purchases w))).
  { apply sort_recent_elem. apply (subseteq_take 5). apply head_Some_elem_of. exact Hd. }
  apply list_elem_of_fmap in Hin as (p & -> & Hp).
  apply list_elem_of_filter in Hp as [_ Hp].
  exists p. split; [rewrite <- Hw; exact Hp | reflexivity].
Qed.

Lemma from_store_None : from_store ps None.
Proof. intros d Hd. discriminate. Qed.

Lemma from_store_set_paymentId i d :
  from_store ps (Some d) -> from_store ps (Some (on_fields (set_paymentId i) d)).
Proof.
  intros Hd d' Hd'. injection Hd' as <-. apply (Hd d). reflexivity.
Qed.

Lemma webhook_purchase_from_store sess :
  hoare (holds ps) (webhook_purchase env sess)
        (fun r w => holds ps w /\ from_store ps r) (fun _ _ => False).
Proof.
  unfold webhook_purchase.
  eapply hoare_bind; [apply findOne_from_store|].
  intros [d|]; apply hoare_pure; intros Hd; [apply hoare_ret; auto|].
  eapply hoare_bind; [apply findOne_from_store|].
  intros r2. apply hoare_pure. intros Hr2.
  eapply hoare_bind with (Q := fun r w => holds ps w /\ from_store ps r).
  - destruct r2 as [d2|]; [apply hoare_ret; auto|].
    destruct (metadata sess) as [md|];
      [|apply hoare_ret; auto using from_store_None].
    destruct (md_courseId md) as [c|];
      [|apply hoare_ret; auto using from_store_None].
    destruct (md_userId md) as [u|];
      [|apply hoare_ret; auto using from_store_None].
    destruct (truthy (Some c) && truthy (Some u));
      [|apply hoare_ret; auto using from_store_None].
    eapply hoare_bind; [apply findOne_from_store|].
    intros r3. apply hoare_pure. intros Hr3.
    destruct r3 as [d3|];
      [apply hoare_ret; auto using from_store_set_paymentId|].
    eapply hoare_bind; [apply find_recent_pending_from_store|].
    intros l. apply hoare_pure. intros Hl.
    destruct l as [|d4 l];
      apply hoare_ret; auto using from_store_None, from_store_set_paymentId.
  - intros r4. apply hoare_pure. intros Hr4.
    destruct r4 as [d4|]; [apply hoare_ret; auto|].
    destruct (_ || _); [|apply hoare_ret; auto using from_store_None].
    eapply hoare_try_catch with (E' := fun _ _ => False);
      [|intros e w0 []].
    eapply hoare_bind; [apply findOne_from_store|].
    intros r5. apply hoare_pure. intros Hr5.
    destruct r5 as [d5|]; [|apply hoare_ret; auto using from_store_None].
    destruct (is_pending (fields d5));
      apply hoare_ret; auto using from_store_None.
Qed.

End WebhookUp.

Lemma updatePurchaseToSucceeded_returns env d w :
  db_always_up env ->
  is_Some (stored (_id (fields d)) (purchases w)) ->
  exists d1 w1, updatePurchaseToSucceeded env d w = Ok d1 w1.
Proof.
  intros Hup Hst.
  assert (Hpop : forall d' w',
             courseRef d' <> Unpopulated ->
             is_Some (stored (_id (fields d')) (purchases w')) ->
             exists d1 w1, updatePurchaseToSucceeded env d' w' = Ok d1 w1).
  { intros d' w' Href [x Hx].
    rewrite (updatePurchaseToSucceeded_up env Hup d' w' Href). cbv zeta.
    rewrite (save_up env Hup).
    destruct (courseId_id d');
      cbn [purchases enrolled fields on_fields _id set_status];
      rewrite Hx; eauto. }
  destruct (courseRef d) eqn:Href.
  - rewrite (updatePurchaseToSucceeded_up_bare env Hup d w Href).
    apply Hpop; [|exact Hst].
    unfold populated_in. cbn. destruct (bool_decide _); discriminate.
  - apply Hpop; [congruence | exact Hst].
  - apply Hpop; [congruence | exact Hst].
Qed.

(** Where the metadata of the session can be cast, the lookup with the
    cast is the lookup on castable ids. *)
Lemma cast_webhook_purchase_castable env castable session w :
  metadata_castable castable session ->
  Cast.webhook_purchase env castable session w = webhook_purchase env session w.
Proof.
  unfold metadata_castable, Cast.webhook_purchase, webhook_purchase,
    Cast.findOne_pending_of.
  destruct (metadata session) as [md|]; [|reflexivity].
  destruct (md_courseId md) as [c|]; [|reflexivity].
  destruct (md_userId md) as [u|]; [|reflexivity].
  intros [-> ->]. reflexivity.
Qed.

(** C6, amended.  [stripeWebhook] always answers.  With the signing
    secret configured, it answers 400 exactly when the signature check
    rejects the request.  An authentic event that is not
    [checkout.session.completed] is answered 200 and changes nothing.
    An authentic completion event whose processing runs to its end is
    answered 404 when no purchase can be found for it, and 200 when one
    is found and updated; no other request is answered 404.  The
    processing runs to its end whenever the database answers and the
    ids in the metadata of the event can be cast to object ids.
    (Without a signing secret the answer is 500.) *)
Theorem webhook_status_codes env castable sig raw w :
  exists resp w',
    Cast.stripeWebhook env castable sig raw w = Ok resp w' /\
    (truthy (WEBHOOK_ENDPOINT_SECRET env) = false ->
     statusCode resp = 500 /\ w' = w) /\
    (forall secret,
       WEBHOOK_ENDPOINT_SECRET env = Some secret -> secret <> "" ->
       match constructEvent env raw sig secret with
       | Rejected e =>
           resp = mkResponse 400 (Send ("Webhook Error: " +:+ e)) /\ w' = w
       | Resolved event =>
           statusCode resp <> 400 /\
           (event_type event <> "checkout.session.completed" ->
            resp = mkResponse 200 Received /\ w' = w) /\
           (event_type event = "checkout.session.completed" ->
            let session := data_object event in
            (forall w1,
               Cast.webhook_purchase env castable session w = Ok None w1 ->
               resp = mkResponse 404 (Message "Purchase not found") /\ w' = w1) /\
            (forall d w1 d1 w2,
               Cast.webhook_purchase env castable session w = Ok (Some d) w1 ->
               updatePurchaseToSucceeded env
                 (on_fields (set_amount (amount_of_total (amount_total session))) d) w1
                 = Ok d1 w2 ->
               resp = mkResponse 200 Received /\ w' = w2) /\
            (statusCode resp = 404 ->
             exists w1, Cast.webhook_purchase env castable session w = Ok None w1) /\
            (db_always_up env -> metadata_castable castable session ->
             (exists w1,
                Cast.webhook_purchase env castable session w = Ok None w1) \/
             (exists d w1 d1 w2,
                Cast.webhook_purchase env castable session w = Ok (Some d) w1 /\
                updatePurchaseToSucceeded env
                  (on_fields (set_amount (amount_of_total (amount_total session))) d)
                  w1 = Ok d1 w2)))
       end).
Proof.
  unfold Cast.stripeWebhook.
  destruct (WEBHOOK_ENDPOINT_SECRET env) as [secret|] eqn:Hsec.
  2: { do 2 eexists. split; [reflexivity|]. split; [auto|]. intros s Hs. discriminate. }
  destruct (truthy (Some secret)) eqn:Htr.
  2: { do 2 eexists. split; [reflexivity|]. split; [auto|].
       intros s Hs Hne. injection Hs as <-. simpl in Htr.
       apply negb_false_iff, String.eqb_eq in Htr. contradiction. }
  destruct (constructEvent env raw sig secret) as [event|e] eqn:Hev.
  2: { do 2 eexists. split; [reflexivity|]. split; [discriminate|].
       intros s Hs Hne. injection Hs as <-. rewrite Hev. auto. }
  destruct (String.eqb (event_type event) "checkout.session.completed") eqn:Hty.
  2: { do 2 eexists. split; [reflexivity|]. split; [discriminate|].
       intros s Hs Hne. injection Hs as <-. rewrite Hev. cbn [statusCode].
       split; [discriminate|]. split; [auto|].
       intros Heq. apply String.eqb_eq in Heq. congruence. }
  apply String.eqb_eq in Hty.
  assert (Hlookup : db_always_up env ->
            metadata_castable castable (data_object event) ->
            match Cast.webhook_purchase env castable (data_object event) w with
            | Ok (Some d) w1 =>
                forall a, exists d1 w2,
                  updatePurchaseToSucceeded env (on_fields (set_amount a) d) w1
                    = Ok d1 w2
            | Ok None _ => True
            | Throw _ _ => False
            end).
  { intros Hup Hmd. rewrite (cast_webhook_purchase_castable _ _ _ _ Hmd).
    pose proof (webhook_purchase_from_store env Hup (purchases w)
                  (data_object event) w eq_refl) as H.
    destruct (webhook_purchase env (data_object event) w) as [[d|] w1|e w1];
      [|exact I|exact H].
    destruct H as [Hw1 Hd]. intros a.
    apply updatePurchaseToSucceeded_returns; [exact Hup|].
    destruct (Hd d eq_refl) as (p & Hp & Hid).
    cbn [fields on_fields set_amount _id]. rewrite Hw1, Hid.
    apply stored_is_Some, Hp. }
  unfold try_catch, bind.
  destruct (Cast.webhook_purchase env castable (data_object event) w)
    as [[d|] w1|e w1] eqn:Hr.
  - destruct (updatePurchaseToSucceeded env _ w1) as [d1 w2|e w2] eqn:Hu;
      do 2 eexists; (split; [reflexivity|]); (split; [discriminate|]);
      intros s Hs Hne; injection Hs as <-; rewrite Hev; cbn [statusCode];
      (split; [discriminate|]);
      (split; [intros Hne'; contradiction|]); intros _; cbv zeta;
      (split; [intros w1' Hw1'; congruence|]); split.
    + intros d' w1' d1' w2' Hd' Hu'. rewrite Hr in Hd'. injection Hd' as <- <-.
      rewrite Hu in Hu'. injection Hu' as _ <-. auto.
    + split; [discriminate|]. intros _ _. right. exists d, w1, d1, w2. auto.
    + intros d' w1' d1' w2' Hd' Hu'. rewrite Hr in Hd'. injection Hd' as <- <-.
      congruence.
    + split; [discriminate|]. intros Hup Hmd. exfalso.
      destruct (Hlookup Hup Hmd (amount_of_total (amount_total (data_object event))))
        as (d1 & w3 & Hok). congruence.
  - do 2 eexists. split; [reflexivity|]. split; [discriminate|].
    intros s Hs Hne. injection Hs as <-. rewrite Hev. cbn [statusCode].
    split; [discriminate|].
    split; [intros Hne'; contradiction|]. intros _. cbv zeta.
    split; [intros w1' Hw1'; rewrite Hr in Hw1'; injection Hw1' as <-; auto|].
    split; [intros d' w1' d1' w2' Hd'; congruence|].
    split; [eauto | intros _ _; left; eauto].
  - do 2 eexists. split; [reflexivity|]. split; [discriminate|].
    intros s Hs Hne. injection Hs as <-. rewrite Hev. cbn [statusCode].
    split; [discriminate|].
    split; [intros Hne'; contradiction|]. intros _. cbv zeta.
    split; [intros w1' Hw1'; congruence|].
    split; [intros d' w1' d1' w2' Hd'; congruence|].
    split; [discriminate|]. intros Hup Hmd. exfalso. exact (Hlookup Hup Hmd).
Qed.

(** ** Succeeded purchases and the enrollment arrays *)

Lemma elem_of_addToSet x l : x ∈ addToSet x l.
Proof.
  unfold addToSet. destruct (bool_decide (x ∈ l)) eqn:Hx.
  - apply bool_decide_eq_true in Hx. exact Hx.
  - apply elem_of_app. right. left.
Qed.

Lemma addToSet_mono x y l : y ∈ l -> y ∈ addToSet x l.
Proof.
  intros Hy. unfold addToSet. destruct (bool_decide (x ∈ l)); [exact Hy|].
  apply elem_of_app. left. exact Hy.
Qed.

Lemma elem_of_overwrite x q ps : x ∈ overwrite q ps -> x = q \/ x ∈ ps.
Proof.
  unfold overwrite. intros Hx.
  apply list_elem_of_fmap in Hx as (y & -> & Hy).
  destruct (String.eqb (_id y) (_id q)); auto.
Qed.

(** Applying the two enrollment updates keeps every purchase that was
    reflected in both arrays reflected in them. *)
Lemma enrolled_both_ways_mono uid cid w w' p :
  users w' = alter (enroll_course cid) uid (users w) ->
  courses w' = alter (enroll_student uid) cid (courses w) ->
  enrolled_both_ways w p -> enrolled_both_ways w' p.
Proof.
  intros Hu Hc [(u & Hlu & Hinu) (c & Hlc & Hinc)]. split.
  - rewrite Hu. destruct (decide (uid = userId p)) as [->|Hne].
    + exists (enroll_course cid u). rewrite lookup_alter_eq, Hlu.
      split; [reflexivity|]. apply addToSet_mono, Hinu.
    + exists u. rewrite lookup_alter_ne by exact Hne. auto.
  - rewrite Hc. destruct (decide (cid = courseId p)) as [->|Hne].
    + exists (enroll_student uid c). rewrite lookup_alter_eq, Hlc.
      split; [reflexivity|]. apply addToSet_mono, Hinc.
    + exists c. rewrite lookup_alter_ne by exact Hne. auto.
Qed.

(** ... and reflects the purchase they were sent for. *)
Lemma enrolled_both_ways_new w' w p u c :
  users w !! userId p = Some u ->
  courses w !! courseId p = Some c ->
  users w' = alter (enroll_course (courseId p)) (userId p) (users w) ->
  courses w' = alter (enroll_student (userId p)) (courseId p) (courses w) ->
  enrolled_both_ways w' p.
Proof.
  intros Hu Hc Hu' Hc'. split.
  - exists (enroll_course (courseId p) u). rewrite Hu', lookup_alter_eq, Hu.
    split; [reflexivity | apply elem_of_addToSet].
  - exists (enroll_student (userId p) c). rewrite Hc', lookup_alter_eq, Hc.
    split; [reflexivity | apply elem_of_addToSet].
Qed.

(** C7, as the claim states it, fails on [updatePurchaseToSucceeded]:
    the database is unreachable while the two enrollment updates are
    sent, the function logs the failure and saves the purchase all the
    same.  The webhook answers 200, the purchase is stored as
    [succeeded], and neither enrollment array has gained the entry. *)
Lemma succeeded_is_stored_after_failed_enrollment :
  let env := Scenario.env_outage (Scenario.completed Scenario.session1 50000) in
  exists w',
    stripeWebhook env None "" (Scenario.world pending)
      = Ok (mkResponse 200 Received) w' /\
    stored Scenario.purchase1 (purchases w') = Some (Scenario.the_purchase succeeded) /\
    users w' !! Scenario.user1 = Some (mkUser []) /\
    courses w' !! Scenario.course1 = Some (mkCourse []).
Proof. eexists. repeat split. Qed.

(** C7, amended.  While the database answers,
    [updatePurchaseToSucceeded] keeps the invariant that every purchase
    stored as [succeeded] has its course in the user's [enrolledCourses]
    and its user in the course's [enrolledStudents], for a purchase
    whose user and course exist.  (When an enrollment update fails, the
    function logs the error and stores the purchase as [succeeded]
    nevertheless.) *)
Theorem update_keeps_succeeded_enrolled env w d u c :
  db_always_up env ->
  succeeded_are_enrolled w ->
  users w !! userId (fields d) = Some u ->
  courses w !! courseId (fields d) = Some c ->
  courseRef d <> PopulatedNull ->
  succeeded_are_enrolled (final (updatePurchaseToSucceeded env d w)).
Proof.
  intros Hup Hinv Hu Hc Hnull.
  assert (Hpop : forall d' w',
             fields d' = fields d -> courseRef d' = PopulatedCourse ->
             purchases w' = purchases w -> users w' = users w ->
             courses w' = courses w ->
             succeeded_are_enrolled (final (updatePurchaseToSucceeded env d' w'))).
  { intros [f r] w' Hd' Href Hps Hus Hcs. cbn [fields courseRef] in Hd', Href.
    subst f r.
    rewrite (updatePurchaseToSucceeded_up env Hup) by discriminate.
    cbv zeta. rewrite (save_up env Hup).
    unfold courseId_id.
    cbn [purchases enrolled fields courseRef on_fields].
    destruct (stored _ _) as [x|]; intros p Hp Hst;
      cbn [final purchases users courses advance enrolled] in Hp;
      rewrite Hps in Hp.
    - apply elem_of_overwrite in Hp as [->|Hp].
      + apply (enrolled_both_ways_new _ w (set_status succeeded (fields d)) u c);
          [exact Hu | exact Hc | |];
          cbn [final enrolled users courses userId courseId set_status];
          congruence.
      + apply (enrolled_both_ways_mono (userId (fields d)) (courseId (fields d)) w);
          [cbn [final enrolled advance users]; congruence
          |cbn [final enrolled advance courses]; congruence
          |apply Hinv; assumption].
    - apply (enrolled_both_ways_mono (userId (fields d)) (courseId (fields d)) w);
        [cbn [final enrolled advance users]; congruence
          |cbn [final enrolled advance courses]; congruence
          |apply Hinv; assumption]. }
  destruct (courseRef d) eqn:Href; [| |contradiction].
  - rewrite (updatePurchaseToSucceeded_up_bare env Hup d w Href).
    apply Hpop; try reflexivity.
    unfold populated_in. cbn [courseRef].
    rewrite bool_decide_eq_true_2; [reflexivity | rewrite Hc; eauto].
  - apply Hpop; auto.
Qed.

(** The scenario of C7: nothing is stored as [succeeded] before the
    call, and the purchase stored as [succeeded] by it is enrolled. *)
Lemma update_keeps_succeeded_enrolled_witness :
  let env := Scenario.env_with Scenario.paid Scenario.no_event in
  succeeded_are_enrolled
    (final (updatePurchaseToSucceeded env (loaded (Scenario.the_purchase pending))
                                      (Scenario.world pending))).
Proof.
  apply (update_keeps_succeeded_enrolled
           (Scenario.env_with Scenario.paid Scenario.no_event)
           (Scenario.world pending) (loaded (Scenario.the_purchase pending))
           (mkUser []) (mkCourse [])).
  - intros t. reflexivity.
  - intros p Hp Hst. apply list_elem_of_singleton in Hp. subst p. discriminate.
  - reflexivity.
  - reflexivity.
  - discriminate.
Defined.

(** ** Handlers with and without the cast

    On ids that can be cast, the handlers of [Cast] are the handlers on
    castable ids that the other properties are stated about. *)

Lemma cast_Course_findById_castable env castable i :
  castable i = true -> Cast.Course_findById env castable i = Course_findById env i.
Proof. intros H. unfold Cast.Course_findById. rewrite H. reflexivity. Qed.

Lemma cast_getCourseDetailWithPurchaseStatus_castable env castable cid uid :
  castable cid = true ->
  Cast.getCourseDetailWithPurchaseStatus env castable cid uid
    = getCourseDetailWithPurchaseStatus env cid uid.
Proof.
  intros H. unfold Cast.getCourseDetailWithPurchaseStatus,
    getCourseDetailWithPurchaseStatus.
  rewrite (cast_Course_findById_castable env castable cid H). reflexivity.
Qed.

Lemma cast_createCheckoutSession_castable env castable co uid cid :
  castable cid = true ->
  Cast.createCheckoutSession env castable co uid cid
    = createCheckoutSession env co uid cid.
Proof.
  intros H. unfold Cast.createCheckoutSession, createCheckoutSession.
  rewrite (cast_Course_findById_castable env castable cid H). reflexivity.
Qed.

Lemma cast_stripeWebhook_castable env castable sig raw w :
  (forall secret event,
     WEBHOOK_ENDPOINT_SECRET env = Some secret ->
     constructEvent env raw sig secret = Resolved event ->
     metadata_castable castable (data_object event)) ->
  Cast.stripeWebhook env castable sig raw w = stripeWebhook env sig raw w.
Proof.
  intros H. unfold Cast.stripeWebhook, stripeWebhook.
  destruct (WEBHOOK_ENDPOINT_SECRET env) as [secret|] eqn:Hsec; [|reflexivity].
  destruct (truthy (Some secret)); [|reflexivity].
  destruct (constructEvent env raw sig secret) as [event|e] eqn:Hev; [|reflexivity].
  destruct (String.eqb (event_type event) "checkout.session.completed");
    [|reflexivity].
  unfold try_catch, bind.
  rewrite (cast_webhook_purchase_castable env castable (data_object event) w
             (H secret event eq_refl Hev)).
  reflexivity.
Qed.

(** ** The administrator's forced fix *)

(** X12.  [fixPayment] with the force flag, on a stored pending purchase
    whose user and course exist and while the database answers:
    whatever the provider says, and whether or not it is asked, the
    purchase is stored as [succeeded] and is reflected in both
    enrollment arrays. *)
Lemma fixPayment_forced env w p u c :
  db_always_up env ->
  stored (_id p) (purchases w) = Some p ->
  status p = pending ->
  users w !! userId p = Some u ->
  courses w !! courseId p = Some c ->
  exists w',
    fixPayment env (loaded p) true w = Ok true w' /\
    stored (_id p) (purchases w') = Some (set_status succeeded p) /\
    enrolled_both_ways w' p.
Proof.
  intros Hup Hp Hst Hu Hc.
  unfold fixPayment, is_pending. cbn [fields loaded].
  rewrite bool_decide_eq_true_2 by exact Hst. cbn [negb].
  match goal with
  | |- context [bind ?m _] =>
      assert (Hm : exists b w0,
                 m w = Ok b w0 /\ purchases w0 = purchases w /\
                 users w0 = users w /\ courses w0 = courses w)
  end.
  { destruct (truthy (STRIPE_SECRET_KEY env) && is_checkout_session_id (paymentId p)).
    - unfold try_catch, bind, stripe_retrieve.
      destruct (sessions_retrieve env (tick w) (paymentId p)) as [s|e];
        cbn; eauto 10.
    - cbn. eauto 10. }
  destruct Hm as (b & w0 & Hm & Hps & Hus & Hcs).
  unfold bind at 1. rewrite Hm. cbn [orb]. cbv zeta.
  unfold bind at 1. rewrite (save_up env Hup).
  cbn [fields on_fields loaded _id set_status]. rewrite Hps, Hp.
  unfold try_catch, courseId_id. cbn [courseRef loaded on_fields fields].
  unfold bind. rewrite (User_addToSet_up env Hup), (Course_addToSet_up env Hup).
  cbn [ret purchases users courses userId courseId set_status].
  eexists. split; [reflexivity|]. cbn [purchases]. split.
  - apply (stored_overwrite_eq (set_status succeeded p)). cbn [_id set_status].
    rewrite Hp. eauto.
  - apply (enrolled_both_ways_new _ w p u c Hu Hc); cbn [users courses]; congruence.
Qed.

(** ** The paths that read the status first *)

(** X13.  The sweep, the administrator's [fixPayment], the router's
    handler and the delayed follow-up check leave a purchase alone once
    its status is not [pending]. *)
Lemma final_status_kept_by_guarded_paths env w p :
  unique_ids (purchases w) ->
  stored (_id p) (purchases w) = Some p ->
  status p <> pending ->
  stored (_id p) (purchases (final (checkForStuckPayments env w))) = Some p /\
  (forall force, fixPayment env (loaded p) force w = Ok false w) /\
  purchases (final (fix_payment_route env (_id p) w)) = purchases w /\
  purchases (final (followUpCheck env (_id p) w)) = purchases w.
Proof.
  intros Hu Hp Hst.
  assert (Hnot : is_pending p = false)
    by (apply bool_decide_eq_false_2; exact Hst).
  repeat split.
  - apply sweep_keeps_record; [exact Hu | exact Hp | contradiction].
  - intros force. unfold fixPayment. cbn [fields loaded]. rewrite Hnot. reflexivity.
  - unfold fix_payment_route, try_catch, findById, findOne, bind, db_roundtrip.
    destruct (bool_decide (NODE_ENV env = Some "production")); [reflexivity|].
    destruct (db_up env (tick w)); [|reflexivity].
    cbn [purchases advance]. fold (stored (_id p) (purchases w)). rewrite Hp.
    cbn [fmap option_fmap option_map fields loaded]. rewrite Hnot. reflexivity.
  - unfold followUpCheck, try_catch, findById, findOne, bind, db_roundtrip.
    destruct (db_up env (tick w)); [|reflexivity].
    cbn [purchases advance]. fold (stored (_id p) (purchases w)). rewrite Hp.
    cbn [fmap option_fmap option_map fields loaded]. rewrite Hnot. reflexivity.
Qed.

(** * Invariants that every operation keeps *)

Section Closed.

Context (env : Env) (J : World -> Prop) (HJ : closed J).

Lemma closed_db_roundtrip : keeps J (db_roundtrip env).
Proof.
  intros w Hw. unfold db_roundtrip.
  destruct (db_up env (tick w)); apply (closed_advance J HJ), Hw.
Qed.

Lemma closed_now : keeps J (now env).
Proof. intros w Hw. exact Hw. Qed.

Lemma closed_stripe_retrieve i : keeps J (stripe_retrieve env i).
Proof.
  intros w Hw. unfold stripe_retrieve.
  destruct (sessions_retrieve env (tick w) i); apply (closed_advance J HJ), Hw.
Qed.

Lemma closed_read {A} (f : World -> A) :
  keeps J (bind (db_roundtrip env) (fun _ w => Ok (f w) w)).
Proof.
  apply keeps_bind; [apply closed_db_roundtrip|]. intros _ w Hw. exact Hw.
Qed.

Lemma closed_find q : keeps J (find env q).
Proof. apply (closed_read (fun w => map loaded (filter (fun p => q p = true) (purchases w)))). Qed.

Lemma closed_find_populate q : keeps J (find_populate env q).
Proof.
  apply (closed_read (fun w => map (populated_in (courses w))
                                   (filter (fun p => q p = true) (purchases w)))).
Qed.

Lemma closed_findOne q : keeps J (findOne env q).
Proof.
  apply (closed_read (fun w => loaded <$> head (filter (fun p => q p = true) (purchases w)))).
Qed.

Lemma closed_populate d : keeps J (populate env d).
Proof. apply (closed_read (fun w => populated_in (courses w) (fields d))). Qed.

Lemma closed_Course_findById i : keeps J (Course_findById env i).
Proof. apply (closed_read (fun w => courses w !! i)). Qed.

Lemma closed_save_doc d : keeps J (save env d).
Proof.
  apply keeps_bind; [apply closed_db_roundtrip|]. intros _ w Hw.
  destruct (stored (_id (fields d)) (purchases w)) eqn:Hs; [|exact Hw].
  apply (closed_save J HJ (fields d) w); [rewrite Hs; eauto | exact Hw].
Qed.

Lemma closed_User_addToSet uid cid : keeps J (User_addToSet env uid cid).
Proof.
  apply keeps_bind; [apply closed_db_roundtrip|]. intros _ w Hw.
  apply (closed_user J HJ uid cid w Hw).
Qed.

Lemma closed_Course_addToSet cid uid : keeps J (Course_addToSet env cid uid).
Proof.
  apply keeps_bind; [apply closed_db_roundtrip|]. intros _ w Hw.
  apply (closed_course J HJ cid uid w Hw).
Qed.

Lemma closed_verifyPaymentWithStripe i : keeps J (verifyPaymentWithStripe env i).
Proof.
  unfold verifyPaymentWithStripe. apply keeps_try_catch.
  - destruct i as [pid|]; [|apply keeps_throw].
    destruct (String.prefix "cs_" pid); [|apply keeps_ret].
    apply keeps_bind; [apply closed_stripe_retrieve|]. intros s. apply keeps_ret.
  - intros e. apply keeps_ret.
Qed.

Lemma closed_updatePurchaseToSucceeded d : keeps J (updatePurchaseToSucceeded env d).
Proof.
  unfold updatePurchaseToSucceeded.
  apply keeps_try_catch; [|intros e; apply keeps_throw].
  apply keeps_bind.
  - destruct (courseRef d); [apply closed_populate | |]; apply keeps_ret.
  - intros d'. apply keeps_bind.
    + apply keeps_try_catch; [|intros e; apply keeps_ret].
      destruct (courseId_id _); [|apply keeps_throw].
      apply keeps_Promise_all2;
        [apply closed_User_addToSet | apply closed_Course_addToSet].
    + intros _. apply closed_save_doc.
Qed.

Lemma closed_checkStuckPayment d : keeps J (checkStuckPayment env d).
Proof.
  unfold checkStuckPayment. apply keeps_try_catch; [|intros e; apply keeps_ret].
  apply keeps_bind; [apply closed_verifyPaymentWithStripe|]. intros r.
  destruct (verified r).
  - apply keeps_bind; [apply closed_updatePurchaseToSucceeded|].
    intros _. apply keeps_ret.
  - apply keeps_bind; [apply closed_now|]. intros t.
    destruct (_ <? _); [|apply keeps_ret].
    apply keeps_try_catch; [|intros e; apply keeps_ret].
    apply keeps_bind; [apply closed_stripe_retrieve|]. intros s.
    destruct (String.eqb _ _); [|apply keeps_ret].
    apply keeps_bind; [apply closed_updatePurchaseToSucceeded|].
    intros _. apply keeps_ret.
Qed.

Lemma closed_checkForStuckPayments : keeps J (checkForStuckPayments env).
Proof.
  unfold checkForStuckPayments. apply keeps_try_catch; [|intros e; apply keeps_ret].
  apply keeps_bind; [apply closed_now|]. intros t.
  apply keeps_bind; [apply closed_find_populate|]. intros docs.
  apply keeps_bind; [|intros _; apply keeps_ret].
  apply keeps_forEach. intros d _. apply closed_checkStuckPayment.
Qed.

Lemma closed_followUpCheck i : keeps J (followUpCheck env i).
Proof.
  unfold followUpCheck. apply keeps_try_catch; [|intros e; apply keeps_ret].
  apply keeps_bind; [apply closed_findOne|]. intros [d|]; [|apply keeps_ret].
  destruct (is_pending _); [|apply keeps_ret].
  apply keeps_bind; [apply closed_verifyPaymentWithStripe|]. intros r.
  destruct (verified r); [|apply keeps_ret].
  apply keeps_bind; [apply closed_updatePurchaseToSucceeded|].
  intros _. apply keeps_ret.
Qed.

Lemma closed_find_recent_pending : keeps J (find_recent_pending env).
Proof.
  unfold find_recent_pending. apply keeps_bind; [apply closed_find|].
  intros l. apply keeps_ret.
Qed.

Lemma closed_webhook_purchase sess : keeps J (webhook_purchase env sess).
Proof.
  unfold webhook_purchase.
  apply keeps_bind; [apply closed_findOne|]. intros [d|]; [apply keeps_ret|].
  apply keeps_bind; [apply closed_findOne|]. intros r2.
  apply keeps_bind.
  - destruct r2 as [d2|]; [apply keeps_ret|].
    destruct (metadata sess) as [md|]; [|apply keeps_ret].
    destruct (md_courseId md) as [c|]; [|apply keeps_ret].
    destruct (md_userId md) as [u|]; [|apply keeps_ret].
    destruct (truthy (Some c) && truthy (Some u)); [|apply keeps_ret].
    apply keeps_bind; [apply closed_findOne|]. intros [d3|]; [apply keeps_ret|].
    apply keeps_bind; [apply closed_find_recent_pending|].
    intros [|d4 l]; apply keeps_ret.
  - intros [d4|]; [apply keeps_ret|].
    destruct (_ || _); [|apply keeps_ret].
    apply keeps_try_catch; [|intros e; apply keeps_ret].
    apply keeps_bind; [apply closed_findOne|]. intros [d5|]; [|apply keeps_ret].
    destruct (is_pending _); apply keeps_ret.
Qed.

Lemma closed_stripeWebhook sig raw : keeps J (stripeWebhook env sig raw).
Proof.
  unfold stripeWebhook.
  destruct (WEBHOOK_ENDPOINT_SECRET env) as [secret|]; [|apply keeps_ret].
  destruct (truthy (Some secret)); [|apply keeps_ret].
  destruct (constructEvent env raw sig secret) as [event|e]; [|apply keeps_ret].
  destruct (String.eqb _ _); [|apply keeps_ret].
  apply keeps_try_catch; [|intros e; apply keeps_ret].
  apply keeps_bind; [apply closed_webhook_purchase|]. intros [d|]; [|apply keeps_ret].
  apply keeps_bind; [apply closed_updatePurchaseToSucceeded|].
  intros _. apply keeps_ret.
Qed.

Lemma closed_getCourseDetailWithPurchaseStatus cid uid :
  keeps J (getCourseDetailWithPurchaseStatus env cid uid).
Proof.
  unfold getCourseDetailWithPurchaseStatus.
  apply keeps_try_catch; [|intros e; apply keeps_ret].
  apply keeps_bind; [apply closed_Course_findById|]. intros c.
  apply keeps_bind; [apply closed_findOne|]. intros r.
  destruct c; apply keeps_ret.
Qed.

Lemma closed_fix_payment_route i : keeps J (fix_payment_route env i).
Proof.
  unfold fix_payment_route. apply keeps_try_catch; [|intros e; apply keeps_ret].
  destruct (bool_decide _); [apply keeps_ret|].
  apply keeps_bind; [apply closed_findOne|]. intros [d|]; [|apply keeps_ret].
  destruct (is_pending _); [|apply keeps_ret].
  apply keeps_bind; [apply closed_save_doc|]. intros _. apply keeps_ret.
Qed.

Lemma closed_fixPayment d force : keeps J (fixPayment env d force).
Proof.
  unfold fixPayment. destruct (negb _); [apply keeps_ret|].
  apply keeps_bind.
  - destruct (_ && _); [|apply keeps_ret].
    apply keeps_try_catch; [|intros e; apply keeps_ret].
    apply keeps_bind; [apply closed_stripe_retrieve|]. intros s. apply keeps_ret.
  - intros b. destruct (force || b); [|apply keeps_ret].
    apply keeps_bind; [apply closed_save_doc|]. intros _.
    apply keeps_try_catch; [|intros e; apply keeps_ret].
    destruct (courseId_id _); [|apply keeps_throw].
    apply keeps_bind; [apply closed_User_addToSet|]. intros _.
    apply keeps_bind; [apply closed_Course_addToSet|]. intros _. apply keeps_ret.
Qed.

Lemma closed_fixStuckPayment d : keeps J (fixStuckPayment env d).
Proof.
  unfold fixStuckPayment. apply keeps_try_catch; [|intros e; apply keeps_ret].
  apply keeps_bind; [apply closed_now|]. intros t.
  apply keeps_bind.
  - destruct (is_checkout_session_id _); [|apply keeps_ret].
    apply keeps_try_catch; [|intros e; apply keeps_ret].
    apply keeps_bind; [apply closed_stripe_retrieve|]. intros s. apply keeps_ret.
  - intros b. destruct (b || _); [|apply keeps_ret].
    apply keeps_bind; [apply closed_save_doc|]. intros _.
    apply keeps_bind.
    + apply keeps_try_catch; [|intros e; apply keeps_ret].
      destruct (courseId_id _); [apply closed_User_addToSet | apply keeps_throw].
    + intros _. apply keeps_bind; [|intros _; apply keeps_ret].
      apply keeps_try_catch; [|intros e; apply keeps_ret].
      destruct (courseId_id _); [apply closed_Course_addToSet | apply keeps_throw].
Qed.

Lemma closed_fixEach l s : keeps J (fixEach env l s).
Proof.
  revert s. induction l as [|d l IH]; intros s; simpl.
  - apply keeps_ret.
  - apply keeps_bind; [apply closed_fixStuckPayment|]. intros t. apply IH.
Qed.

Lemma closed_fixAllStuckPayments : keeps J (fixAllStuckPayments env).
Proof.
  unfold fixAllStuckPayments. apply keeps_try_catch; [|intros e; apply keeps_ret].
  apply keeps_bind; [apply closed_db_roundtrip|]. intros _.
  apply keeps_bind; [apply closed_find_populate|]. intros [|d l]; [apply keeps_ret|].
  apply keeps_bind; [apply closed_fixEach|]. intros s. apply keeps_ret.
Qed.

End Closed.

(** ** Three closed invariants *)

Lemma map_id_overwrite p ps : map _id (overwrite p ps) = map _id ps.
Proof.
  unfold overwrite. rewrite map_map. apply map_ext_in. intros q _.
  destruct (String.eqb (_id q) (_id p)) eqn:Hq; [|reflexivity].
  apply String.eqb_eq in Hq. congruence.
Qed.

Lemma closed_has_ids ids : closed (has_ids ids).
Proof.
  split; unfold has_ids; intros; cbn [purchases advance saved user_enrolled course_enrolled];
    try assumption.
  rewrite map_id_overwrite. assumption.
Qed.

Lemma addToSet_subseteq x l : l ⊆ addToSet x l.
Proof. intros y Hy. apply addToSet_mono, Hy. Qed.

Lemma closed_enrollment_kept w0 : closed (enrollment_kept w0).
Proof.
  split.
  - intros w H. exact H.
  - intros p w _ H. exact H.
  - intros uid cid w [Hu Hc]. split; [|exact Hc]. intros uid'.
    specialize (Hu uid'). cbn [users user_enrolled].
    destruct (decide (uid = uid')) as [->|Hne].
    + rewrite lookup_alter_eq. destruct (users w0 !! uid'), (users w !! uid');
        cbn; try exact Hu.
      etransitivity; [exact Hu | apply addToSet_subseteq].
    + rewrite lookup_alter_ne by exact Hne. exact Hu.
  - intros cid uid w [Hu Hc]. split; [exact Hu|]. intros cid'.
    specialize (Hc cid'). cbn [courses course_enrolled].
    destruct (decide (cid = cid')) as [->|Hne].
    + rewrite lookup_alter_eq. destruct (courses w0 !! cid'), (courses w !! cid');
        cbn; try exact Hc.
      etransitivity; [exact Hc | apply addToSet_subseteq].
    + rewrite lookup_alter_ne by exact Hne. exact Hc.
Qed.

Lemma enrollment_kept_refl w : enrollment_kept w w.
Proof.
  split; intros i; [destruct (users w !! i) | destruct (courses w !! i)];
    auto; reflexivity.
Qed.

Lemma NoDup_addToSet x l : NoDup l -> NoDup (addToSet x l).
Proof.
  intros Hl. unfold addToSet. destruct (bool_decide (x ∈ l)) eqn:Hx; [exact Hl|].
  apply bool_decide_eq_false in Hx. apply NoDup_app. repeat split.
  - exact Hl.
  - intros y Hy Hy'. apply list_elem_of_singleton in Hy'. subst y. contradiction.
  - apply NoDup_singleton.
Qed.

Lemma closed_arrays_are_sets : closed arrays_are_sets.
Proof.
  split.
  - intros w H. exact H.
  - intros p w _ H. exact H.
  - intros uid cid w [Hu Hc]. split; [|exact Hc]. intros uid' u.
    cbn [users user_enrolled]. destruct (decide (uid = uid')) as [->|Hne].
    + rewrite lookup_alter_eq. destruct (users w !! uid') as [u0|] eqn:Hu0;
        cbn; [|discriminate].
      intros [= <-]. cbn. apply NoDup_addToSet. exact (Hu uid' u0 Hu0).
    + rewrite lookup_alter_ne by exact Hne. apply Hu.
  - intros cid uid w [Hu Hc]. split; [exact Hu|]. intros cid' c.
    cbn [courses course_enrolled]. destruct (decide (cid = cid')) as [->|Hne].
    + rewrite lookup_alter_eq. destruct (courses w !! cid') as [c0|] eqn:Hc0;
        cbn; [|discriminate].
      intros [= <-]. cbn. apply NoDup_addToSet. exact (Hc cid' c0 Hc0).
    + rewrite lookup_alter_ne by exact Hne. apply Hc.
Qed.

(** What holds of every closed invariant holds of every pass. *)
Lemma every_pass_keeps env J w :
  closed J -> J w ->
  J (final (checkForStuckPayments env w)) /\
  (forall sig raw, J (final (stripeWebhook env sig raw w))) /\
  (forall i, J (final (followUpCheck env i w))) /\
  (forall i, J (final (fix_payment_route env i w))) /\
  (forall d force, J (final (fixPayment env d force w))) /\
  J (final (fixAllStuckPayments env w)) /\
  (forall d, J (final (updatePurchaseToSucceeded env d w))).
Proof.
  intros HJ Hw. repeat split; intros; apply keeps_final; try exact Hw.
  - apply closed_checkForStuckPayments, HJ.
  - apply closed_stripeWebhook, HJ.
  - apply closed_followUpCheck, HJ.
  - apply closed_fix_payment_route, HJ.
  - apply closed_fixPayment, HJ.
  - apply closed_fixAllStuckPayments, HJ.
  - apply closed_updatePurchaseToSucceeded, HJ.
Qed.

(** * Further properties of the code *)

(** X1.  No pass of the subsystem creates, deletes or reorders a
    purchase: after the sweep, the webhook, the delayed follow-up check,
    the [/fix-payment] route, [fixPayment], [fixAllStuckPayments] or
    [updatePurchaseToSucceeded], the store holds purchases with the same
    ids in the same order, however the pass ends. *)
Theorem no_pass_creates_or_deletes_a_purchase env w :
  let ids := map _id (purchases w) in
  map _id (purchases (final (checkForStuckPayments env w))) = ids /\
  (forall sig raw, map _id (purchases (final (stripeWebhook env sig raw w))) = ids) /\
  (forall i, map _id (purchases (final (followUpCheck env i w))) = ids) /\
  (forall i, map _id (purchases (final (fix_payment_route env i w))) = ids) /\
  (forall d force, map _id (purchases (final (fixPayment env d force w))) = ids) /\
  map _id (purchases (final (fixAllStuckPayments env w))) = ids /\
  (forall d, map _id (purchases (final (updatePurchaseToSucceeded env d w))) = ids).
Proof.
  exact (every_pass_keeps env (has_ids (map _id (purchases w))) w
           (closed_has_ids _) eq_refl).
Qed.

(** X2.  No pass revokes an enrollment: whatever the sweep, the webhook,
    the follow-up check, the [/fix-payment] route, [fixPayment],
    [fixAllStuckPayments] or [updatePurchaseToSucceeded] do and however
    they end, every user and every course that existed still exists, no
    other has appeared, and every entry of an [enrolledCourses] or
    [enrolledStudents] array is still in it. *)
Theorem no_pass_revokes_an_enrollment env w :
  enrollment_kept w (final (checkForStuckPayments env w)) /\
  (forall sig raw, enrollment_kept w (final (stripeWebhook env sig raw w))) /\
  (forall i, enrollment_kept w (final (followUpCheck env i w))) /\
  (forall i, enrollment_kept w (final (fix_payment_route env i w))) /\
  (forall d force, enrollment_kept w (final (fixPayment env d force w))) /\
  enrollment_kept w (final (fixAllStuckPayments env w)) /\
  (forall d, enrollment_kept w (final (updatePurchaseToSucceeded env d w))).
Proof.
  exact (every_pass_keeps env (enrollment_kept w) w
           (closed_enrollment_kept w) (enrollment_kept_refl w)).
Qed.

(** X3.  The enrollment arrays stay sets: when no [enrolledCourses] or
    [enrolledStudents] array lists a reference twice, none does after a
    pass of the sweep, the webhook, the follow-up check, the
    [/fix-payment] route, [fixPayment], [fixAllStuckPayments] or
    [updatePurchaseToSucceeded], however often the same purchase is
    reconciled. *)
Theorem every_pass_keeps_the_arrays_sets env w :
  arrays_are_sets w ->
  arrays_are_sets (final (checkForStuckPayments env w)) /\
  (forall sig raw, arrays_are_sets (final (stripeWebhook env sig raw w))) /\
  (forall i, arrays_are_sets (final (followUpCheck env i w))) /\
  (forall i, arrays_are_sets (final (fix_payment_route env i w))) /\
  (forall d force, arrays_are_sets (final (fixPayment env d force w))) /\
  arrays_are_sets (final (fixAllStuckPayments env w)) /\
  (forall d, arrays_are_sets (final (updatePurchaseToSucceeded env d w))).
Proof.
  intros Hw. exact (every_pass_keeps env arrays_are_sets w closed_arrays_are_sets Hw).
Qed.

(** The scenario of X3: the one user and the one course have empty
    arrays. *)
Lemma every_pass_keeps_the_arrays_sets_witness :
  let env := Scenario.env_with Scenario.paid
               (Scenario.completed Scenario.session1 50000) in
  arrays_are_sets (final (checkForStuckPayments env (Scenario.world pending))) /\
  arrays_are_sets (final (stripeWebhook env None "" (Scenario.world pending))).
Proof.
  pose proof (every_pass_keeps_the_arrays_sets
                (Scenario.env_with Scenario.paid
                   (Scenario.completed Scenario.session1 50000))
                (Scenario.world pending)) as H.
  destruct H as (Hsweep & Hhook & _).
  - split; intros i x Hx;
      cbn [users courses Scenario.world Scenario.world_with] in Hx;
      apply lookup_singleton_Some in Hx as [_ <-]; apply NoDup_nil_2.
  - split; [exact Hsweep | exact (Hhook None "")].
Defined.

(** X4.  [verifyPaymentWithStripe] never throws and changes nothing in
    the store, and it reports a payment verified exactly when the id
    starts with [cs_] and the provider, asked about it, returned a
    session whose payment status is [paid]. *)
Theorem verified_exactly_when_provider_says_paid env i w :
  exists r w',
    verifyPaymentWithStripe env i w = Ok r w' /\
    purchases w' = purchases w /\ users w' = users w /\ courses w' = courses w /\
    commands w' = commands w /\
    (verified r = true <->
     exists pid s,
       i = Some pid /\ String.prefix "cs_" pid = true /\
       sessions_retrieve env (tick w) i = Resolved s /\
       payment_status s = "paid").
Proof.
  unfold verifyPaymentWithStripe, try_catch, bind, stripe_retrieve.
  destruct i as [pid|].
  - destruct (String.prefix "cs_" pid) eqn:Hcs.
    + destruct (sessions_retrieve env (tick w) (Some pid)) as [s|e] eqn:Hs.
      * do 2 eexists. split; [reflexivity|]. repeat split; cbn [verified].
        -- intros Hv. apply String.eqb_eq in Hv. exists pid, s. auto.
        -- intros (pid' & s' & Hi & _ & Hs' & Hpaid). injection Hs' as <-.
           apply String.eqb_eq. exact Hpaid.
      * do 2 eexists. split; [reflexivity|]. repeat split; cbn [verified].
        -- discriminate.
        -- intros (pid' & s' & _ & _ & Hs' & _). discriminate.
    + do 2 eexists. split; [reflexivity|]. repeat split; cbn [verified].
      * discriminate.
      * intros (pid' & s' & Hi & Hcs' & _). injection Hi as <-. congruence.
  - do 2 eexists. split; [reflexivity|]. repeat split; cbn [verified].
    + discriminate.
    + intros (pid' & s' & Hi & _). discriminate.
Qed.

(** ** Loops that do not stop at a failure *)

Lemma try_catch_ret_returns {A} (m : M A) (f : string -> A) w :
  exists a w', try_catch m (fun e => ret (f e)) w = Ok a w'.
Proof. unfold try_catch, ret. destruct (m w); eauto. Qed.

Lemma forEach_returns {A} (l : list A) (body : A -> M unit) w :
  (forall x w0, exists w1, body x w0 = Ok tt w1) ->
  exists w', forEach l body w = Ok tt w'.
Proof.
  intros Hbody. revert w. induction l as [|x l IH]; intros w; simpl.
  - unfold ret. eauto.
  - unfold bind. destruct (Hbody x w) as [w1 ->]. apply IH.
Qed.

Lemma checkStuckPayment_returns env d w :
  exists w', checkStuckPayment env d w = Ok tt w'.
Proof.
  unfold checkStuckPayment.
  destruct (try_catch_ret_returns
              (let* stripeCheck := verifyPaymentWithStripe env (paymentId (fields d)) in
               if verified stripeCheck
               then let* _ := updatePurchaseToSucceeded env d in ret tt
               else
                 let* t := now env in
                 if createdAt (fields d) <? t - 30 * 60 * 1000
                 then
                   try_catch
                     (let* s := stripe_retrieve env (paymentId (fields d)) in
                      if String.eqb (payment_status s) "paid"
                      then let* _ := updatePurchaseToSucceeded env d in ret tt
                      else ret tt)
                     (fun _ => ret tt)
                 else ret tt)
              (fun _ => tt) w) as ([] & w' & H).
  exists w'. exact H.
Qed.

(** The query of the sweep: pending, and created more than two minutes
    before [t]. *)
Lemma is_stuck_spec t p :
  is_pending p && (createdAt p <? t - 2 * 60 * 1000) = true <->
  status p = pending /\ createdAt p < t - 120000.
Proof.
  rewrite andb_true_iff. unfold is_pending.
  rewrite bool_decide_eq_true, Z.ltb_lt. change (2 * 60 * 1000) with 120000.
  reflexivity.
Qed.

(** X5.  [checkForStuckPayments] never throws.  When its query is
    answered it returns the number of purchases that are pending and
    were created more than two minutes before, whatever failed while
    they were processed; when the query fails it returns 0. *)
Theorem sweep_counts_the_stuck_payments env w :
  exists n w',
    checkForStuckPayments env w = Ok n w' /\
    n = if db_up env (tick w)
        then length (filter (fun p => status p = pending /\
                                      createdAt p < Date_now env (tick w) - 120000)
                            (purchases w))
        else 0%nat.
Proof.
  unfold checkForStuckPayments, try_catch, bind at 1, now.
  unfold bind at 1, find_populate, bind at 1, db_roundtrip.
  destruct (db_up env (tick w)); [|do 2 eexists; split; reflexivity].
  cbn [purchases courses advance]. unfold bind.
  match goal with
  | |- context [forEach ?l ?b (advance w)] =>
      destruct (forEach_returns l b (advance w)) as [w' Hw'];
        [intros x w0; apply checkStuckPayment_returns|]
  end.
  rewrite Hw'. do 2 eexists. split; [reflexivity|].
  rewrite length_map. f_equal. apply list_filter_iff. intros p.
  apply is_stuck_spec.
Qed.

Lemma fixStuckPayment_returns env d w :
  exists t w', fixStuckPayment env d w = Ok t w'.
Proof.
  unfold fixStuckPayment. apply try_catch_ret_returns with (f := fun _ => Errored).
Qed.

Lemma tallied_count t s : tallied (count t s) = S (tallied s).
Proof. destruct t; unfold tallied; cbn; lia. Qed.

Lemma fixEach_tallies env l s w :
  exists s' w',
    fixEach env l s w = Ok s' w' /\ tallied s' = (tallied s + length l)%nat.
Proof.
  revert s w. induction l as [|d l IH]; intros s w; simpl.
  - do 2 eexists. split; [reflexivity|]. lia.
  - unfold bind. destruct (fixStuckPayment_returns env d w) as (t & w1 & ->).
    destruct (IH (count t s) w1) as (s' & w' & -> & Hs').
    do 2 eexists. split; [reflexivity|]. rewrite Hs', tallied_count. lia.
Qed.

(** X6.  [fixAllStuckPayments] never throws, and its summary accounts for
    every pending payment it found: the numbers of fixed, still pending
    and failed payments add up to the number of pending purchases in the
    store.  It ends without a summary only when the database does not
    answer or nothing is pending. *)
Theorem fixAllStuckPayments_accounts_for_every_payment env w :
  let found := filter (fun p => status p = pending) (purchases w) in
  exists r w',
    fixAllStuckPayments env w = Ok r w' /\
    match r with
    | Some s => tallied s = length found /\ found <> []
    | None => db_up env (tick w) = false \/ db_up env (S (tick w)) = false \/
              found = []
    end.
Proof.
  intros found.
  assert (Hfound : filter (fun p => is_pending p = true) (purchases w) = found).
  { apply list_filter_iff. intros p. unfold is_pending.
    apply bool_decide_eq_true. }
  unfold fixAllStuckPayments, try_catch, bind at 1, db_roundtrip.
  destruct (db_up env (tick w));
    [|do 2 eexists; split; [reflexivity|left; reflexivity]].
  unfold bind at 1, find_populate, bind at 1, db_roundtrip. cbn [tick advance].
  destruct (db_up env (S (tick w)));
    [|do 2 eexists; split; [reflexivity|right; left; reflexivity]].
  cbn [purchases courses advance]. rewrite Hfound. clear Hfound. clearbody found.
  destruct found as [|p ps].
  - do 2 eexists. split; [reflexivity|]. right. right. reflexivity.
  - cbn [map]. unfold bind.
    match goal with
    | |- context [fixEach env ?l ?s ?w0] =>
        destruct (fixEach_tallies env l s w0) as (s' & w' & -> & Hs')
    end.
    do 2 eexists. split; [reflexivity|]. split; [|discriminate].
    rewrite Hs'. cbn. rewrite length_map. reflexivity.
Qed.

(** ** Which purchases a sweep may change *)

Lemma keeps_fixEach env J l s :
  (forall d, d ∈ l -> keeps J (fixStuckPayment env d)) ->
  keeps J (fixEach env l s).
Proof.
  revert s. induction l as [|d l IH]; intros s H; simpl.
  - apply keeps_ret.
  - apply keeps_bind; [apply H; left|].
    intros t. apply IH. intros d' Hd'. apply H. right. exact Hd'.
Qed.

(** The documents a query returns are the stored purchases that satisfy
    it; with unique ids, the one with the id of [p] is [p]. *)
Lemma find_populate_docs env (I : list CoursePurchase -> Prop) q p :
  hoare (on_purchases (fun ps => (stored (_id p) ps = Some p /\ I ps) /\ unique_ids ps))
        (find_populate env q)
        (fun docs w =>
           on_purchases (fun ps => stored (_id p) ps = Some p /\ I ps) w /\
           forall d, d ∈ docs -> _id (fields d) = _id p ->
                     fields d = p /\ q p = true)
        (fun _ => on_purchases (fun ps => stored (_id p) ps = Some p /\ I ps)).
Proof.
  intros w0 [[Hs0 HI0] Hu0]. unfold find_populate, bind, db_roundtrip.
  destruct (db_up env (tick w0)); simpl; [|split; assumption].
  split; [split; assumption|]. intros d Hd Hid.
  apply list_elem_of_fmap in Hd as (x & -> & Hx).
  apply list_elem_of_filter in Hx as [Hq Hx]. simpl in *.
  apply stored_elem in Hs0 as [Hin _].
  assert (x = p) as -> by (eapply unique_ids_eq; eassumption).
  auto.
Qed.

Lemma sweep_keeps_unless_stuck_and_paid env w p :
  unique_ids (purchases w) ->
  stored (_id p) (purchases w) = Some p ->
  (status p = pending -> createdAt p < Date_now env (tick w) - 120000 ->
   never_paid env (paymentId p)) ->
  stored (_id p) (purchases (final (checkForStuckPayments env w))) = Some p.
Proof.
  intros Hu Hp Hnp.
  set (I := fun ps => stored (_id p) ps = Some p).
  assert (H : hoare (fun w0 => on_purchases (fun ps => (I ps /\ True) /\ unique_ids ps) w0
                               /\ tick w0 = tick w)
                    (checkForStuckPayments env)
                    (fun _ => on_purchases I) (fun _ => on_purchases I)).
  { unfold checkForStuckPayments.
    eapply hoare_try_catch with (E' := fun _ => on_purchases I);
      [|intros e; apply keeps_ret].
    eapply hoare_bind with
      (Q := fun t w0 => on_purchases (fun ps => (I ps /\ True) /\ unique_ids ps) w0
                        /\ t = Date_now env (tick w)).
    { intros w0 [Hw0 Ht]. unfold now. rewrite Ht. split; [exact Hw0|reflexivity]. }
    intros t. apply hoare_pure. intros ->.
    eapply hoare_bind with
      (Q := fun docs w0 => on_purchases I w0 /\
              forall d, d ∈ docs -> _id (fields d) = _id p ->
                fields d = p /\
                is_pending p && (createdAt p <? Date_now env (tick w) - 2 * 60 * 1000)
                  = true).
    - eapply hoare_conseq; [apply (find_populate_docs env (fun _ => True))| | |].
      + intros w0 H0. exact H0.
      + intros docs w0 [[H0 _] Hd]. split; [exact H0 | exact Hd].
      + intros e w0 [H0 _]. exact H0.
    - intros docs. apply hoare_pure. intros Hdocs.
      apply keeps_bind; [|intros _; apply keeps_ret].
      apply keeps_forEach. intros d Hd. apply keeps_checkStuckPayment.
      destruct (decide (_id (fields d) = _id p)) as [Heq|Hne].
      + right. destruct (Hdocs d Hd Heq) as [-> Hq].
        apply is_stuck_spec in Hq as [Hst Hage]. apply Hnp; assumption.
      + left. intros ps Hps. unfold I in *.
        rewrite stored_overwrite_ne; [exact Hps | exact Hne]. }
  specialize (H w (conj (conj (conj Hp Logic.I) Hu) eq_refl)).
  destruct (checkForStuckPayments env w); exact H.
Qed.

(** X7.  A pass of [checkForStuckPayments] changes the stored record of
    a purchase only if the purchase is pending, was created more than
    two minutes before the pass started, and the provider reports its
    session paid.  In particular a purchase no older than two minutes is
    left alone even when the provider already reports it paid. *)
Theorem sweep_changes_only_stuck_paid_purchases env w p :
  unique_ids (purchases w) ->
  stored (_id p) (purchases w) = Some p ->
  (status p = pending -> createdAt p < Date_now env (tick w) - 120000 ->
   never_paid env (paymentId p)) ->
  stored (_id p) (purchases (final (checkForStuckPayments env w))) = Some p.
Proof. exact (sweep_keeps_unless_stuck_and_paid env w p). Qed.

(** The scenario of X7: the purchase was created exactly two minutes
    before the pass and the provider reports it paid. *)
Lemma sweep_changes_only_stuck_paid_purchases_witness :
  let env := Scenario2.env_at 120000 Scenario.paid Scenario.no_event in
  stored Scenario.purchase1
         (purchases (final (checkForStuckPayments env (Scenario.world pending))))
    = Some (Scenario.the_purchase pending).
Proof.
  apply (sweep_changes_only_stuck_paid_purchases
           (Scenario2.env_at 120000 Scenario.paid Scenario.no_event)
           (Scenario.world pending) (Scenario.the_purchase pending)).
  - apply NoDup_singleton.
  - reflexivity.
  - intros _ Hage. cbn in Hage. lia.
Defined.

(** ** Which purchases the repair script may change *)

Section Repair.

Context (env : Env) (I : list CoursePurchase -> Prop).

Lemma keeps_fixStuckPayment d :
  (forall ps, I ps -> I (overwrite (set_status succeeded (fields d)) ps)) \/
  (never_paid env (paymentId (fields d)) /\ never_old env (fields d)) ->
  keeps (on_purchases I) (fixStuckPayment env d).
Proof.
  intros [HI|[Hnp Hyoung]]; unfold fixStuckPayment;
    (apply keeps_try_catch; [|intros e; apply keeps_ret]).
  - apply keeps_bind; [apply keeps_now|]. intros t.
    apply keeps_bind.
    + destruct (is_checkout_session_id _); [|apply keeps_ret].
      apply keeps_try_catch; [|intros e; apply keeps_ret].
      apply keeps_bind; [apply keeps_stripe_retrieve|]. intros s. apply keeps_ret.
    + intros b. destruct (b || _); [|apply keeps_ret].
      apply keeps_bind; [apply keeps_save, HI|]. intros _.
      apply keeps_bind.
      * apply keeps_try_catch; [|intros e; apply keeps_ret].
        destruct (courseId_id _); [apply keeps_User_addToSet | apply keeps_throw].
      * intros _. apply keeps_bind; [|intros _; apply keeps_ret].
        apply keeps_try_catch; [|intros e; apply keeps_ret].
        destruct (courseId_id _); [apply keeps_Course_addToSet | apply keeps_throw].
  - eapply hoare_bind with
      (Q := fun t w => on_purchases I w /\ t - createdAt (fields d) <= 3600000).
    { intros w Hw. unfold now. split; [exact Hw | apply Hyoung]. }
    intros t. apply hoare_pure. intros Ht.
    eapply hoare_bind with (Q := fun b w => on_purchases I w /\ b = false).
    + destruct (is_checkout_session_id _); [|apply hoare_ret; auto].
      eapply hoare_try_catch with (E' := fun _ => on_purchases I);
        [|intros e; apply hoare_ret; auto].
      eapply hoare_bind; [apply (retrieve_unpaid env I _ Hnp)|]. intros s.
      apply hoare_pure. intros Hs. apply hoare_ret. auto.
    + intros b. apply hoare_pure. intros ->.
      replace (t - createdAt (fields d) >? 60 * 60 * 1000) with false
        by (symmetry; rewrite Z.gtb_ltb; apply Z.ltb_ge; lia).
      apply keeps_ret.
Qed.

End Repair.

Lemma repair_keeps_young_unpaid env w p :
  unique_ids (purchases w) ->
  stored (_id p) (purchases w) = Some p ->
  (status p = pending -> never_paid env (paymentId p) /\ never_old env p) ->
  stored (_id p) (purchases (final (fixAllStuckPayments env w))) = Some p.
Proof.
  intros Hu Hp Hsafe.
  set (I := fun ps => stored (_id p) ps = Some p).
  assert (H : hoare (on_purchases (fun ps => (I ps /\ True) /\ unique_ids ps))
                    (fixAllStuckPayments env)
                    (fun _ => on_purchases I) (fun _ => on_purchases I)).
  { unfold fixAllStuckPayments.
    eapply hoare_try_catch with (E' := fun _ => on_purchases I);
      [|intros e; apply keeps_ret].
    eapply hoare_bind with
      (Q := fun _ => on_purchases (fun ps => (I ps /\ True) /\ unique_ids ps)).
    { intros w0 H0. unfold db_roundtrip.
      destruct (db_up env (tick w0)); [exact H0 | exact (proj1 (proj1 H0))]. }
    intros _.
    eapply hoare_bind with
      (Q := fun docs w0 => on_purchases I w0 /\
              forall d, d ∈ docs -> _id (fields d) = _id p ->
                        fields d = p /\ is_pending p = true).
    - eapply hoare_conseq; [apply (find_populate_docs env (fun _ => True))| | |].
      + intros w0 H0. exact H0.
      + intros docs w0 [[H0 _] Hd]. split; [exact H0 | exact Hd].
      + intros e w0 [H0 _]. exact H0.
    - intros docs. apply hoare_pure. intros Hdocs.
      assert (Hloop : forall s, keeps (on_purchases I) (fixEach env docs s)).
      { intros s. apply keeps_fixEach. intros d Hd. apply keeps_fixStuckPayment.
        destruct (decide (_id (fields d) = _id p)) as [Heq|Hne].
        - right. destruct (Hdocs d Hd Heq) as [-> Hq].
          apply Hsafe. apply bool_decide_eq_true in Hq. exact Hq.
        - left. intros ps Hps. unfold I in *.
          rewrite stored_overwrite_ne; [exact Hps | exact Hne]. }
      destruct docs as [|d docs]; [apply keeps_ret|].
      apply keeps_bind; [apply Hloop|]. intros s. apply keeps_ret. }
  specialize (H w (conj (conj Hp Logic.I) Hu)).
  destruct (fixAllStuckPayments env w); exact H.
Qed.

(** X8.  [fixAllStuckPayments] changes the stored record of a purchase
    only if the purchase is pending and either the provider reports its
    session paid or the purchase is more than one hour old: a pending
    purchase of at most one hour that the provider does not report paid
    is left as it is, and so is every purchase that is not pending. *)
Theorem repair_changes_only_old_or_paid_purchases env w p :
  unique_ids (purchases w) ->
  stored (_id p) (purchases w) = Some p ->
  (status p = pending -> never_paid env (paymentId p) /\ never_old env p) ->
  stored (_id p) (purchases (final (fixAllStuckPayments env w))) = Some p.
Proof. exact (repair_keeps_young_unpaid env w p). Qed.

(** The scenario of X8: the purchase is exactly one hour old and the
    provider reports it unpaid. *)
Lemma repair_changes_only_old_or_paid_purchases_witness :
  let env := Scenario2.env_at 3600000 Scenario.unpaid Scenario.no_event in
  stored Scenario.purchase1
         (purchases (final (fixAllStuckPayments env (Scenario.world pending))))
    = Some (Scenario.the_purchase pending).
Proof.
  apply (repair_changes_only_old_or_paid_purchases
           (Scenario2.env_at 3600000 Scenario.unpaid Scenario.no_event)
           (Scenario.world pending) (Scenario.the_purchase pending)).
  - apply NoDup_singleton.
  - reflexivity.
  - intros _. split.
    + intros t s Hs. cbn in Hs. injection Hs as <-. reflexivity.
    + intros t. cbn. lia.
Defined.



(** X10.  Without the force flag [fixPayment] changes nothing unless the
    provider confirms the payment: when the Stripe key is not
    configured, or the payment-session id does not start with [cs_], or
    the provider does not report the session paid, it returns [false]
    and purchases, users, courses and update commands are as before. *)
Theorem unforced_fix_needs_confirmation env d w :
  truthy (STRIPE_SECRET_KEY env) = false \/
  is_checkout_session_id (paymentId (fields d)) = false \/
  never_paid env (paymentId (fields d)) ->
  exists w',
    fixPayment env d false w = Ok false w' /\
    purchases w' = purchases w /\ users w' = users w /\ courses w' = courses w /\
    commands w' = commands w.
Proof.
  intros H. unfold fixPayment.
  destruct (negb (is_pending (fields d))); [eexists; split; [reflexivity|auto]|].
  assert (Hm : exists w0,
             (if truthy (STRIPE_SECRET_KEY env)
                 && is_checkout_session_id (paymentId (fields d))
              then
                try_catch
                  (let* s := stripe_retrieve env (paymentId (fields d)) in
                   ret (String.eqb (payment_status s) "paid"))
                  (fun _ => ret false)
              else ret false) w = Ok false w0 /\
             purchases w0 = purchases w /\ users w0 = users w /\
             courses w0 = courses w /\ commands w0 = commands w).
  { destruct (truthy (STRIPE_SECRET_KEY env)) eqn:Hkey;
      [|eexists; split; [reflexivity|auto]].
    destruct (is_checkout_session_id (paymentId (fields d))) eqn:Hcs;
      [|eexists; split; [reflexivity|auto]].
    destruct H as [H|[H|Hnp]]; [discriminate|discriminate|].
    cbn [andb]. unfold try_catch, bind, stripe_retrieve.
    destruct (sessions_retrieve env (tick w) (paymentId (fields d))) as [s|e] eqn:Hs.
    - unfold ret. rewrite (Hnp _ _ Hs). eexists. split; [reflexivity|auto].
    - eexists. split; [reflexivity|auto]. }
  destruct Hm as (w0 & Hm & Hrest).
  unfold bind at 1. rewrite Hm. cbn [orb]. eexists. split; [reflexivity | exact Hrest].
Qed.

(** The scenario of X10: the provider reports the session unpaid. *)
Lemma unforced_fix_needs_confirmation_witness :
  let env := Scenario.env_with Scenario.unpaid Scenario.no_event in
  exists w',
    fixPayment env (loaded (Scenario.the_purchase pending)) false
               (Scenario.world pending) = Ok false w' /\
    purchases w' = purchases (Scenario.world pending) /\
    users w' = users (Scenario.world pending) /\
    courses w' = courses (Scenario.world pending) /\
    commands w' = commands (Scenario.world pending).
Proof.
  apply (unforced_fix_needs_confirmation
           (Scenario.env_with Scenario.unpaid Scenario.no_event)
           (loaded (Scenario.the_purchase pending)) (Scenario.world pending)).
  right. right. intros t s Hs. cbn in Hs. injection Hs as <-. reflexivity.
Defined.

Lemma head_filter_None {A} (P : A -> Prop) `{!forall x, Decision (P x)} (l : list A) :
  head (filter P l) = None <-> forall x, x ∈ l -> ~ P x.
Proof.
  split.
  - intros Hhead x Hx HP.
    assert (Hin : x ∈ filter P l) by (apply list_elem_of_filter; auto).
    destruct (filter P l); [inversion Hin | discriminate].
  - intros Hnone. destruct (filter P l) as [|x l'] eqn:Hf; [reflexivity|].
    assert (Hin : x ∈ filter P l) by (rewrite Hf; left).
    apply list_elem_of_filter in Hin as [HP Hx]. destruct (Hnone x Hx HP).
Qed.


(** The scenario of [fixPayment_forced] (X12): the provider reports the
    purchase unpaid, the administrator forces the fix. *)
Lemma fixPayment_forced_witness :
  let env := Scenario.env_with Scenario.unpaid Scenario.no_event in
  exists w',
    fixPayment env (loaded (Scenario.the_purchase pending)) true
               (Scenario.world pending) = Ok true w' /\
    stored Scenario.purchase1 (purchases w')
      = Some (Scenario.the_purchase succeeded) /\
    enrolled_both_ways w' (Scenario.the_purchase pending).
Proof.
  apply (fixPayment_forced
           (Scenario.env_with Scenario.unpaid Scenario.no_event)
           (Scenario.world pending) (Scenario.the_purchase pending)
           (mkUser []) (mkCourse [])).
  - intros t. reflexivity.
  - reflexivity.
  - reflexivity.
  - reflexivity.
  - reflexivity.
Defined.

(** The scenario of [final_status_kept_by_guarded_paths] (X13): the one
    purchase is stored as [failed] and the provider reports it paid. *)
Lemma final_status_kept_by_guarded_paths_witness :
  let env := Scenario.env_with Scenario.paid Scenario.no_event in
  let w := Scenario.world failed in
  stored Scenario.purchase1 (purchases (final (checkForStuckPayments env w)))
    = Some (Scenario.the_purchase failed) /\
  (forall force, fixPayment env (loaded (Scenario.the_purchase failed)) force w
                 = Ok false w) /\
  purchases (final (fix_payment_route env Scenario.purchase1 w)) = purchases w /\
  purchases (final (followUpCheck env Scenario.purchase1 w)) = purchases w.
Proof.
  apply (final_status_kept_by_guarded_paths
           (Scenario.env_with Scenario.paid Scenario.no_event)
           (Scenario.world failed) (Scenario.the_purchase failed)).
  - apply NoDup_singleton.
  - reflexivity.
  - discriminate.
Defined.

(** ** The most recent pending purchases *)

Lemma insert_recent_perm d l : insert_recent d l ≡ₚ d :: l.
Proof.
  induction l as [|x l IH]; simpl; [reflexivity|].
  destruct (_ <=? _); [reflexivity|].
  rewrite IH. apply Permutation_swap.
Qed.

Lemma sort_recent_perm l : sort_recent l ≡ₚ l.
Proof.
  unfold sort_recent. induction l as [|d l IH]; simpl; [reflexivity|].
  rewrite insert_recent_perm, IH. reflexivity.
Qed.

Lemma insert_recent_sorted d l :
  StronglySorted not_older l -> StronglySorted not_older (insert_recent d l).
Proof.
  induction 1 as [|x l Hl IH Hx]; simpl.
  - repeat constructor.
  - destruct (createdAt (fields x) <=? createdAt (fields d)) eqn:Hle.
    + apply Z.leb_le in Hle. constructor.
      * constructor; assumption.
      * constructor; [exact Hle|].
        eapply Forall_impl; [exact Hx|]. intros y Hy. unfold not_older in *. lia.
    + apply Z.leb_gt in Hle. constructor; [exact IH|].
      rewrite insert_recent_perm. constructor; [|exact Hx].
      unfold not_older. lia.
Qed.

Lemma sort_recent_sorted l : StronglySorted not_older (sort_recent l).
Proof.
  unfold sort_recent. induction l as [|d l IH]; simpl.
  - constructor.
  - apply insert_recent_sorted, IH.
Qed.

(** X14.  The last-resort query of the webhook returns the most recently
    created pending purchases, at most five, most recent first: the
    first five documents of a rearrangement of all pending purchases
    that is sorted by creation date, newest first.  So its first
    document, the one the webhook takes, is a pending purchase at least
    as recent as every other pending purchase. *)
Theorem find_recent_pending_returns_the_newest env w :
  db_up env (tick w) = true ->
  exists sorted,
    find_recent_pending env w = Ok (take 5 sorted) (advance w) /\
    sorted ≡ₚ map loaded (filter (fun p => status p = pending) (purchases w)) /\
    StronglySorted not_older sorted /\
    (forall d, head (take 5 sorted) = Some d ->
       fields d ∈ purchases w /\ status (fields d) = pending /\
       forall p, p ∈ purchases w -> status p = pending ->
                 createdAt p <= createdAt (fields d)).
Proof.
  intros Hup.
  assert (Hfound : filter (fun p => is_pending p = true) (purchases w)
                   = filter (fun p => status p = pending) (purchases w)).
  { apply list_filter_iff. intros p. unfold is_pending. apply bool_decide_eq_true. }
  set (found := map loaded (filter (fun p => status p = pending) (purchases w))).
  exists (sort_recent found).
  assert (Hperm : sort_recent found ≡ₚ found) by apply sort_recent_perm.
  pose proof (sort_recent_sorted found) as Hsorted.
  repeat split.
  - unfold find_recent_pending, bind, find, bind, db_roundtrip. rewrite Hup.
    cbn [purchases advance]. rewrite Hfound. reflexivity.
  - exact Hperm.
  - exact Hsorted.
  - destruct (sort_recent found) as [|x l] eqn:Hs; [discriminate|].
    cbn in H. injection H as <-.
    assert (Hx : x ∈ found) by (rewrite <- Hperm; left).
    apply list_elem_of_fmap in Hx as (p & -> & Hp).
    apply list_elem_of_filter in Hp. apply Hp.
  - destruct (sort_recent found) as [|x l] eqn:Hs; [discriminate|].
    cbn in H. injection H as <-.
    assert (Hx : x ∈ found) by (rewrite <- Hperm; left).
    apply list_elem_of_fmap in Hx as (p & -> & Hp).
    apply list_elem_of_filter in Hp. apply Hp.
  - intros p Hp Hst.
    destruct (sort_recent found) as [|x l] eqn:Hs; [discriminate|].
    cbn in H. injection H as <-.
    assert (Hin : loaded p ∈ x :: l).
    { rewrite Hperm. apply list_elem_of_fmap_2. apply list_elem_of_filter. auto. }
    apply StronglySorted_inv in Hsorted as [_ Hall].
    apply elem_of_cons in Hin as [<-|Hin]; [cbn; lia|].
    rewrite Forall_forall in Hall. apply (Hall (loaded p) Hin).
Qed.

(** The scenario of X14: two pending purchases, the second the newer. *)
Lemma find_recent_pending_returns_the_newest_witness :
  let env := Scenario.env_with Scenario.unpaid Scenario.no_event in
  let older := Scenario.the_purchase pending in
  let newer := mkPurchase "p2" Scenario.course1 Scenario.user1 500 pending None 7 in
  exists sorted,
    find_recent_pending env (Scenario.world_with [older; newer])
      = Ok (take 5 sorted) (advance (Scenario.world_with [older; newer])) /\
    head (take 5 sorted) = Some (loaded newer).
Proof.
  destruct (find_recent_pending_returns_the_newest
              (Scenario.env_with Scenario.unpaid Scenario.no_event)
              (Scenario.world_with
                 [Scenario.the_purchase pending;
                  mkPurchase "p2" Scenario.course1 Scenario.user1 500 pending None 7])
              eq_refl) as (sorted & Hfind & _).
  exists sorted. split; [exact Hfind|].
  cbn in Hfind. injection Hfind as <-. reflexivity.
Defined.

(** ** The metadata fallback of the webhook *)

Lemma findOne_none env (q : CoursePurchase -> bool) w :
  db_always_up env ->
  (forall x, x ∈ purchases w -> q x = false) ->
  findOne env q w = Ok None (advance w).
Proof.
  intros Hup Hnone. rewrite (findOne_up env Hup).
  replace (head (filter (fun p => q p = true) (purchases w))) with (@None CoursePurchase);
    [reflexivity|].
  symmetry. apply head_filter_None. intros x Hx Hq. rewrite (Hnone x Hx) in Hq.
  discriminate.
Qed.

(** X15.  When no stored purchase carries the session id of a
    completion event, nor contains its first twenty characters, and the
    event's metadata names a course and a user with exactly one pending
    purchase, the webhook reconciles that purchase: it answers 200 and
    the purchase is stored as [succeeded], with the provider's amount
    and with the event's session id as its payment-session id. *)
Theorem webhook_finds_purchase_by_metadata env sig raw secret sess c u w p :
  db_always_up env ->
  WEBHOOK_ENDPOINT_SECRET env = Some secret ->
  secret <> "" ->
  constructEvent env raw sig secret
    = Resolved (mkEvent "checkout.session.completed" sess) ->
  metadata sess = Some (mkMetadata (Some c) (Some u)) ->
  c <> "" -> u <> "" ->
  (forall q, q ∈ purchases w -> paymentId_is (session_id sess) q = false) ->
  (forall q, q ∈ purchases w ->
             paymentId_matches (substring 0 20 (session_id sess)) q = false) ->
  p ∈ purchases w ->
  courseId p = c -> userId p = u -> status p = pending ->
  (forall q, q ∈ purchases w ->
             courseId q = c -> userId q = u -> status q = pending -> q = p) ->
  exists w',
    stripeWebhook env sig raw w = Ok (mkResponse 200 Received) w' /\
    stored (_id p) (purchases w')
      = Some (mkPurchase (_id p) c u (amount_of_total (amount_total sess))
                         succeeded (Some (session_id sess)) (createdAt p)).
Proof.
  intros Hup Hsec Hne Hev Hmd Hc Hu Hexact Hpartial Hp Hpc Hpu Hst Hun.
  assert (Htruthy : forall s, s <> "" -> truthy (Some s) = true).
  { intros s Hs. simpl. destruct (String.eqb s "") eqn:E; [|reflexivity].
    apply String.eqb_eq in E. contradiction. }
  unfold stripeWebhook. rewrite Hsec, (Htruthy secret Hne), Hev.
  cbn [event_type data_object]. rewrite String.eqb_refl.
  unfold try_catch, bind at 1.
  unfold webhook_purchase, bind at 1.
  rewrite (findOne_none env _ w Hup Hexact).
  unfold bind at 1. rewrite (findOne_none env _ (advance w) Hup Hpartial).
  unfold bind at 1. rewrite Hmd. cbn [md_courseId md_userId].
  rewrite (Htruthy c Hc), (Htruthy u Hu). cbn [andb].
  unfold bind at 1. rewrite (findOne_up env Hup).
  cbn [purchases advance].
  rewrite (findOne_unique
             (fun x => String.eqb (courseId x) c && String.eqb (userId x) u
                       && is_pending x) p (purchases w) Hp).
  2: { rewrite Hpc, Hpu, !String.eqb_refl. unfold is_pending.
       rewrite bool_decide_eq_true_2 by exact Hst. reflexivity. }
  2: { intros x Hx Hq. apply andb_true_iff in Hq as [Hq Hpend].
       apply andb_true_iff in Hq as [Hqc Hqu].
       apply String.eqb_eq in Hqc, Hqu. apply bool_decide_eq_true in Hpend.
       apply Hun; assumption. }
  cbn [fmap option_fmap option_map ret]. unfold bind at 1.
  rewrite (updatePurchaseToSucceeded_up_bare env Hup) by reflexivity.
  destruct (updatePurchaseToSucceeded_returns env
              (populated_in
                 (courses (advance (advance (advance w))))
                 (fields (on_fields
                            (set_amount (amount_of_total (amount_total sess)))
                            (on_fields (set_paymentId (session_id sess)) (loaded p)))))
              (advance (advance (advance (advance w)))) Hup)
    as (d1 & w1 & Hok).
  { cbn. apply stored_is_Some, Hp. }
  pose proof Hok as Hok'.
  rewrite (updatePurchaseToSucceeded_up env Hup) in Hok'.
  2: { unfold populated_in. cbn. destruct (bool_decide _); discriminate. }
  cbv zeta in Hok'. rewrite (save_up env Hup) in Hok'.
  rewrite Hok. eexists. split; [reflexivity|].
  destruct (stored _ _) as [x|] eqn:Hx in Hok'; [|discriminate].
  injection Hok' as _ <-. cbn [purchases].
  rewrite <- Hpc, <- Hpu.
  apply (stored_overwrite_eq
           (mkPurchase (_id p) (courseId p) (userId p)
                       (amount_of_total (amount_total sess)) succeeded
                       (Some (session_id sess)) (createdAt p))).
  cbn [_id]. cbn in Hx. rewrite Hx. eauto.
Qed.

(** The scenario of X15: the stored purchase carries another session id
    and the event's metadata names its course and user. *)
Lemma webhook_finds_purchase_by_metadata_witness :
  let env := Scenario.env_with Scenario.unpaid
               (Scenario.completed Scenario.session1' 48000) in
  let p := mkPurchase Scenario.purchase1 Scenario.course1 Scenario.user1 500
                      pending (Some "cs_test_another_session") 0 in
  exists w',
    stripeWebhook env None "" (Scenario.world_with [p])
      = Ok (mkResponse 200 Received) w' /\
    stored Scenario.purchase1 (purchases w')
      = Some (mkPurchase Scenario.purchase1 Scenario.course1 Scenario.user1
                         (amount_of_total 48000) succeeded
                         (Some Scenario.session1') 0).
Proof.
  apply (webhook_finds_purchase_by_metadata
           (Scenario.env_with Scenario.unpaid
              (Scenario.completed Scenario.session1' 48000))
           None "" "whsec_test"
           (Scenario.session_of Scenario.session1' "paid" 48000)
           Scenario.course1 Scenario.user1
           (Scenario.world_with
              [mkPurchase Scenario.purchase1 Scenario.course1 Scenario.user1 500
                          pending (Some "cs_test_another_session") 0])
           (mkPurchase Scenario.purchase1 Scenario.course1 Scenario.user1 500
                       pending (Some "cs_test_another_session") 0)).
  - intros t. reflexivity.
  - reflexivity.
  - discriminate.
  - reflexivity.
  - reflexivity.
  - discriminate.
  - discriminate.
  - intros q Hq. apply list_elem_of_singleton in Hq. subst q. reflexivity.
  - intros q Hq. apply list_elem_of_singleton in Hq. subst q. reflexivity.
  - left.
  - reflexivity.
  - reflexivity.
  - reflexivity.
  - intros q Hq _ _ _. apply list_elem_of_singleton in Hq. exact Hq.
Defined.

(** ** How much a completion event may change *)

Lemma keeps_find_recent_pending env I :
  keeps (on_purchases I) (find_recent_pending env).
Proof.
  unfold find_recent_pending. apply keeps_bind; [apply keeps_find|].
  intros l. apply keeps_ret.
Qed.

(** The lookup of the webhook only reads. *)
Lemma keeps_webhook_purchase env I sess :
  keeps (on_purchases I) (webhook_purchase env sess).
Proof.
  unfold webhook_purchase.
  apply keeps_bind; [apply keeps_findOne|]. intros [d|]; [apply keeps_ret|].
  apply keeps_bind; [apply keeps_findOne|]. intros r2.
  apply keeps_bind.
  - destruct r2 as [d2|]; [apply keeps_ret|].
    destruct (metadata sess) as [md|]; [|apply keeps_ret].
    destruct (md_courseId md) as [c|]; [|apply keeps_ret].
    destruct (md_userId md) as [u|]; [|apply keeps_ret].
    destruct (truthy (Some c) && truthy (Some u)); [|apply keeps_ret].
    apply keeps_bind; [apply keeps_findOne|]. intros [d3|]; [apply keeps_ret|].
    apply keeps_bind; [apply keeps_find_recent_pending|].
    intros [|d4 l]; apply keeps_ret.
  - intros [d4|]; [apply keeps_ret|].
    destruct (_ || _); [|apply keeps_ret].
    apply keeps_try_catch; [|intros e; apply keeps_ret].
    apply keeps_bind; [apply keeps_findOne|]. intros [d5|]; [|apply keeps_ret].
    destruct (is_pending _); apply keeps_ret.
Qed.

(** X16.  One call of [stripeWebhook] changes the stored record of at
    most one purchase, whatever the event, the store and the failures
    along the way: there is an id such that the record stored under any
    other id is the same afterwards.  Likewise
    [updatePurchaseToSucceeded] changes no record but the one with the
    id of its document. *)
Theorem a_completion_event_changes_at_most_one_purchase env sig raw w :
  (exists i, forall j, j <> i ->
     stored j (purchases (final (stripeWebhook env sig raw w)))
       = stored j (purchases w)) /\
  (forall d j, j <> _id (fields d) ->
     stored j (purchases (final (updatePurchaseToSucceeded env d w)))
       = stored j (purchases w)).
Proof.
  assert (Hupd : forall d w0 j, j <> _id (fields d) ->
            stored j (purchases (final (updatePurchaseToSucceeded env d w0)))
              = stored j (purchases w0)).
  { intros d w0 j Hj.
    apply (keeps_final (on_purchases (fun ps => stored j ps = stored j (purchases w0))));
      [|reflexivity].
    apply keeps_updatePurchaseToSucceeded. intros ps Hps.
    rewrite stored_overwrite_ne; [exact Hps|]. cbn. congruence. }
  split; [|intros d j; apply Hupd].
  unfold stripeWebhook.
  destruct (WEBHOOK_ENDPOINT_SECRET env) as [secret|]; [|exists ""; reflexivity].
  destruct (truthy (Some secret)); [|exists ""; reflexivity].
  destruct (constructEvent env raw sig secret) as [event|e]; [|exists ""; reflexivity].
  destruct (String.eqb _ _); [|exists ""; reflexivity].
  pose proof (keeps_webhook_purchase env (fun ps => ps = purchases w)
                (data_object event) w eq_refl) as Hlook.
  unfold try_catch, bind.
  destruct (webhook_purchase env (data_object event) w) as [[d|] w1|e w1];
    unfold on_purchases in Hlook.
  - exists (_id (fields d)). intros j Hj.
    specialize (Hupd (on_fields
                        (set_amount (amount_of_total (amount_total (data_object event))))
                        d) w1 j Hj).
    rewrite Hlook in Hupd.
    destruct (updatePurchaseToSucceeded env _ w1); exact Hupd.
  - exists "". intros j _. cbn. rewrite Hlook. reflexivity.
  - exists "". intros j _. cbn. rewrite Hlook. reflexivity.
Qed.

(** ** What one update stores *)

Lemma verifyPaymentWithStripe_returns env i w :
  exists r w1,
    verifyPaymentWithStripe env i w = Ok r w1 /\ purchases w1 = purchases w.
Proof.
  unfold verifyPaymentWithStripe, try_catch, bind, stripe_retrieve.
  destruct i as [pid|]; [|cbn; eauto].
  destruct (String.prefix "cs_" pid); [|cbn; eauto].
  destruct (sessions_retrieve env (tick w) (Some pid)); cbn; eauto.
Qed.

Lemma save_outcome env d ps :
  hoare (holds ps) (save env d)
        (fun _ w => purchases w = overwrite (fields d) ps /\
                    is_Some (stored (_id (fields d)) ps))
        (fun _ w => purchases w = ps).
Proof.
  intros w Hw. unfold holds in Hw. unfold save, bind, db_roundtrip.
  destruct (db_up env (tick w)); cbn [purchases advance]; [|exact Hw].
  rewrite Hw. destruct (stored (_id (fields d)) ps) eqn:Hs; cbn; eauto.
Qed.

(** [updatePurchaseToSucceeded] either returns, and then the record of
    its document has been overwritten with the document's fields and
    the status [succeeded], or throws, and then no purchase has changed. *)
Lemma update_outcome env d ps :
  hoare (holds ps) (updatePurchaseToSucceeded env d)
        (fun _ w => purchases w = overwrite (set_status succeeded (fields d)) ps /\
                    is_Some (stored (_id (fields d)) ps))
        (fun _ w => purchases w = ps).
Proof.
  unfold updatePurchaseToSucceeded.
  eapply hoare_try_catch with (E' := fun _ w => purchases w = ps);
    [|intros e; apply hoare_throw; auto].
  eapply hoare_bind with (Q := fun d' w => holds ps w /\ fields d' = fields d).
  - destruct (courseRef d);
      [apply (populate_fields env (fun ps' => ps' = ps)) | |]; apply hoare_ret; auto.
  - intros d'. apply hoare_pure. intros Hd.
    eapply hoare_bind with (Q := fun _ => holds ps).
    + apply (keeps_try_catch (on_purchases (fun ps' => ps' = ps)));
        [|intros e; apply keeps_ret].
      destruct (courseId_id _); [|apply keeps_throw].
      apply keeps_Promise_all2;
        [apply keeps_User_addToSet | apply keeps_Course_addToSet].
    + intros _ w Hw.
      pose proof (save_outcome env (on_fields (set_status succeeded) d') ps w Hw) as H.
      destruct (save env _ w); [|exact H].
      cbn [fields on_fields] in H. rewrite Hd in H. exact H.
Qed.

Lemma unique_ids_stored ps p : unique_ids ps -> p ∈ ps -> stored (_id p) ps = Some p.
Proof.
  intros Hu Hp. destruct (stored_is_Some p ps Hp) as [x Hx].
  rewrite Hx. f_equal. apply stored_elem in Hx as [Hin Hid].
  eapply unique_ids_eq; eassumption.
Qed.

Lemma unique_ids_filter (P : CoursePurchase -> Prop) `{!forall x, Decision (P x)} ps :
  unique_ids ps -> unique_ids (filter P ps).
Proof.
  unfold unique_ids. induction ps as [|x ps IH]; intros Hnd; [constructor|].
  cbn [map] in Hnd. apply NoDup_cons in Hnd as [Hx Hnd].
  rewrite filter_cons. destruct (decide (P x)); [|apply IH, Hnd].
  cbn [map]. apply NoDup_cons. split; [|apply IH, Hnd].
  intros Hin. apply Hx. apply list_elem_of_fmap in Hin as (y & -> & Hy).
  apply list_elem_of_filter in Hy as [_ Hy]. apply list_elem_of_fmap_2, Hy.
Qed.

(** ** The list of pending purchases *)

Section PendingList.

Context (env : Env).

Lemma keeps_pendingCheck I d :
  (forall ps, I ps -> I (overwrite (set_status succeeded (fields d)) ps)) ->
  keeps (on_purchases I) (pendingCheck env d).
Proof.
  intros HI. unfold pendingCheck. apply keeps_try_catch; [|intros e; apply keeps_ret].
  apply keeps_bind; [apply keeps_verifyPaymentWithStripe|]. intros r.
  destruct (verified r); [|apply keeps_ret].
  intros w Hw. pose proof (keeps_updatePurchaseToSucceeded env I d HI w Hw) as H.
  destruct (updatePurchaseToSucceeded env d w); exact H.
Qed.

(** One callback returns, and leaves its purchase [checked]. *)
Lemma pendingCheck_checked d w :
  stored (_id (fields d)) (purchases w) = Some (fields d) ->
  exists x w',
    pendingCheck env d w = Ok x w' /\ checked (purchases w') d x.
Proof.
  intros Hd. unfold pendingCheck, try_catch, bind.
  destruct (verifyPaymentWithStripe_returns env (paymentId (fields d)) w)
    as (r & w1 & -> & Hps).
  destruct (verified r).
  - pose proof (update_outcome env d (purchases w1) w1 eq_refl) as H.
    destruct (updatePurchaseToSucceeded env d w1) as [d1 w2|e w2].
    + do 2 eexists. split; [reflexivity|]. cbn. destruct H as [-> Hs].
      apply (stored_overwrite_eq (set_status succeeded (fields d))). exact Hs.
    + do 2 eexists. split; [reflexivity|]. cbn. rewrite H, Hps. split; [|exact Hd].
      unfold purchase_after_update. destruct (courseRef d); [|reflexivity..].
      destruct (db_up env (tick w1)); reflexivity.
  - do 2 eexists. split; [reflexivity|]. cbn. rewrite Hps. auto.
Qed.

Lemma pendingCheck_frame d w j :
  j <> _id (fields d) ->
  stored j (purchases (final (pendingCheck env d w))) = stored j (purchases w).
Proof.
  intros Hj.
  apply (keeps_final (on_purchases (fun ps => stored j ps = stored j (purchases w))));
    [|reflexivity].
  apply keeps_pendingCheck. intros ps Hps.
  rewrite stored_overwrite_ne; [exact Hps|]. cbn. congruence.
Qed.

Lemma checked_transfer ps1 ps2 d x :
  stored (_id (fields d)) ps2 = stored (_id (fields d)) ps1 ->
  checked ps1 d x -> checked ps2 d x.
Proof. unfold checked. intros ->. auto. Qed.

Lemma mapM_pendingCheck_checked docs w :
  NoDup (map (fun d => _id (fields d)) docs) ->
  (forall d, d ∈ docs -> stored (_id (fields d)) (purchases w) = Some (fields d)) ->
  exists r w',
    mapM (pendingCheck env) docs w = Ok r w' /\
    Forall2 (checked (purchases w')) docs r /\
    (forall j, j ∉ map (fun d => _id (fields d)) docs ->
               stored j (purchases w') = stored j (purchases w)).
Proof.
  revert w. induction docs as [|d rest IH]; intros w Hnd Hst.
  - exists [], w. split; [reflexivity|]. split; [constructor|auto].
  - cbn [map] in Hnd. apply NoDup_cons in Hnd as [Hd Hnd].
    destruct (pendingCheck_checked d w) as (x & w1 & Hx & Hchk); [apply Hst; left|].
    assert (Hframe : forall j, j <> _id (fields d) ->
              stored j (purchases w1) = stored j (purchases w)).
    { intros j Hj. pose proof (pendingCheck_frame d w j Hj) as H.
      rewrite Hx in H. exact H. }
    destruct (IH w1 Hnd) as (r & w' & Hr & Hall & Hrest).
    { intros d' Hd'. rewrite Hframe; [apply Hst; right; exact Hd'|].
      intros Heq. apply Hd. rewrite <- Heq.
      apply (list_elem_of_fmap_2 (fun d => _id (fields d))). exact Hd'. }
    exists (x :: r), w'. split; [|split].
    + cbn [mapM]. unfold bind. rewrite Hx, Hr. reflexivity.
    + constructor; [|exact Hall].
      apply (checked_transfer (purchases w1)); [|exact Hchk].
      apply Hrest. exact Hd.
    + intros j Hj. cbn [map] in Hj. apply not_elem_of_cons in Hj as [Hj1 Hj2].
      rewrite (Hrest j Hj2). apply Hframe, Hj1.
Qed.

End PendingList.

(** X17.  [getPendingPurchases] always answers: 500 when its query
    fails, and else 200, whatever fails while the purchases are checked.
    With unique ids, its list agrees with the store it leaves behind:
    every listed document belongs to one of the user's pending
    purchases of the last 24 hours, whose stored record is unchanged,
    and each of those purchases that is not listed is stored as
    [succeeded]. *)
Theorem pending_list_agrees_with_the_store env uid w :
  unique_ids (purchases w) ->
  exists code resp w',
    getPendingPurchases env uid w = Ok (code, resp) w' /\
    match resp with
    | PendingFailed _ _ =>
        code = 500 /\ db_up env (tick w) = false /\ purchases w' = purchases w
    | PendingPurchases l =>
        code = 200 /\ db_up env (tick w) = true /\
        (forall d, d ∈ l ->
           exists p, p ∈ purchases w /\
                     recent_pending_of uid (Date_now env (tick w)) p = true /\
                     _id (fields d) = _id p /\
                     stored (_id p) (purchases w') = Some p) /\
        (forall p, p ∈ purchases w ->
           recent_pending_of uid (Date_now env (tick w)) p = true ->
           (exists d, d ∈ l /\ _id (fields d) = _id p) \/
           stored (_id p) (purchases w') = Some (set_status succeeded p))
    end.
Proof.
  intros Hu.
  unfold getPendingPurchases, try_catch, bind at 1, now.
  unfold bind at 1, find_populate, bind at 1, db_roundtrip.
  destruct (db_up env (tick w)) eqn:Hup.
  2: { do 3 eexists. split; [reflexivity|]. cbn. auto. }
  cbn [purchases courses advance].
  set (sel := filter (fun p => recent_pending_of uid (Date_now env (tick w)) p = true)
                     (purchases w)).
  set (docs := map (populated_in (courses w)) sel).
  assert (Hsel : forall p, p ∈ sel <->
            p ∈ purchases w /\ recent_pending_of uid (Date_now env (tick w)) p = true).
  { intros p. unfold sel. rewrite list_elem_of_filter. tauto. }
  destruct (mapM_pendingCheck_checked env docs (advance w))
    as (r & w' & Hr & Hall & _).
  { unfold docs. rewrite map_map. cbn [fields populated_in].
    apply unique_ids_filter, Hu. }
  { intros d Hd. unfold docs in Hd.
    apply list_elem_of_fmap in Hd as (p & -> & Hp). cbn [fields populated_in purchases advance].
    apply unique_ids_stored; [exact Hu | apply Hsel, Hp]. }
  unfold bind. rewrite Hr. do 3 eexists. split; [reflexivity|]. cbn beta iota.
  repeat split.
  - intros d Hd. apply list_elem_of_omap in Hd as (x & Hx & Hxd).
    cbn in Hxd. subst x.
    apply list_elem_of_lookup in Hx as [k Hk].
    destruct (Forall2_lookup_r _ _ _ _ _ Hall Hk) as (dk & Hdk & Hchk).
    apply list_elem_of_lookup_2 in Hdk. unfold docs in Hdk.
    apply list_elem_of_fmap in Hdk as (p & -> & Hp).
    cbn in Hchk. destruct Hchk as [Hid Hst].
    exists p. apply Hsel in Hp as [Hp Hq]. auto.
  - intros p Hp Hq.
    assert (Hdoc : populated_in (courses w) p ∈ docs).
    { unfold docs. apply list_elem_of_fmap_2, Hsel. auto. }
    apply list_elem_of_lookup in Hdoc as [k Hk].
    destruct (Forall2_lookup_l _ _ _ _ _ Hall Hk) as (x & Hx & Hchk).
    destruct x as [d'|]; cbn in Hchk.
    + left. exists d'. split; [|apply Hchk].
      apply list_elem_of_omap. exists (Some d'). split; [|reflexivity].
      apply list_elem_of_lookup_2 in Hx. exact Hx.
    + right. exact Hchk.
Qed.

Lemma pending_list_agrees_with_the_store_witness :
  let env := Scenario.env_with Scenario.paid Scenario.no_event in
  let w := Scenario.world pending in
  exists code resp w',
    getPendingPurchases env Scenario.user1 w = Ok (code, resp) w' /\
    match resp with
    | PendingFailed _ _ =>
        code = 500 /\ db_up env (tick w) = false /\ purchases w' = purchases w
    | PendingPurchases l =>
        code = 200 /\ db_up env (tick w) = true /\
        (forall d, d ∈ l ->
           exists p, p ∈ purchases w /\
                     recent_pending_of Scenario.user1 (Date_now env (tick w)) p = true /\
                     _id (fields d) = _id p /\
                     stored (_id p) (purchases w') = Some p) /\
        (forall p, p ∈ purchases w ->
           recent_pending_of Scenario.user1 (Date_now env (tick w)) p = true ->
           (exists d, d ∈ l /\ _id (fields d) = _id p) \/
           stored (_id p) (purchases w') = Some (set_status succeeded p))
    end.
Proof.
  apply (pending_list_agrees_with_the_store
           (Scenario.env_with Scenario.paid Scenario.no_event)
           Scenario.user1 (Scenario.world pending)).
  apply NoDup_singleton.
Defined.

(** ** The forced fix of all pending payments *)

Lemma elem_of_overwrite_ne x p ps :
  x ∈ overwrite p ps -> x = p \/ (x ∈ ps /\ _id x <> _id p).
Proof.
  unfold overwrite. intros Hx.
  apply list_elem_of_fmap in Hx as (y & -> & Hy).
  destruct (String.eqb (_id y) (_id p)) eqn:Hid; [left; reflexivity|].
  right. split; [exact Hy|]. intros Heq. rewrite Heq, String.eqb_refl in Hid.
  discriminate.
Qed.

Lemma stored_is_Some_ids i ps : is_Some (stored i ps) <-> i ∈ map _id ps.
Proof.
  split.
  - intros [p Hp]. apply stored_elem in Hp as [Hin <-].
    apply list_elem_of_fmap_2, Hin.
  - intros Hi. apply list_elem_of_fmap in Hi as (p & -> & Hp).
    apply stored_is_Some, Hp.
Qed.

Section ForcedFix.

Context (env : Env) (Hup : db_always_up env).

(** With the force flag, [fixPayment] returns (true or false) and has
    stored the pending purchase as [succeeded]. *)
Lemma fixPayment_forced_stores d w :
  is_pending (fields d) = true ->
  is_Some (stored (_id (fields d)) (purchases w)) ->
  exists b w1,
    fixPayment env d true w = Ok b w1 /\
    purchases w1 = overwrite (set_status succeeded (fields d)) (purchases w).
Proof.
  intros Hpend [x Hx]. unfold fixPayment. rewrite Hpend. cbn [negb].
  match goal with
  | |- context [bind ?m _] =>
      assert (Hm : exists b w0, m w = Ok b w0 /\ purchases w0 = purchases w)
  end.
  { destruct (truthy (STRIPE_SECRET_KEY env)
              && is_checkout_session_id (paymentId (fields d))).
    - unfold try_catch, bind, stripe_retrieve.
      destruct (sessions_retrieve env (tick w) (paymentId (fields d))); cbn; eauto.
    - cbn. eauto. }
  destruct Hm as (b & w0 & Hm & Hps).
  unfold bind at 1. rewrite Hm. cbn [orb]. cbv zeta.
  unfold bind at 1. rewrite (save_up env Hup).
  cbn [fields on_fields _id set_status]. rewrite Hps, Hx.
  unfold try_catch, courseId_id. cbn [courseRef on_fields fields].
  destruct (courseRef d); cbn [throw ret];
    try (unfold bind; rewrite (User_addToSet_up env Hup), (Course_addToSet_up env Hup));
    do 2 eexists; (split; [reflexivity|]); reflexivity.
Qed.

Lemma fixPayments_loop_forced l fixed errors w :
  (forall d, d ∈ l -> is_pending (fields d) = true /\
                       _id (fields d) ∈ map _id (purchases w)) ->
  (forall q, q ∈ purchases w -> status q = pending ->
             exists d, d ∈ l /\ _id (fields d) = _id q) ->
  exists fixed' w',
    fixPayments_loop env true l fixed errors w = Ok (fixed', errors) w' /\
    (fixed <= fixed' <= fixed + length l)%nat /\
    map _id (purchases w') = map _id (purchases w) /\
    forall q, q ∈ purchases w' -> status q <> pending.
Proof.
  revert fixed w. induction l as [|d rest IH]; intros fixed w Hl Hcov.
  - exists fixed, w. cbn. repeat split; try lia.
    intros q Hq Hst. destruct (Hcov q Hq Hst) as (d & Hd & _). inversion Hd.
  - destruct (Hl d) as [Hpend Hid]; [left|].
    destruct (fixPayment_forced_stores d w Hpend) as (b & w1 & Hfix & Hps);
      [apply stored_is_Some_ids, Hid|].
    assert (Hids : map _id (purchases w1) = map _id (purchases w))
      by (rewrite Hps; apply map_id_overwrite).
    destruct (IH (if b then S fixed else fixed) w1) as (f' & w' & Hloop & Hf & Hids' & Hnone).
    { intros d' Hd'. destruct (Hl d') as [Hp' Hi']; [right; exact Hd'|].
      split; [exact Hp'|]. rewrite Hids. exact Hi'. }
    { intros q Hq Hst. rewrite Hps in Hq.
      apply elem_of_overwrite_ne in Hq as [->|[Hq Hne]]; [discriminate|].
      destruct (Hcov q Hq Hst) as (d' & Hd' & Hid').
      cbn [set_status _id] in Hne.
      apply elem_of_cons in Hd' as [->|Hd']; [congruence|]. eauto. }
    exists f', w'. split; [|split; [|split]].
    + cbn [fixPayments_loop]. unfold bind at 1, try_catch, bind at 1.
      rewrite Hfix. cbn [ret]. destruct b; cbn [fst snd]; exact Hloop.
    + cbn [length]. destruct b; lia.
    + congruence.
    + exact Hnone.
Qed.

End ForcedFix.

(** X18.  [fix-payments --all --force], while the database answers,
    leaves no purchase pending: it ends with [process.exit(0)] when
    nothing was pending, and else with a summary without errors whose
    total is the number of pending purchases; either way the store holds
    the same purchases as before, in the same order, and none of them is
    pending. *)
Theorem forced_fix_of_all_leaves_nothing_pending env id hoursAgo w :
  db_always_up env ->
  truthy id = false ->
  exists r w',
    fix_payments env id true true hoursAgo w = Ok r w' /\
    (r = Exit 0 \/
     exists fixed,
       r = AllProcessed fixed
             (length (filter (fun p => status p = pending) (purchases w))) 0 /\
       (fixed <= length (filter (fun p => status p = pending) (purchases w)))%nat) /\
    map _id (purchases w') = map _id (purchases w) /\
    forall q, q ∈ purchases w' -> status q <> pending.
Proof.
  intros Hup Hid. unfold fix_payments. rewrite Hid. cbn [negb andb].
  unfold bind at 1, try_catch at 1, bind at 1. rewrite (db_roundtrip_up env Hup).
  cbn [ret negb].
  assert (Hall : exists r w',
             fix_all_pending env true hoursAgo (advance w) = Ok r w' /\
             (r = Exit 0 \/
              exists fixed,
                r = AllProcessed fixed
                      (length (filter (fun p => status p = pending) (purchases w))) 0 /\
                (fixed <= length (filter (fun p => status p = pending) (purchases w)))%nat) /\
             map _id (purchases w') = map _id (purchases w) /\
             forall q, q ∈ purchases w' -> status q <> pending).
  { unfold fix_all_pending, bind at 1, find_populate, bind at 1.
    rewrite (db_roundtrip_up env Hup). cbn [purchases courses advance].
    assert (Hfound : filter (fun p => is_pending p && (true || (createdAt p <? hoursAgo))
                                      = true) (purchases w)
                     = filter (fun p => status p = pending) (purchases w)).
    { apply list_filter_iff. intros p. cbn [orb]. rewrite andb_true_r.
      unfold is_pending. apply bool_decide_eq_true. }
    rewrite Hfound.
    set (found := filter (fun p => status p = pending) (purchases w)).
    assert (Hin : forall p, p ∈ found <-> p ∈ purchases w /\ status p = pending).
    { intros p. unfold found. rewrite list_elem_of_filter. tauto. }
    destruct (fixPayments_loop_forced env Hup
                (map (populated_in (courses w)) found) 0 0 (advance (advance w)))
      as (fixed & w' & Hloop & Hfixed & Hids & Hnone).
    { intros d Hd. apply list_elem_of_fmap in Hd as (p & -> & Hp).
      apply Hin in Hp as [Hp Hst]. cbn [fields populated_in purchases advance].
      split; [apply bool_decide_eq_true, Hst | apply list_elem_of_fmap_2, Hp]. }
    { intros q Hq Hst. cbn [purchases advance] in Hq.
      exists (populated_in (courses w) q). split; [|reflexivity].
      apply list_elem_of_fmap_2, Hin. auto. }
    destruct found as [|p ps] eqn:Hf.
    - do 2 eexists. split; [reflexivity|]. split; [left; reflexivity|].
      split; [reflexivity|]. cbn [purchases advance].
      intros q Hq Hst. pose proof (proj2 (Hin q) (conj Hq Hst)) as Hq'.
      inversion Hq'.
    - cbn [map] in *. unfold bind. rewrite Hloop. do 2 eexists.
      split; [reflexivity|]. cbn [fst snd].
      cbn [length] in Hfixed. rewrite length_map in Hfixed.
      split; [right; exists fixed; split;
               [cbn [length]; rewrite length_map; reflexivity|cbn [length]; lia]|].
      split; [exact Hids | exact Hnone]. }
  destruct Hall as (r & w' & Hr & Hres).
  exists r, w'. split; [|exact Hres].
  destruct id as [i|]; unfold try_catch; rewrite Hr; reflexivity.
Qed.

Lemma forced_fix_of_all_leaves_nothing_pending_witness :
  let env := Scenario.env_with Scenario.unpaid Scenario.no_event in
  let w := Scenario.world pending in
  exists r w',
    fix_payments env None true true 0 w = Ok r w' /\
    (r = Exit 0 \/
     exists fixed,
       r = AllProcessed fixed
             (length (filter (fun p => status p = pending) (purchases w))) 0 /\
       (fixed <= length (filter (fun p => status p = pending) (purchases w)))%nat) /\
    map _id (purchases w') = map _id (purchases w) /\
    forall q, q ∈ purchases w' -> status q <> pending.
Proof.
  apply (forced_fix_of_all_leaves_nothing_pending
           (Scenario.env_with Scenario.unpaid Scenario.no_event)
           None 0 (Scenario.world pending)).
  - intros t. reflexivity.
  - reflexivity.
Defined.

(** ** Checkout *)


Lemma stored_app_fresh p ps :
  stored (_id p) ps = None -> stored (_id p) (ps ++ [p])%list = Some p.
Proof.
  unfold stored. intros Hnone. rewrite filter_app.
  destruct (filter _ ps) as [|x l] eqn:Hf; [|discriminate].
  cbn [app]. rewrite filter_cons, String.eqb_refl.
  destruct (decide (true = true)); [reflexivity|congruence].
Qed.

Lemma lookup_alter_Some {V} (f : V -> V) (i : string) (m : gmap string V) v :
  m !! i = Some v -> alter f i m !! i = Some (f v).
Proof. intros H. rewrite lookup_alter_eq, H. reflexivity. Qed.

Section CheckoutUp.

Context (env : Env) (Hup : db_always_up env).

(** The webhook on an authentic completion event whose session id
    exactly one stored purchase carries, for an existing user and
    course. *)
Lemma webhook_exact_match sig raw secret sess w p u c :
  WEBHOOK_ENDPOINT_SECRET env = Some secret ->
  secret <> "" ->
  constructEvent env raw sig secret
    = Resolved (mkEvent "checkout.session.completed" sess) ->
  p ∈ purchases w ->
  paymentId p = Some (session_id sess) ->
  (forall q, q ∈ purchases w -> paymentId q = Some (session_id sess) -> q = p) ->
  users w !! userId p = Some u ->
  courses w !! courseId p = Some c ->
  exists w',
    stripeWebhook env sig raw w = Ok (mkResponse 200 Received) w' /\
    purchases w'
      = overwrite (set_status succeeded
                     (set_amount (amount_of_total (amount_total sess)) p))
                  (purchases w) /\
    users w' = alter (enroll_course (courseId p)) (userId p) (users w) /\
    courses w' = alter (enroll_student (userId p)) (courseId p) (courses w).
Proof.
  intros Hsec Hne Hev Hp Hpid Hun Hu Hc.
  unfold stripeWebhook. rewrite Hsec.
  assert (Htr : truthy (Some secret) = true).
  { simpl. destruct (String.eqb secret "") eqn:E; [|reflexivity].
    apply String.eqb_eq in E. contradiction. }
  rewrite Htr, Hev. cbn [event_type data_object]. rewrite String.eqb_refl.
  unfold try_catch, bind at 1.
  unfold webhook_purchase, bind at 1. rewrite (findOne_up env Hup).
  rewrite (findOne_unique (paymentId_is (session_id sess)) p (purchases w) Hp).
  2: { apply paymentId_is_spec, Hpid. }
  2: { intros x Hx Hq. apply Hun; [exact Hx | apply paymentId_is_spec, Hq]. }
  cbn [fmap option_fmap option_map ret]. unfold bind at 1.
  rewrite (updatePurchaseToSucceeded_up_bare env Hup) by reflexivity.
  rewrite (updatePurchaseToSucceeded_up env Hup).
  2: { unfold populated_in. simpl. rewrite Hc. simpl. discriminate. }
  cbv zeta. rewrite (save_up env Hup).
  unfold populated_in, courseId_id, on_fields, loaded, enrolled. cbn.
  rewrite Hc. cbn.
  destruct (stored_is_Some p _ Hp) as [x Hx]. rewrite Hx. cbn.
  eexists. split; [reflexivity|]. cbn. repeat split.
Qed.

End CheckoutUp.

(** X20.  Checkout and the provider's completion event fit together.
    When [createCheckoutSession] has created a session for an existing
    user and course, with a document id and a session id that no stored
    purchase carries, and the webhook then receives the authentic
    [checkout.session.completed] event of that session, both answer
    200 and the new purchase is stored as [succeeded], with the amount
    of the event and the session id, and is reflected in both
    enrollment arrays. *)
Theorem checkout_then_completion_event_enrolls
    env co uid cid sig raw secret sess evs w u c :
  db_always_up env ->
  users w !! uid = Some u ->
  courses w !! cid = Some c ->
  sessions_create co (S (tick w)) cid uid = Resolved sess ->
  stored (ObjectId co (S (tick w))) (purchases w) = None ->
  (forall q, q ∈ purchases w -> paymentId q <> Some (new_id sess)) ->
  WEBHOOK_ENDPOINT_SECRET env = Some secret ->
  secret <> "" ->
  constructEvent env raw sig secret
    = Resolved (mkEvent "checkout.session.completed" evs) ->
  session_id evs = new_id sess ->
  let p := mkPurchase (ObjectId co (S (tick w))) cid uid
                      (amount_of_total (amount_total evs)) succeeded
                      (Some (new_id sess)) (timestamp co (S (tick w))) in
  exists w1 w2,
    createCheckoutSession env co uid cid w
      = Ok (200, CheckoutUrl (url sess), Some (_id p)) w1 /\
    stripeWebhook env sig raw w1 = Ok (mkResponse 200 Received) w2 /\
    stored (_id p) (purchases w2) = Some p /\
    enrolled_both_ways w2 p.
Proof.
  intros Hup Hu Hc Hs Hfresh Hnew Hsec Hne Hev Hid p.
  set (p0 := mkPurchase (ObjectId co (S (tick w))) cid uid (coursePrice co cid)
                        pending (Some (new_id sess)) (timestamp co (S (tick w)))).
  assert (Hco : createCheckoutSession env co uid cid w
                = Ok (200, CheckoutUrl (url sess), Some (_id p))
                     (mkWorld (purchases w ++ [p0])%list (users w) (courses w)
                              (S (S (S (tick w)))) (commands w))).
  { unfold createCheckoutSession, try_catch, bind at 1.
    rewrite (Course_findById_up env Hup), Hc.
    unfold bind at 1, stripe_create. cbn [tick advance]. rewrite Hs.
    unfold bind at 1, insert, bind at 1. rewrite (db_roundtrip_up env Hup).
    cbn [set_paymentId _id purchases advance]. rewrite Hfresh. reflexivity. }
  destruct (webhook_exact_match env Hup sig raw secret evs
              (mkWorld (purchases w ++ [p0])%list (users w) (courses w)
                       (S (S (S (tick w)))) (commands w)) p0 u c)
    as (w2 & Hhook & Hps & Hus & Hcs); auto.
  { cbn [purchases]. apply elem_of_app. right. left. }
  { cbn. congruence. }
  { cbn [purchases]. intros q Hq Hpid. apply elem_of_app in Hq as [Hq|Hq].
    - exfalso. apply (Hnew q Hq). congruence.
    - apply list_elem_of_singleton in Hq. exact Hq. }
  eexists; exists w2. split; [exact Hco|]. split; [exact Hhook|].
  cbn [purchases users courses userId courseId p0] in Hps, Hus, Hcs.
  split.
  - rewrite Hps.
    apply (stored_overwrite_eq p). cbn [_id p].
    change (ObjectId co (S (tick w))) with (_id p0).
    rewrite stored_app_fresh by exact Hfresh. eauto.
  - split.
    + exists (enroll_course cid u). cbn [userId courseId p]. split.
      * rewrite Hus. apply lookup_alter_Some, Hu.
      * apply elem_of_addToSet.
    + exists (enroll_student uid c). cbn [userId courseId p]. split.
      * rewrite Hcs. apply lookup_alter_Some, Hc.
      * apply elem_of_addToSet.
Qed.

(** X21.  Checkout and its delayed follow-up check fit together.  After
    a successful [createCheckoutSession] for an existing user and
    course, the check scheduled for the new purchase finds it pending
    and asks the provider about the session just created: when the
    provider reports it paid, the purchase is stored as [succeeded],
    its amount still the course price, and is reflected in both
    enrollment arrays; when the provider never reports it paid, the
    check changes no purchase. *)
Theorem checkout_then_follow_up_check env co uid cid sess w u c :
  db_always_up env ->
  users w !! uid = Some u ->
  courses w !! cid = Some c ->
  sessions_create co (S (tick w)) cid uid = Resolved sess ->
  stored (ObjectId co (S (tick w))) (purchases w) = None ->
  let p := mkPurchase (ObjectId co (S (tick w))) cid uid (coursePrice co cid)
                      pending (Some (new_id sess)) (timestamp co (S (tick w))) in
  exists w1,
    createCheckoutSession env co uid cid w
      = Ok (200, CheckoutUrl (url sess), Some (_id p)) w1 /\
    purchases w1 = (purchases w ++ [p])%list /\
    (forall s,
       String.prefix "cs_" (new_id sess) = true ->
       sessions_retrieve env (S (tick w1)) (Some (new_id sess)) = Resolved s ->
       payment_status s = "paid" ->
       let w2 := final (followUpCheck env (_id p) w1) in
       stored (_id p) (purchases w2) = Some (set_status succeeded p) /\
       enrolled_both_ways w2 p) /\
    (never_paid env (Some (new_id sess)) ->
     purchases (final (followUpCheck env (_id p) w1)) = purchases w1).
Proof.
  intros Hup Hu Hc Hs Hfresh p.
  set (w1 := mkWorld (purchases w ++ [p])%list (users w) (courses w)
                     (S (S (S (tick w)))) (commands w)).
  assert (Hco : createCheckoutSession env co uid cid w
                = Ok (200, CheckoutUrl (url sess), Some (_id p)) w1).
  { unfold createCheckoutSession, try_catch, bind at 1.
    rewrite (Course_findById_up env Hup), Hc.
    unfold bind at 1, stripe_create. cbn [tick advance]. rewrite Hs.
    unfold bind at 1, insert, bind at 1. rewrite (db_roundtrip_up env Hup).
    cbn [set_paymentId _id purchases advance]. rewrite Hfresh. reflexivity. }
  assert (Hfind : findById env (_id p) w1 = Ok (Some (loaded p)) (advance w1)).
  { unfold findById. rewrite (findOne_up env Hup).
    change (head (filter (fun q => String.eqb (_id q) (_id p) = true) (purchases w1)))
      with (stored (_id p) (purchases w1)).
    cbn [purchases w1]. rewrite stored_app_fresh by exact Hfresh. reflexivity. }
  exists w1. split; [exact Hco|]. split; [reflexivity|]. split.
  - intros s Hpre Hret Hpaid w2.
    assert (Hfu : exists w',
               followUpCheck env (_id p) w1 = Ok tt w' /\
               purchases w' = overwrite (set_status succeeded p) (purchases w1) /\
               users w' = alter (enroll_course cid) uid (users w) /\
               courses w' = alter (enroll_student uid) cid (courses w)).
    { unfold followUpCheck, try_catch at 1, bind at 1. rewrite Hfind.
      cbn [fields loaded paymentId].
      change (is_pending p) with true. change (paymentId p) with (Some (new_id sess)).
      cbv iota.
      unfold bind at 1, verifyPaymentWithStripe, try_catch at 1. rewrite Hpre.
      unfold bind at 1, stripe_retrieve.
      change (tick (advance w1)) with (S (tick w1)). rewrite Hret.
      cbn [ret verified]. rewrite Hpaid. cbn [String.eqb Ascii.eqb Bool.eqb andb].
      unfold bind at 1.
      rewrite (updatePurchaseToSucceeded_up_bare env Hup) by reflexivity.
      rewrite (updatePurchaseToSucceeded_up env Hup).
      2: { unfold populated_in. cbn. rewrite Hc. cbn. discriminate. }
      cbv zeta. rewrite (save_up env Hup).
      unfold populated_in, courseId_id, on_fields, loaded, enrolled. cbn.
      rewrite Hc. cbn.
      change (ObjectId co (S (tick w))) with (_id p).
      rewrite stored_app_fresh by exact Hfresh.
      eexists. split; [reflexivity|]. cbn. repeat split. }
    destruct Hfu as (w' & Hfu & Hps & Hus & Hcs).
    subst w2. rewrite Hfu. cbn [final]. split.
    + rewrite Hps. apply (stored_overwrite_eq (set_status succeeded p)).
      cbn [_id set_status purchases w1].
      rewrite stored_app_fresh by exact Hfresh. eauto.
    + split.
      * exists (enroll_course cid u). split.
        -- rewrite Hus. apply lookup_alter_Some, Hu.
        -- apply elem_of_addToSet.
      * exists (enroll_student uid c). split.
        -- rewrite Hcs. apply lookup_alter_Some, Hc.
        -- apply elem_of_addToSet.
  - intros Hnp.
    unfold followUpCheck, try_catch at 1, bind at 1. rewrite Hfind.
    cbn [fields loaded paymentId].
    change (is_pending p) with true. change (paymentId p) with (Some (new_id sess)).
    cbv iota.
    unfold bind at 1.
    pose proof (verify_unpaid env (fun ps => ps = purchases w1) _ Hnp
                  (advance w1) eq_refl) as Hv.
    destruct (verifyPaymentWithStripe env (Some (new_id sess)) (advance w1))
      as [r w'|e w']; [destruct Hv as [Hps Hr]; rewrite Hr|]; exact Hv || exact Hps.
Qed.

Lemma checkout_then_completion_event_enrolls_witness :
  let env := Scenario.env_with Scenario.unpaid
               (Scenario.completed "cs_test_c7Hq2Lp9" 48000) in
  let w := Scenario.world succeeded in
  let p := mkPurchase "p2" Scenario.course1 Scenario.user1
                      (amount_of_total 48000) succeeded
                      (Some "cs_test_c7Hq2Lp9") 9000000 in
  exists w1 w2,
    createCheckoutSession env Scenario2.checkout Scenario.user1 Scenario.course1 w
      = Ok (200, CheckoutUrl (url Scenario2.new_session), Some "p2") w1 /\
    stripeWebhook env None "" w1 = Ok (mkResponse 200 Received) w2 /\
    stored "p2" (purchases w2) = Some p /\
    enrolled_both_ways w2 p.
Proof.
  apply (checkout_then_completion_event_enrolls
           (Scenario.env_with Scenario.unpaid
              (Scenario.completed "cs_test_c7Hq2Lp9" 48000))
           Scenario2.checkout Scenario.user1 Scenario.course1 None "" "whsec_test"
           Scenario2.new_session
           (Scenario.session_of "cs_test_c7Hq2Lp9" "paid" 48000)
           (Scenario.world succeeded) (mkUser []) (mkCourse [])).
  - intros t. reflexivity.
  - reflexivity.
  - reflexivity.
  - reflexivity.
  - reflexivity.
  - intros q Hq. apply list_elem_of_singleton in Hq. subst q. discriminate.
  - reflexivity.
  - discriminate.
  - reflexivity.
  - reflexivity.
Defined.

Lemma checkout_then_follow_up_check_witness :
  let env := Scenario.env_with Scenario.paid Scenario.no_event in
  let w := Scenario.world succeeded in
  let p := mkPurchase "p2" Scenario.course1 Scenario.user1 500 pending
                      (Some "cs_test_c7Hq2Lp9") 9000000 in
  exists w1,
    createCheckoutSession env Scenario2.checkout Scenario.user1 Scenario.course1 w
      = Ok (200, CheckoutUrl (url Scenario2.new_session), Some "p2") w1 /\
    purchases w1 = (purchases w ++ [p])%list /\
    (forall s,
       String.prefix "cs_" "cs_test_c7Hq2Lp9" = true ->
       sessions_retrieve env (S (tick w1)) (Some "cs_test_c7Hq2Lp9") = Resolved s ->
       payment_status s = "paid" ->
       let w2 := final (followUpCheck env "p2" w1) in
       stored "p2" (purchases w2) = Some (set_status succeeded p) /\
       enrolled_both_ways w2 p) /\
    (never_paid env (Some "cs_test_c7Hq2Lp9") ->
     purchases (final (followUpCheck env "p2" w1)) = purchases w1).
Proof.
  apply (checkout_then_follow_up_check
           (Scenario.env_with Scenario.paid Scenario.no_event)
           Scenario2.checkout Scenario.user1 Scenario.course1
           Scenario2.new_session (Scenario.world succeeded)
           (mkUser []) (mkCourse [])).
  - intros t. reflexivity.
  - reflexivity.
  - reflexivity.
  - reflexivity.
  - reflexivity.
Defined.

(** ** Authentication *)

Lemma split_spaces_cons s : exists x l, split_spaces s = x :: l.
Proof.
  induction s as [|c s (x & l & IH)]; cbn [split_spaces]; [eauto|].
  destruct (Ascii.eqb c " "); [eauto|]. rewrite IH. eauto.
Qed.

Lemma split_spaces_head t rest :
  spaceless t = true ->
  rest = EmptyString \/ (exists r, rest = String " "%char r) ->
  exists l, split_spaces (t ++ rest) = t :: l.
Proof.
  intros Ht Hrest. induction t as [|c t IH].
  - change (EmptyString ++ rest) with rest.
    destruct Hrest as [->|[r ->]]; cbn; eauto.
  - cbn [spaceless] in Ht. apply andb_true_iff in Ht as [Hc Ht].
    change (String c t ++ rest) with (String c (t ++ rest)).
    cbn [split_spaces]. apply negb_true_iff in Hc. rewrite Hc.
    destruct (IH Ht) as [l ->]. eauto.
Qed.

Lemma split_spaces_decompose s :
  exists t rest l,
    s = t ++ rest /\ spaceless t = true /\
    (rest = EmptyString \/ (exists r, rest = String " "%char r)) /\
    split_spaces s = t :: l.
Proof.
  induction s as [|c s (t & rest & l & Hs & Ht & Hrest & Hsplit)].
  - exists EmptyString, EmptyString, []. cbn. auto.
  - cbn [split_spaces]. destruct (Ascii.eqb c " ") eqn:Hc.
    + apply Ascii.eqb_eq in Hc as ->.
      exists EmptyString, (String " "%char s), (split_spaces s). cbn. eauto 6.
    + exists (String c t), rest, l. rewrite Hsplit.
      change (String c t ++ rest) with (String c (t ++ rest)).
      cbn [spaceless]. rewrite Hc, Ht, Hs. auto.
Qed.

Lemma prefix_append p h : String.prefix p h = true <-> exists x, h = p ++ x.
Proof.
  revert h. induction p as [|c p IH]; intros h; cbn [String.prefix].
  - split; [exists h; reflexivity | intros _; destruct h; reflexivity].
  - assert (Happ : forall x, String c p ++ x = String c (p ++ x)) by reflexivity.
    setoid_rewrite Happ.
    destruct h as [|d h].
    + split; [discriminate|]. intros [x Hx]. discriminate.
    + cbn [String.prefix]. destruct (Ascii.ascii_dec c d) as [->|Hne].
      * rewrite IH. split; intros [x Hx]; exists x; congruence.
      * split; [discriminate|]. intros [x Hx]. congruence.
Qed.

Lemma split_spaces_bearer x :
  split_spaces ("Bearer " ++ x) !! 1%nat = head (split_spaces x).
Proof.
  unfold String.append. cbn.
  destruct (split_spaces_cons x) as (y & l & ->). reflexivity.
Qed.

Lemma truthy_Some t : truthy (Some t) = true <-> t <> EmptyString.
Proof.
  cbn [truthy]. rewrite negb_true_iff. split.
  - intros H ->. discriminate.
  - intros H. destruct (String.eqb t "") eqn:E; [|reflexivity].
    apply String.eqb_eq in E. contradiction.
Qed.

(** The token the middleware verifies is the one the request presents. *)
Lemma token_of_presented req t :
  presented req t <-> token_of req = Some t /\ t <> EmptyString.
Proof.
  unfold presented, token_of. split.
  - intros [Hne [Hc|(Hc & Hsp & rest & Hh & Hrest)]]; (split; [|exact Hne]).
    + rewrite Hc. rewrite (proj2 (truthy_Some t) Hne). exact eq_refl.
    + rewrite Hc, Hh. cbn [negb].
      assert (Hp : String.prefix "Bearer " ("Bearer " ++ t ++ rest) = true)
        by (apply prefix_append; eauto).
      rewrite Hp, (proj2 (truthy_Some _)) by discriminate. cbn [andb].
      rewrite split_spaces_bearer.
      destruct (split_spaces_head t rest Hsp Hrest) as [l ->]. reflexivity.
  - intros [Htok Hne]. split; [exact Hne|].
    destruct (truthy (cookie_token req)) eqn:Hc; cbn [negb] in Htok; [auto|].
    assert (Hcookie : cookie_token req <> Some t).
    { intros E. rewrite E in Hc. apply truthy_Some in Hne. congruence. }
    destruct (authorization req) as [h|]; [|contradiction].
    destruct (truthy (Some h) && String.prefix "Bearer " h) eqn:Hh; [|contradiction].
    apply andb_true_iff in Hh as [_ Hp]. apply prefix_append in Hp as [x ->].
    rewrite split_spaces_bearer in Htok.
    destruct (split_spaces_decompose x) as (t' & rest & l & -> & Hsp & Hrest & Hsplit).
    rewrite Hsplit in Htok. cbn in Htok. injection Htok as ->.
    right. split; [reflexivity|]. split; [exact Hsp|]. eauto.
Qed.

(** X22.  [isAuthenticated] lets a request through exactly when
    [jwt.verify] accepts the token the request presents, and then with
    the payload's [userId] as [req.id]; every other request is answered
    401.  The presented token is the cookie's, if there is one;
    otherwise it is the text between the first blank of a header that
    starts with [Bearer ] and the next blank, so a header with two
    blanks after [Bearer] presents no token. *)
Theorem isAuthenticated_verifies_the_presented_token jwt_verify req :
  match isAuthenticated jwt_verify req with
  | Next req_id =>
      exists t decode,
        presented req t /\ jwt_verify t = Resolved (Some decode) /\
        req_id = payload_userId decode
  | Denied code _ =>
      code = 401 /\
      forall t decode, presented req t -> jwt_verify t <> Resolved (Some decode)
  end.
Proof.
  unfold isAuthenticated.
  destruct (token_of req) as [t|] eqn:Htok.
  - destruct (truthy (Some t)) eqn:Ht; cbn [negb].
    + assert (Hp : presented req t).
      { apply token_of_presented. split; [exact Htok | apply truthy_Some, Ht]. }
      assert (Hall : forall t', presented req t' -> t' = t).
      { intros t' Hp'. apply token_of_presented in Hp' as [Ht' _]. congruence. }
      destruct (jwt_verify t) as [[d|]|e] eqn:Hv.
      * exists t, d. auto.
      * split; [reflexivity|]. intros t' d Hp'. rewrite (Hall t' Hp'). congruence.
      * split; [reflexivity|]. intros t' d Hp'. rewrite (Hall t' Hp'). congruence.
    + split; [reflexivity|]. intros t' d Hp'.
      apply token_of_presented in Hp' as [Ht' Hne].
      assert (t' = t) as -> by congruence.
      apply truthy_Some in Hne. congruence.
  - split; [reflexivity|]. intros t' d Hp'.
    apply token_of_presented in Hp' as [Ht' _]. congruence.
Qed.

(** ** Sales of an instructor *)

Lemma has_key_spec cid l : has_key cid l = true <-> cid ∈ map product_courseId l.
Proof.
  unfold has_key. rewrite existsb_exists, list_elem_of_fmap. split.
  - intros (g & Hg & Hk). apply String.eqb_eq in Hk.
    exists g. split; [auto | apply list_elem_of_In, Hg].
  - intros (g & -> & Hg). exists g.
    split; [apply list_elem_of_In, Hg | apply String.eqb_refl].
Qed.

Lemma update_key_keys cid f l :
  (forall g, product_courseId (f g) = product_courseId g) ->
  map product_courseId (update_key cid f l) = map product_courseId l.
Proof.
  intros Hf. unfold update_key. rewrite map_map. apply map_ext.
  intros g. destruct (String.eqb _ _); [apply Hf | reflexivity].
Qed.

Lemma update_key_sum cid f l :
  (forall g, salesCount (f g) = S (salesCount g)) ->
  NoDup (map product_courseId l) ->
  cid ∈ map product_courseId l ->
  list_sum (map salesCount (update_key cid f l)) = S (list_sum (map salesCount l)).
Proof.
  intros Hf. induction l as [|g l IH]; intros Hnd Hin; [inversion Hin|].
  cbn [map] in Hnd. apply NoDup_cons in Hnd as [Hg Hnd].
  cbn [update_key map list_sum].
  destruct (String.eqb (product_courseId g) cid) eqn:Hk.
  - apply String.eqb_eq in Hk. rewrite Hf.
    assert (Hsame : map (fun g => if String.eqb (product_courseId g) cid
                                  then f g else g) l = l).
    { rewrite <- (map_id l) at 2. apply map_ext_in. intros g' Hg'.
      destruct (String.eqb (product_courseId g') cid) eqn:Hk'; [|reflexivity].
      apply String.eqb_eq in Hk'. exfalso. apply Hg. rewrite Hk, <- Hk'.
      apply list_elem_of_fmap_2, list_elem_of_In, Hg'. }
    rewrite Hsame. change (list_sum (?x :: ?r)) with (x + list_sum r)%nat. lia.
  - apply String.eqb_neq in Hk. cbn [map] in Hin.
    apply elem_of_cons in Hin as [Hin|Hin]; [congruence|].
    pose proof (IH Hnd Hin) as IH'. unfold update_key in IH'.
    change (list_sum (?x :: ?r)) with (x + list_sum r)%nat.
    rewrite IH'. lia.
Qed.

Lemma sales_for_snoc c xs s :
  sales_for c (xs ++ [s])%list
    = (sales_for c xs
       ++ if decide (counted s /\ courseId (sale s) = c) then [s] else [])%list.
Proof. unfold sales_for. rewrite filter_app. reflexivity. Qed.

(** One round of the grouping loop. *)
Lemma group_sale_grouped xs l s :
  grouped xs l -> grouped (xs ++ [s])%list (group_sale l s).
Proof.
  intros [Hnd Hok Hall Hsum].
  assert (Hskip : ~ counted s -> grouped (xs ++ [s])%list l).
  { intros Hs. split; [exact Hnd| | |].
    - intros g Hg. destruct (Hok g Hg) as [(Hk & Hc & Hp) Hpos].
      split; [|exact Hpos]. unfold group_ok. rewrite sales_for_snoc.
      rewrite decide_False by tauto. rewrite app_nil_r. auto.
    - intros s' Hs' Hc. apply elem_of_app in Hs' as [Hs'|Hs']; [auto|].
      apply list_elem_of_singleton in Hs'. subst s'. contradiction.
    - rewrite filter_app, length_app, Hsum.
      rewrite filter_cons_False by exact Hs. cbn. lia. }
  unfold group_sale. destruct (sale_course s) eqn:Hsc.
  2: { apply Hskip. intros [H _]. congruence. }
  set (cid := courseId (sale s)).
  destruct (truthy (Some cid)) eqn:Htr.
  2: { apply Hskip. intros [_ H]. apply truthy_Some in H. fold cid in H. congruence. }
  assert (Hcid : cid <> EmptyString) by (apply truthy_Some, Htr).
  assert (Hs : counted s) by (split; assumption).
  set (l1 := if negb (has_key cid l)
             then (l ++ [mkProductSales cid 0 []])%list else l).
  assert (Hl1 : NoDup (map product_courseId l1) /\
                cid ∈ map product_courseId l1 /\
                map product_courseId l ⊆ map product_courseId l1 /\
                (forall g, g ∈ l1 ->
                   group_ok xs g /\
                   (product_courseId g <> cid -> (0 < salesCount g)%nat)) /\
                list_sum (map salesCount l1) = list_sum (map salesCount l)).
  { unfold l1. destruct (has_key cid l) eqn:Hk; cbn [negb].
    - apply has_key_spec in Hk.
      split; [exact Hnd|]. split; [exact Hk|]. split; [intros x Hx; exact Hx|].
      split; [|reflexivity].
      intros g Hg. destruct (Hok g Hg) as [Hg1 Hg2]. split; [exact Hg1|auto].
    - assert (Hnk : cid ∉ map product_courseId l).
      { intros Hin. apply has_key_spec in Hin. congruence. }
      rewrite !map_app. cbn [map product_courseId salesCount].
      split; [|split; [|split; [|split]]].
      + apply NoDup_app. split; [exact Hnd|]. split; [|apply NoDup_singleton].
        intros x Hx Hx'. apply list_elem_of_singleton in Hx'. subst x. contradiction.
      + apply elem_of_app. right. left.
      + intros x Hx. apply elem_of_app. left. exact Hx.
      + intros g Hg. apply elem_of_app in Hg as [Hg|Hg].
        { destruct (Hok g Hg) as [Hg1 Hg2]. split; [exact Hg1|auto]. }
        apply list_elem_of_singleton in Hg. subst g. split.
        * unfold group_ok. cbn [product_courseId salesCount purchasers].
          assert (Hnone : sales_for cid xs = []).
          { destruct (sales_for cid xs) as [|s' r] eqn:Hf; [reflexivity|].
            exfalso. apply Hnk.
            assert (Hin : s' ∈ sales_for cid xs) by (rewrite Hf; left).
            apply list_elem_of_filter in Hin as [[Hc <-] Hin]. apply Hall; assumption. }
          rewrite Hnone. auto.
        * cbn [product_courseId]. intros Hne. contradiction.
      + rewrite list_sum_app. cbn. lia. }
  destruct Hl1 as (Hnd1 & Hin1 & Hsub & Hok1 & Hsum1).
  set (upd := fun g => mkProductSales (product_courseId g) (salesCount g + 1)
                         (purchasers g
                          ++ if sale_user s then [buyer (sale s)] else [])%list).
  assert (Hl3 : (if sale_user s
                 then update_key cid
                        (fun g => mkProductSales (product_courseId g) (salesCount g)
                                    (purchasers g
                                     ++ [mkPurchaser (userId (sale s))
                                                     (createdAt (sale s))])%list)
                        (update_key cid
                           (fun g => mkProductSales (product_courseId g)
                                       (salesCount g + 1) (purchasers g)) l1)
                 else update_key cid
                        (fun g => mkProductSales (product_courseId g)
                                    (salesCount g + 1) (purchasers g)) l1)
                = update_key cid upd l1).
  { unfold update_key, upd. destruct (sale_user s).
    - rewrite map_map. apply map_ext. intros g.
      destruct (String.eqb (product_courseId g) cid) eqn:Hk;
        cbn [product_courseId]; rewrite Hk; reflexivity.
    - apply map_ext. intros g.
      destruct (String.eqb (product_courseId g) cid); [|reflexivity].
      rewrite app_nil_r. reflexivity. }
  fold cid. fold l1. rewrite Hl3. clear Hl3.
  assert (Hkeys : map product_courseId (update_key cid upd l1)
                  = map product_courseId l1)
    by (apply update_key_keys; reflexivity).
  split.
  - rewrite Hkeys. exact Hnd1.
  - intros g' Hg'. unfold update_key in Hg'.
    apply list_elem_of_fmap in Hg' as (g & -> & Hg).
    destruct (Hok1 g Hg) as [(Hk & Hc & Hp) Hpos].
    destruct (String.eqb (product_courseId g) cid) eqn:Heq.
    + apply String.eqb_eq in Heq. unfold group_ok, upd.
      cbn [product_courseId salesCount purchasers].
      rewrite sales_for_snoc, decide_True by (split; [exact Hs | symmetry; exact Heq]).
      rewrite length_app, filter_app, map_app, Hc, Hp. cbn [length].
      repeat split; auto; try lia.
      f_equal. rewrite filter_cons, filter_nil.
      destruct (sale_user s); [rewrite decide_True by reflexivity
                              | rewrite decide_False by discriminate]; reflexivity.
    + apply String.eqb_neq in Heq. unfold group_ok.
      rewrite sales_for_snoc, decide_False by (intros [_ E]; fold cid in E; congruence).
      rewrite app_nil_r. auto.
  - rewrite Hkeys. intros s' Hs' Hc.
    apply elem_of_app in Hs' as [Hs'|Hs']; [apply Hsub, Hall; assumption|].
    apply list_elem_of_singleton in Hs'. subst s'. exact Hin1.
  - rewrite update_key_sum; [|intros g; unfold upd; cbn; lia|exact Hnd1|exact Hin1].
    rewrite Hsum1, Hsum, filter_app, length_app.
    rewrite filter_cons_True by exact Hs. cbn. lia.
Qed.

Lemma fold_group_sale_grouped ys : forall xs l,
  grouped xs l -> grouped (xs ++ ys)%list (fold_left group_sale ys l).
Proof.
  induction ys as [|y ys IH]; intros xs l H; cbn [fold_left].
  - rewrite app_nil_r. exact H.
  - replace (xs ++ y :: ys)%list with ((xs ++ [y]) ++ ys)%list
      by (rewrite <- app_assoc; reflexivity).
    apply IH, group_sale_grouped, H.
Qed.

Lemma grouped_nil : grouped [] [].
Proof.
  split.
  - constructor.
  - intros g Hg. inversion Hg.
  - intros s Hs. inversion Hs.
  - reflexivity.
Qed.

Section SalesOf.

Context (creator : string -> string) (iid : string) (w : World).

Lemma own_courses_spec cid :
  cid ∈ filter (fun cid => creator cid = iid) (map fst (map_to_list (courses w)))
  <-> is_Some (courses w !! cid) /\ creator cid = iid.
Proof.
  rewrite list_elem_of_filter, list_elem_of_fmap. split.
  - intros [Hc ([i c] & -> & Hin)]. apply elem_of_map_to_list in Hin.
    split; [eexists; exact Hin | exact Hc].
  - intros [[c Hc] Hcr]. split; [exact Hcr|].
    exists (cid, c). split; [reflexivity | apply elem_of_map_to_list, Hc].
Qed.

Lemma sales_for_found c ps :
  c <> EmptyString ->
  sales_for c (map (populated_sale w) (filter (sale_of creator iid w) ps))
    = map (populated_sale w)
          (filter (fun p => sale_of creator iid w p /\ courseId p = c) ps).
Proof.
  intros Hc. unfold sales_for. induction ps as [|p ps IH]; [reflexivity|].
  rewrite !(filter_cons _ p ps).
  destruct (decide (sale_of creator iid w p)) as [Hp|Hp].
  - cbn [map]. rewrite filter_cons.
    destruct (decide (courseId p = c)) as [Hpc|Hpc].
    + rewrite !decide_True; [cbn [map]; rewrite IH; reflexivity|tauto|].
      split; [|exact Hpc]. split; cbn [sale populated_sale sale_course]; [|congruence].
      apply bool_decide_eq_true. apply Hp.
    + rewrite !decide_False; [exact IH|tauto|tauto].
  - rewrite decide_False by tauto. exact IH.
Qed.

Lemma purchasers_found ps :
  map (fun s => buyer (sale s)) (filter (fun s => sale_user s = true) (map (populated_sale w) ps))
    = map buyer (filter (fun p => is_Some (users w !! userId p)) ps).
Proof.
  induction ps as [|p ps IH]; [reflexivity|].
  cbn [map]. rewrite !filter_cons. cbn [sale_user populated_sale].
  destruct (decide (is_Some (users w !! userId p))) as [Hu|Hu].
  - rewrite decide_True by (apply bool_decide_eq_true, Hu).
    cbn [map sale]. rewrite IH. reflexivity.
  - rewrite decide_False; [exact IH|].
    intros H. apply bool_decide_eq_true in H. contradiction.
Qed.

End SalesOf.

(** X23.  [getInstructorSalesData] writes nothing and never throws; it
    answers 500 only when the database fails.  Otherwise it answers 200
    and reports the instructor's own sales only: [totalSales] is the
    number of purchases stored as [succeeded] of existing courses they
    created.  The breakdown has one entry per course with a sale, none
    twice; an entry's [salesCount] is the number of those sales of its
    course, and its purchasers are the buyers whose user still exists,
    in the order of the purchases.  The counts of the breakdown add up
    to [totalSales]. *)
Theorem instructor_sales_are_their_own env creator iid w :
  exists code body w',
    getInstructorSalesData env creator iid w = Ok (code, body) w' /\
    purchases w' = purchases w /\ users w' = users w /\ courses w' = courses w /\
    commands w' = commands w /\
    match body with
    | SalesFailed _ _ =>
        code = 500 /\
        (db_up env (tick w) = false \/ db_up env (S (tick w)) = false)
    | SalesData sales totalSales =>
        code = 200 /\
        totalSales = length (filter (sale_of creator iid w) (purchases w)) /\
        NoDup (map product_courseId sales) /\
        (forall g, g ∈ sales ->
           let of_course :=
             filter (fun p => sale_of creator iid w p /\
                              courseId p = product_courseId g) (purchases w) in
           salesCount g = length of_course /\
           (0 < salesCount g)%nat /\
           purchasers g
             = map buyer (filter (fun p => is_Some (users w !! userId p)) of_course)) /\
        (forall p, p ∈ purchases w -> sale_of creator iid w p ->
                   courseId p <> EmptyString ->
                   courseId p ∈ map product_courseId sales) /\
        (courses w !! EmptyString = None ->
         list_sum (map salesCount sales) = totalSales)
    end.
Proof.
  unfold getInstructorSalesData, try_catch, bind at 1, Course_find_creator,
    bind at 1, db_roundtrip.
  destruct (db_up env (tick w)) eqn:Hdb.
  2: { do 3 eexists. split; [reflexivity|]. cbn. auto 10. }
  cbn [courses advance].
  set (ids := filter (fun cid => creator cid = iid) (map fst (map_to_list (courses w)))).
  assert (Hids : forall cid, cid ∈ ids <-> is_Some (courses w !! cid) /\ creator cid = iid)
    by (intros cid; apply own_courses_spec).
  assert (Hq : filter (fun p => bool_decide (courseId p ∈ ids)
                                && bool_decide (status p = succeeded) = true)
                      (purchases w)
               = filter (sale_of creator iid w) (purchases w)).
  { apply list_filter_iff. intros p. unfold sale_of.
    rewrite andb_true_iff, !bool_decide_eq_true, Hids. tauto. }
  destruct ids as [|i0 ids'] eqn:Hi.
  { do 3 eexists. split; [reflexivity|]. cbn.
    assert (Hnone : filter (sale_of creator iid w) (purchases w) = []).
    { destruct (filter (sale_of creator iid w) (purchases w)) as [|p r] eqn:Hf;
        [reflexivity|].
      assert (Hp : p ∈ filter (sale_of creator iid w) (purchases w))
        by (rewrite Hf; left).
      apply list_elem_of_filter in Hp as [(_ & Hc & Hcr) _].
      assert (Hin : courseId p ∈ @nil string) by (apply Hids; auto).
      inversion Hin. }
    rewrite Hnone.
    split; [reflexivity|]. split; [reflexivity|]. split; [reflexivity|].
    split; [reflexivity|]. split; [reflexivity|]. split; [reflexivity|].
    split; [constructor|]. split; [intros g Hg; inversion Hg|].
    split; [|reflexivity].
    intros p Hp Hs _.
    assert (Hin : p ∈ filter (sale_of creator iid w) (purchases w))
      by (apply list_elem_of_filter; auto).
    rewrite Hnone in Hin. inversion Hin. }
  rewrite <- Hi in *. clear Hi i0 ids'.
  unfold bind at 1, find_sales, bind at 1, db_roundtrip. cbn [tick advance].
  destruct (db_up env (S (tick w))) eqn:Hdb2.
  2: { do 3 eexists. split; [reflexivity|]. cbn. auto 10. }
  cbn [purchases users courses advance]. rewrite Hq.
  set (found := filter (sale_of creator iid w) (purchases w)).
  change (populated_sale (advance (advance w))) with (populated_sale w).
  set (mk := populated_sale w).
  pose proof (fold_group_sale_grouped (map mk found) [] [] grouped_nil) as Hg.
  cbn [app] in Hg. destruct Hg as [Hnd Hok Hall Hsum].
  do 3 eexists. split; [reflexivity|]. cbn [purchases users courses commands advance].
  split; [reflexivity|]. split; [reflexivity|]. split; [reflexivity|].
  split; [reflexivity|]. split; [reflexivity|].
  split; [apply length_map|]. split; [exact Hnd|]. split; [|split].
  - intros g Hg. destruct (Hok g Hg) as [(Hk & Hc & Hp) Hpos]. cbv zeta.
    unfold found, mk in Hc, Hp.
    rewrite (sales_for_found creator iid w _ _ Hk) in Hc, Hp.
    rewrite length_map in Hc. rewrite purchasers_found in Hp. auto.
  - intros p Hp Hs Hne.
    apply (Hall (mk p)).
    + apply list_elem_of_fmap_2. apply list_elem_of_filter. auto.
    + split; [|exact Hne]. cbn [mk populated_sale sale_course].
      apply bool_decide_eq_true. apply Hs.
  - intros Hempty. rewrite Hsum. f_equal.
    assert (Hall' : Forall counted (map mk found)).
    { apply Forall_forall. intros s Hs.
      apply list_elem_of_fmap in Hs as (p & -> & Hp).
      apply list_elem_of_filter in Hp as [(_ & Hc & _) _].
      split; [apply bool_decide_eq_true, Hc|].
      cbn [mk populated_sale sale]. intros E. rewrite E, Hempty in Hc. destruct Hc; discriminate. }
    clear -Hall'. induction Hall' as [|s l Hs _ IH]; [reflexivity|].
    rewrite filter_cons_True by exact Hs. f_equal. exact IH.
Qed.

(** ** The administrator's fix without the force flag *)

Section Unforced.

Context (env : Env).

Lemma fixPayment_unforced d w :
  (status (fields d) = pending -> never_paid env (paymentId (fields d))) ->
  exists w',
    fixPayment env d false w = Ok false w' /\
    purchases w' = purchases w /\ users w' = users w /\ courses w' = courses w /\
    commands w' = commands w.
Proof.
  intros H. unfold fixPayment, is_pending.
  destruct (decide (status (fields d) = pending)) as [Hst|Hst].
  2: { rewrite bool_decide_eq_false_2 by exact Hst. cbn [negb].
       eexists. split; [reflexivity|auto]. }
  rewrite bool_decide_eq_true_2 by exact Hst. cbn [negb].
  specialize (H Hst).
  unfold bind at 1.
  destruct (truthy (STRIPE_SECRET_KEY env)
            && is_checkout_session_id (paymentId (fields d))).
  - unfold try_catch, bind, stripe_retrieve.
    destruct (sessions_retrieve env (tick w) (paymentId (fields d))) as [s|e] eqn:Hs.
    + unfold ret. rewrite (H _ _ Hs). eexists. split; [reflexivity|auto].
    + eexists. split; [reflexivity|auto].
  - eexists. split; [reflexivity|auto].
Qed.

Lemma fixPayments_loop_unforced l : forall fixed errors w,
  (forall d, d ∈ l -> status (fields d) = pending ->
             never_paid env (paymentId (fields d))) ->
  exists w',
    fixPayments_loop env false l fixed errors w = Ok (fixed, errors) w' /\
    purchases w' = purchases w /\ users w' = users w /\ courses w' = courses w /\
    commands w' = commands w.
Proof.
  induction l as [|d l IH]; intros fixed errors w Hl.
  - eexists. split; [reflexivity|auto].
  - destruct (fixPayment_unforced d w) as (w1 & Hfix & Hp & Hu & Hc & Hm).
    { apply Hl. left. }
    destruct (IH fixed errors w1) as (w' & Hloop & Hp' & Hu' & Hc' & Hm').
    { intros d' Hd'. apply Hl. right. exact Hd'. }
    exists w'. split.
    + cbn [fixPayments_loop]. unfold bind at 1, try_catch, bind at 1.
      rewrite Hfix. cbn [ret fst snd]. exact Hloop.
    + repeat split; congruence.
Qed.

End Unforced.

(** X24.  Without [--force] the command [fix-payments] changes nothing
    that the provider has not confirmed: when the provider reports no
    session of a pending purchase paid, the command ends, with [--id] or
    with [--all] and whatever the age limit, database failures
    included, and purchases, users, courses and update commands are as
    before, and none of the payments is counted as fixed. *)
Theorem unforced_fix_payments_needs_confirmation env id all hoursAgo w :
  (forall p, p ∈ purchases w -> status p = pending ->
             never_paid env (paymentId p)) ->
  exists r w',
    fix_payments env id all false hoursAgo w = Ok r w' /\
    purchases w' = purchases w /\ users w' = users w /\ courses w' = courses w /\
    commands w' = commands w /\
    (forall fixed total errors, r = AllProcessed fixed total errors ->
       fixed = 0%nat /\ errors = 0%nat).
Proof.
  intros Hnp. unfold fix_payments.
  destruct (negb (truthy id) && negb all).
  { do 2 eexists. split; [reflexivity|]. repeat split; auto; discriminate. }
  unfold bind at 1, try_catch at 1, bind at 1, db_roundtrip.
  destruct (db_up env (tick w)); cbn [ret negb].
  2: { do 2 eexists. split; [reflexivity|]. repeat split; auto; discriminate. }
  assert (Hall : exists r w',
             try_catch (fix_all_pending env false hoursAgo)
                       (fun _ => ret Failed) (advance w) = Ok r w' /\
             purchases w' = purchases w /\ users w' = users w /\
             courses w' = courses w /\ commands w' = commands w /\
             (forall fixed total errors, r = AllProcessed fixed total errors ->
                fixed = 0%nat /\ errors = 0%nat)).
  { unfold try_catch, fix_all_pending, bind at 1, find_populate, bind at 1,
      db_roundtrip. cbn [tick advance].
    destruct (db_up env (S (tick w))); cbn [purchases courses advance].
    2: { do 2 eexists. split; [reflexivity|]. repeat split; auto; discriminate. }
    set (docs := map _ _).
    assert (Hdocs : forall d, d ∈ docs -> status (fields d) = pending ->
                               never_paid env (paymentId (fields d))).
    { intros d Hd. apply list_elem_of_fmap in Hd as (p & -> & Hp).
      apply list_elem_of_filter in Hp as [_ Hp]. cbn [fields populated_in].
      apply Hnp, Hp. }
    destruct (fixPayments_loop_unforced env docs 0 0 (advance (advance w)) Hdocs)
      as (w' & Hloop & Hrest).
    destruct docs as [|d docs'] eqn:Hd.
    - do 2 eexists. split; [reflexivity|]. repeat split; auto; discriminate.
    - unfold bind. rewrite Hloop. do 2 eexists. split; [reflexivity|].
      cbn [fst snd]. destruct Hrest as (? & ? & ? & ?).
      repeat split; auto; congruence. }
  destruct id as [i|]; [|exact Hall].
  destruct (truthy (Some i)); [|exact Hall].
  unfold try_catch, bind at 1, findById, findOne, bind at 1, db_roundtrip.
  cbn [tick advance].
  destruct (db_up env (S (tick w))); cbn [purchases advance].
  2: { do 2 eexists. split; [reflexivity|]. repeat split; auto; discriminate. }
  destruct (head (filter _ (purchases w))) as [p|] eqn:Hhead; cbn [fmap option_fmap option_map].
  2: { do 2 eexists. split; [reflexivity|]. repeat split; auto; discriminate. }
  apply head_Some_elem_of, list_elem_of_filter in Hhead as [_ Hp].
  destruct (fixPayment_unforced env (loaded p) (advance (advance w)))
    as (w' & Hfix & Hrest).
  { cbn [fields loaded]. apply Hnp, Hp. }
  unfold bind. rewrite Hfix. do 2 eexists. split; [reflexivity|].
  destruct Hrest as (? & ? & ? & ?). repeat split; auto; discriminate.
Qed.

Lemma unforced_fix_payments_needs_confirmation_witness :
  let env := Scenario.env_with Scenario.unpaid Scenario.no_event in
  let w := Scenario.world pending in
  exists r w',
    fix_payments env None true false 9000000 w = Ok r w' /\
    purchases w' = purchases w /\ users w' = users w /\ courses w' = courses w /\
    commands w' = commands w /\
    (forall fixed total errors, r = AllProcessed fixed total errors ->
       fixed = 0%nat /\ errors = 0%nat).
Proof.
  apply (unforced_fix_payments_needs_confirmation
           (Scenario.env_with Scenario.unpaid Scenario.no_event)
           None true 9000000 (Scenario.world pending)).
  intros p _ _ t s Hs. cbn in Hs. injection Hs as <-. reflexivity.
Defined.
